(** * LoanLedger: amortization, status, risk, alerts, import and reconciliation

    A shallow embedding of the engineering core of the loan tracker: the
    calculations and date helpers, the loan helpers, the bulk update and file
    import utilities and the loan store, with the properties the
    specification states about them. *)

From Stdlib Require Import ZArith QArith Qcanon String Ascii List Bool Lia Lqa.
From Stdlib Require SpecFloat.
From stdpp Require Import base decidable option list strings pretty gmap.
Import ListNotations.

Local Open Scope Z_scope.

(** ** JavaScript numbers

    A JavaScript number is modelled as an exact rational, or one of the three
    IEEE-754 special values.  Finite arithmetic is exact (rounding to binary64
    is not modelled) and the sign of zero is not tracked; division by zero,
    infinities and NaN follow IEEE-754 as JavaScript does.  What is proved on
    this model is what does not depend on rounding: comparisons with
    constants, clamping, counts and special values.  The amortization
    arithmetic, which does depend on it, is modelled on doubles as well, in
    [Binary64] below. *)

Inductive number : Type :=
  | Fin (q : Qc)
  | PInf
  | NInf
  | NaN.

Definition ofZ (z : Z) : number := Fin (Qc_of_Z z).
Definition ofNat (n : nat) : number := ofZ (Z.of_nat n).

(** Sign of a finite value: [Lt], [Eq] or [Gt] against zero. *)
Definition sgn (q : Qc) : comparison := (q ?= 0)%Qc.

Definition signedInf (c : comparison) : number :=
  match c with Lt => NInf | Eq => NaN | Gt => PInf end.

Definition neg (a : number) : number :=
  match a with
  | Fin q => Fin (- q)%Qc
  | PInf => NInf
  | NInf => PInf
  | NaN => NaN
  end.

(** [a + b] *)
Definition add (a b : number) : number :=
  match a, b with
  | NaN, _ | _, NaN => NaN
  | Fin x, Fin y => Fin (x + y)%Qc
  | PInf, NInf | NInf, PInf => NaN
  | PInf, _ | _, PInf => PInf
  | NInf, _ | _, NInf => NInf
  end.

(** [a - b] *)
Definition sub (a b : number) : number := add a (neg b).

(** [a * b]; zero times an infinity is NaN. *)
Definition mul (a b : number) : number :=
  match a, b with
  | NaN, _ | _, NaN => NaN
  | Fin x, Fin y => Fin (x * y)%Qc
  | Fin x, PInf | PInf, Fin x => signedInf (sgn x)
  | Fin x, NInf | NInf, Fin x => signedInf (CompOpp (sgn x))
  | PInf, PInf | NInf, NInf => PInf
  | PInf, NInf | NInf, PInf => NaN
  end.

(** [a / b]; a finite non-zero value over zero is an infinity, [0 / 0] is NaN. *)
Definition div (a b : number) : number :=
  match a, b with
  | NaN, _ | _, NaN => NaN
  | Fin x, Fin y =>
      match sgn y with
      | Eq => signedInf (sgn x)
      | _ => Fin (x / y)%Qc
      end
  | Fin _, (PInf | NInf) => Fin 0%Qc
  | PInf, Fin y => match sgn y with Lt => NInf | _ => PInf end
  | NInf, Fin y => match sgn y with Lt => PInf | _ => NInf end
  | (PInf | NInf), (PInf | NInf) => NaN
  end.

(** [Math.pow(b, n)] for an integral exponent [n]. *)
Definition pow (b : number) (n : Z) : number :=
  match n with
  | Z0 => ofZ 1
  | Zpos p =>
      match b with
      | Fin x => Fin (x ^ Pos.to_nat p)%Qc
      | PInf => PInf
      | NInf => if Z.odd n then NInf else PInf
      | NaN => NaN
      end
  | Zneg p =>
      match b with
      | Fin x => div (ofZ 1) (Fin (x ^ Pos.to_nat p)%Qc)
      | PInf | NInf => Fin 0%Qc
      | NaN => NaN
      end
  end.

(** [a < b]; every comparison with NaN is false. *)
Definition lt (a b : number) : bool :=
  match a, b with
  | NaN, _ | _, NaN => false
  | Fin x, Fin y => match (x ?= y)%Qc with Lt => true | _ => false end
  | NInf, NInf | PInf, _ | _, NInf => false
  | NInf, _ | _, PInf => true
  end.

(** [a <= b] *)
Definition le (a b : number) : bool :=
  match a, b with
  | NaN, _ | _, NaN => false
  | Fin x, Fin y => match (x ?= y)%Qc with Gt => false | _ => true end
  | NInf, _ | _, PInf => true
  | PInf, _ | _, NInf => false
  end.

Definition gt (a b : number) : bool := lt b a.
Definition ge (a b : number) : bool := le b a.

(** [a === b] on numbers. *)
Definition strictEq (a b : number) : bool :=
  match a, b with
  | Fin x, Fin y => match (x ?= y)%Qc with Eq => true | _ => false end
  | PInf, PInf | NInf, NInf => true
  | _, _ => false
  end.

(** The global [isNaN] on a number. *)
Definition isNaN (a : number) : bool :=
  match a with NaN => true | _ => false end.

(** ToBoolean on a number: zero and NaN are falsy. *)
Definition truthy (a : number) : bool :=
  match a with
  | Fin q => match sgn q with Eq => false | _ => true end
  | PInf | NInf => true
  | NaN => false
  end.

(** [a || b] on numbers. *)
Definition orNum (a b : number) : number := if truthy a then a else b.

(** [Math.max(a, b)] and [Math.min(a, b)]: NaN if either argument is NaN. *)
Definition Math_max (a b : number) : number :=
  match a, b with
  | NaN, _ | _, NaN => NaN
  | _, _ => if lt a b then b else a
  end.

Definition Math_min (a b : number) : number :=
  match a, b with
  | NaN, _ | _, NaN => NaN
  | _, _ => if lt b a then b else a
  end.

(** [Math.ceil]. *)
Definition Math_ceil (a : number) : number :=
  match a with
  | Fin q => ofZ (- ((- Qnum q) / Zpos (Qden q)))
  | _ => a
  end.

(** ** src/utils/calculations.js: calculateMonthlyPayment *)

Definition calculateMonthlyPayment (principal annualRate : number) (termMonths : Z)
  : number :=
  if (termMonths =? 0) || strictEq annualRate (ofZ 0) then
    orNum (div principal (ofZ termMonths)) (ofZ 0)
  else
    let monthlyRate := div (div annualRate (ofZ 100)) (ofZ 12) in
    let numerator :=
      mul (mul principal monthlyRate) (pow (add (ofZ 1) monthlyRate) termMonths) in
    let denominator := sub (pow (add (ofZ 1) monthlyRate) termMonths) (ofZ 1) in
    div numerator denominator.


(** ** Completions

    A call either returns a value or throws. *)

Inductive exn : Type :=
  | Error (message : string)
  | RangeError
  | TypeError.

Inductive completion (A : Type) : Type :=
  | Return (a : A)
  | Throw (e : exn).
Arguments Return {A} a.
Arguments Throw {A} e.

#[global] Instance completion_ret : MRet completion := @Return.
#[global] Instance completion_bind : MBind completion :=
  λ A B f c, match c with Return a => f a | Throw e => Throw e end.

(** ** The Date object, in UTC

    A valid Date is its time value, in milliseconds since the epoch; an
    Invalid Date is [None].  Local time is taken to be UTC. *)

Definition msPerDay : Z := 86400000.

(** Day number of a civil date, month in 1..12 (proleptic Gregorian). *)
Definition daysFromCivil (y m d : Z) : Z :=
  let y' := if m <=? 2 then y - 1 else y in
  let era := y' / 400 in
  let yoe := y' - era * 400 in
  let mp := (m + 9) mod 12 in
  let doy := (153 * mp + 2) / 5 + d - 1 in
  let doe := yoe * 365 + yoe / 4 - yoe / 100 + doy in
  era * 146097 + doe - 719468.

(** Civil date (year, month in 1..12, day) of a day number. *)
Definition civilFromDays (z : Z) : Z * Z * Z :=
  let z' := z + 719468 in
  let era := z' / 146097 in
  let doe := z' - era * 146097 in
  let yoe := (doe - doe / 1460 + doe / 36524 - doe / 146096) / 365 in
  let doy := doe - (365 * yoe + yoe / 4 - yoe / 100) in
  let mp := (5 * doy + 2) / 153 in
  let d := doy - (153 * mp + 2) / 5 + 1 in
  let m := if mp <? 10 then mp + 3 else mp - 9 in
  let y := yoe + era * 400 in
  (if m <=? 2 then y + 1 else y, m, d).

Definition getFullYear (t : Z) : Z := (civilFromDays (t / msPerDay)).1.1.
(** Months are numbered from 0. *)
Definition getMonth (t : Z) : Z := (civilFromDays (t / msPerDay)).1.2 - 1.
Definition getDate (t : Z) : Z := (civilFromDays (t / msPerDay)).2.

(** MakeDay of ECMAScript: the month may lie outside 0..11 and the day
    outside the month; both roll over. *)
Definition makeDay (year month date : Z) : Z :=
  daysFromCivil (year + month / 12) (month mod 12 + 1) 1 + date - 1.

(** [d.setFullYear(year, month, date)], [d.setMonth(month)] and
    [d.setDate(date)] keep the time within the day. *)
Definition setFullYear (t year month date : Z) : Z :=
  makeDay year month date * msPerDay + t mod msPerDay.
Definition setMonth (t month : Z) : Z :=
  setFullYear t (getFullYear t) month (getDate t).
Definition setDate (t date : Z) : Z :=
  setFullYear t (getFullYear t) (getMonth t) date.

(** [new Date(year, month, date)]; a year in 0..99 means 1900 + year. *)
Definition newDateYMD (year month date : Z) : Z :=
  let year' := if (0 <=? year) && (year <=? 99) then 1900 + year else year in
  makeDay year' month date * msPerDay.

(** TimeClip of ECMAScript: a time value more than 8.64e15 ms from the epoch
    makes the Date invalid ([None]). *)
Definition maxTime : Z := 8640000000000000.

Definition timeClip (t : Z) : option Z :=
  if Z.abs t <=? maxTime then Some t else None.

Definition padStart (width : nat) (fill : ascii) (s : string) : string :=
  string_of_list_ascii (replicate (width - String.length s) fill) +:+ s.

Definition pad0 (width : nat) (n : Z) : string := padStart width "0"%char (pretty n).

(** [d.toISOString().split('T')[0]]: the date part, with the six-digit
    signed year outside 0..9999. *)
Definition toISODate (t : Z) : string :=
  let '(y, m, d) := civilFromDays (t / msPerDay) in
  let year :=
    if (0 <=? y) && (y <=? 9999) then pad0 4 y
    else (if y <? 0 then "-" else "+") +:+ pad0 6 (Z.abs y) in
  year +:+ "-" +:+ pad0 2 m +:+ "-" +:+ pad0 2 d.

(** [d.toISOString()] in full. *)
Definition toISOString (t : Z) : string :=
  let ms := t mod msPerDay in
  toISODate t +:+ "T" +:+ pad0 2 (ms / 3600000) +:+ ":" +:+ pad0 2 (ms / 60000 mod 60)
    +:+ ":" +:+ pad0 2 (ms / 1000 mod 60) +:+ "." +:+ pad0 3 (ms mod 1000) +:+ "Z".


(** ** Strings

    Strings are sequences of bytes; the case mapping and the white space of
    the String methods are modelled on ASCII. *)

Definition chars (s : string) : list ascii := list_ascii_of_string s.
Definition str (l : list ascii) : string := string_of_list_ascii l.

Definition code (c : ascii) : nat := nat_of_ascii c.

Definition isDigit (c : ascii) : bool := (48 <=? code c)%nat && (code c <=? 57)%nat.

Definition digitValue (c : ascii) : Z := Z.of_nat (code c) - 48.

(** The class [\s], and the characters [trim] strips. *)
Definition isWhitespace (c : ascii) : bool :=
  (code c =? 32)%nat || ((9 <=? code c)%nat && (code c <=? 13)%nat).

Fixpoint dropWhile {A} (f : A → bool) (l : list A) : list A :=
  match l with
  | [] => []
  | x :: rest => if f x then dropWhile f rest else l
  end.

(** [s.trim()] *)
Definition trim (s : string) : string :=
  str (rev (dropWhile isWhitespace (rev (dropWhile isWhitespace (chars s))))).

Definition lowerChar (c : ascii) : ascii :=
  if (65 <=? code c)%nat && (code c <=? 90)%nat then ascii_of_nat (code c + 32) else c.

(** [s.toLowerCase()] *)
Definition toLowerCase (s : string) : string := str (map lowerChar (chars s)).

Fixpoint isPrefixOf (p s : list ascii) : bool :=
  match p, s with
  | [], _ => true
  | _ :: _, [] => false
  | a :: p', b :: s' => Ascii.eqb a b && isPrefixOf p' s'
  end.

Fixpoint isInfixOf (p s : list ascii) : bool :=
  isPrefixOf p s || match s with [] => false | _ :: s' => isInfixOf p s' end.

(** [s.includes(part)] *)
Definition includes (s part : string) : bool := isInfixOf (chars part) (chars s).

(** [s.split(c)] for a separator [c] of one character: never empty. *)
Fixpoint splitChars (sep : ascii → bool) (cur : list ascii) (s : list ascii)
  : list string :=
  match s with
  | [] => [str (rev cur)]
  | c :: rest =>
      if sep c then str (rev cur) :: splitChars sep [] rest
      else splitChars sep (c :: cur) rest
  end.

Definition split (sep : ascii) (s : string) : list string :=
  splitChars (Ascii.eqb sep) [] (chars s).

(** [array.join(sep)] *)
Fixpoint join (sep : string) (l : list string) : string :=
  match l with
  | [] => ""
  | [x] => x
  | x :: rest => x +:+ sep +:+ join sep rest
  end.

(** A regular expression that is a sequence of character classes, anchored at
    the start: the rest of the input after a match. *)
Fixpoint matchClasses (classes : list (ascii → bool)) (s : list ascii)
  : option (list ascii) :=
  match classes, s with
  | [], _ => Some s
  | _ :: _, [] => None
  | f :: classes', c :: s' => if f c then matchClasses classes' s' else None
  end.

Definition isChar (c : ascii) : ascii → bool := Ascii.eqb c.

(** [/^\d+$/.test(s)] *)
Definition isAllDigits (s : string) : bool :=
  match chars s with
  | [] => false
  | l => forallb isDigit l
  end.

Definition isoDatePattern : list (ascii → bool) :=
  [isDigit; isDigit; isDigit; isDigit; isChar "-"%char; isDigit; isDigit; isChar "-"%char;
   isDigit; isDigit].

(** [/^\d{4}-\d{2}-\d{2}/.test(s)] *)
Definition startsWithIsoDate (s : string) : bool :=
  bool_decide (is_Some (matchClasses isoDatePattern (chars s))).

(** [/^\d{4}-\d{2}-\d{2}$/.test(s)] *)
Definition isIsoDate (s : string) : bool :=
  bool_decide (matchClasses isoDatePattern (chars s) = Some []).

(** [/^\d{2}\/\d{2}\/\d{4}/.test(s)] *)
Definition startsWithSlashDate (s : string) : bool :=
  bool_decide (is_Some (matchClasses
    [isDigit; isDigit; isChar "/"%char; isDigit; isDigit; isChar "/"%char;
     isDigit; isDigit; isDigit; isDigit] (chars s))).

(** [/^\d{2}-\d{2}-\d{4}/.test(s)] *)
Definition startsWithDashDate (s : string) : bool :=
  bool_decide (is_Some (matchClasses
    [isDigit; isDigit; isChar "-"%char; isDigit; isDigit; isChar "-"%char;
     isDigit; isDigit; isDigit; isDigit] (chars s))).

(** The value of a run of decimal digits. *)
Definition digitsValue (l : list ascii) : Z :=
  fold_left (λ acc c, acc * 10 + digitValue c) l 0.


(** The double-quote character and the line feed. *)
Definition quote : ascii := "034"%char.
Definition newline : ascii := "010"%char.
Definition nl : string := String newline "".
Definition dq : string := String quote "".

(** ** Numbers out of strings *)

(** The longest run of characters of a class at the start, and the rest. *)
Fixpoint span (f : ascii → bool) (s : list ascii) : list ascii * list ascii :=
  match s with
  | [] => ([], [])
  | c :: rest =>
      if f c then let '(run, rest') := span f rest in (c :: run, rest') else ([], s)
  end.

Definition pow10 (e : Z) : Qc :=
  match e with
  | Zneg p => (/ Qc_of_Z (10 ^ Zpos p))%Qc
  | _ => Qc_of_Z (10 ^ e)
  end.

(** The exponent part [e[+-]digits] at the start, if complete. *)
Definition readExponent (s : list ascii) : Z * list ascii :=
  match s with
  | c :: rest =>
      if Ascii.eqb c "e" || Ascii.eqb c "E" then
        let '(sign, rest1) :=
          match rest with
          | "+"%char :: r => (1, r)
          | "-"%char :: r => (-1, r)
          | _ => (1, rest)
          end in
        match span isDigit rest1 with
        | ([], _) => (0, s)
        | (ds, rest2) => (sign * digitsValue ds, rest2)
        end
      else (0, s)
  | [] => (0, s)
  end.

(** The longest prefix that is a StrUnsignedDecimalLiteral: its value and the
    rest; [None] when there is none. *)
Definition readUnsignedDecimal (s : list ascii) : option (number * list ascii) :=
  if isPrefixOf (chars "Infinity") s then Some (PInf, drop 8 s)
  else
    let '(ip, rest1) := span isDigit s in
    let '(fp, rest2) :=
      match rest1 with
      | "."%char :: r =>
          match span isDigit r, ip with
          | ([], _), [] => ([], rest1)
          | (fp, r'), _ => (fp, r')
          end
      | _ => ([], rest1)
      end in
    match ip ++ fp with
    | [] => None
    | ds =>
        let '(e, rest3) := readExponent rest2 in
        Some (Fin (Qc_of_Z (digitsValue ds) * pow10 (e - Z.of_nat (length fp)))%Qc, rest3)
    end.

(** The same after an optional sign. *)
Definition readDecimal (s : list ascii) : option (number * list ascii) :=
  match s with
  | "-"%char :: r =>
      match readUnsignedDecimal r with
      | Some (v, rest) => Some (neg v, rest)
      | None => None
      end
  | "+"%char :: r => readUnsignedDecimal r
  | _ => readUnsignedDecimal s
  end.

(** The global [parseFloat] on a string. *)
Definition parseFloat (s : string) : number :=
  match readDecimal (dropWhile isWhitespace (chars s)) with
  | Some (v, _) => v
  | None => NaN
  end.

Definition hexValue (c : ascii) : option Z :=
  if isDigit c then Some (digitValue c)
  else if (97 <=? code c)%nat && (code c <=? 102)%nat then Some (Z.of_nat (code c) - 87)
  else if (65 <=? code c)%nat && (code c <=? 70)%nat then Some (Z.of_nat (code c) - 55)
  else None.

Definition isHexDigit (c : ascii) : bool := bool_decide (is_Some (hexValue c)).

Definition radixValue (radix : Z) (l : list ascii) : Z :=
  fold_left (λ acc c, acc * radix + default 0 (hexValue c)) l 0.

Definition hasPrefix0 (x : ascii) (s : list ascii) : bool :=
  match s with
  | "0"%char :: c :: _ => Ascii.eqb (lowerChar c) x
  | _ => false
  end.

(** [parseInt(s)] without a radix: decimal, or hexadecimal after [0x];
    [None] is NaN. *)
Definition parseInt (s : string) : option Z :=
  let s0 := dropWhile isWhitespace (chars s) in
  let '(sign, s1) :=
    match s0 with
    | "-"%char :: r => (-1, r)
    | "+"%char :: r => (1, r)
    | _ => (1, s0)
    end in
  if hasPrefix0 "x" s1 then
    match span isHexDigit (drop 2 s1) with
    | ([], _) => None
    | (ds, _) => Some (sign * radixValue 16 ds)
    end
  else
    match span isDigit s1 with
    | ([], _) => None
    | (ds, _) => Some (sign * digitsValue ds)
    end.

Definition isOctalDigit (c : ascii) : bool := (48 <=? code c)%nat && (code c <=? 55)%nat.
Definition isBinaryDigit (c : ascii) : bool := (48 <=? code c)%nat && (code c <=? 49)%nat.

Definition readRadix (radix : Z) (digit : ascii → bool) (l : list ascii) : number :=
  match l with
  | [] => NaN
  | _ => if forallb digit l then ofZ (radixValue radix l) else NaN
  end.

(** ToNumber on a string, as the global [isNaN] applies it. *)
Definition stringToNumber (s : string) : number :=
  let t := chars (trim s) in
  match t with
  | [] => ofZ 0
  | _ =>
      if hasPrefix0 "x" t then readRadix 16 isHexDigit (drop 2 t)
      else if hasPrefix0 "o" t then readRadix 8 isOctalDigit (drop 2 t)
      else if hasPrefix0 "b" t then readRadix 2 isBinaryDigit (drop 2 t)
      else
        match readDecimal t with
        | Some (v, []) => v
        | _ => NaN
        end
  end.
(** ** The host environment

    What the code takes from the JavaScript engine and from date-fns and
    whose results are implementation-defined: reading a date out of a string,
    and turning numbers and dates into text. *)

Record Host : Type := {
  (** date-fns [parseISO(s)]: the time value, [None] for an Invalid Date. *)
  parseISO : string → option Z;
  (** [new Date(s)] on a string. *)
  newDate : string → option Z;
  (** Number-to-string conversion, as in a template literal. *)
  numberToString : number → string;
  (** [n.toLocaleString('en-US', { style: 'currency', currency: 'USD' })]. *)
  toLocaleCurrency : number → string;
  (** [n.toLocaleString()]. *)
  toLocaleString : number → string;
  (** [Intl.NumberFormat('en-US', ...)] of formatCurrency. *)
  intlCurrency : number → string;
  (** date-fns [format(date, formatString)]; it throws on an Invalid Date. *)
  format : Z → string → string;
  (** [String(v)] of the value [v] that every object inherits under a key. *)
  inheritedToString : string → string
}.

(** ** Data model (the type definitions)

    A string-valued property that may be absent is modelled by a string, the
    empty string standing for [undefined], [null] and [''], which the code
    never tells apart: all three are falsy. *)

Module Payment.
Record t : Type := make {
  id : string;
  dueDate : string;
  amount : number;
  status : string;
  paidDate : option string;
  principalAmount : number;
  interestAmount : number;
  notes : string
}.
End Payment.

Module Obligation.
Record t : Type := make {
  id : string;
  type : string;
  title : string;
  dueDate : string;
  completed : bool;
  completedDate : option string;
  description : string;
  notes : string
}.
End Obligation.

Module Note.
Record t : Type := make {
  id : string;
  date : string;
  author : string;
  content : string
}.
End Note.

Module Communication.
Record t : Type := make {
  id : string;
  type : string;
  direction : string;
  subject : string;
  content : string;
  date : string;
  author : string;
  recipient : string;
  status : string;
  automated : bool;
  relatedPaymentId : option string;
  relatedObligationId : option string
}.
End Communication.

Module Loan.
Record t : Type := make {
  id : string;
  borrower : string;
  amount : number;
  interestRate : number;
  term : Z;
  startDate : string;
  endDate : string;
  status : string;
  paymentSchedule : list Payment.t;
  obligations : list Obligation.t;
  notes : list Note.t;
  communications : list Communication.t;
  riskScore : number;
  tags : list string;
  borrowerContact : string;
  borrowerEmail : string;
  borrowerPhone : string;
  loanOfficer : string;
  (** The managing party, and the older owner fields kept beside it. *)
  managedBy : option string;
  userId : option string;
  userEmail : option string;
  borrowerIdentifier : option string
}.

(** [{ ...loan, status }] *)
Definition withStatus (l : t) (s : string) : t :=
  make (id l) (borrower l) (amount l) (interestRate l) (term l) (startDate l)
    (endDate l) s (paymentSchedule l) (obligations l) (notes l)
    (communications l) (riskScore l) (tags l) (borrowerContact l)
    (borrowerEmail l) (borrowerPhone l) (loanOfficer l) (managedBy l)
    (userId l) (userEmail l) (borrowerIdentifier l).

(** [{ ...loan, riskScore }] *)
Definition withRiskScore (l : t) (r : number) : t :=
  make (id l) (borrower l) (amount l) (interestRate l) (term l) (startDate l)
    (endDate l) (status l) (paymentSchedule l) (obligations l) (notes l)
    (communications l) r (tags l) (borrowerContact l)
    (borrowerEmail l) (borrowerPhone l) (loanOfficer l) (managedBy l)
    (userId l) (userEmail l) (borrowerIdentifier l).

(** [{ ...loan, paymentSchedule }] *)
Definition withPaymentSchedule (l : t) (ps : list Payment.t) : t :=
  make (id l) (borrower l) (amount l) (interestRate l) (term l) (startDate l)
    (endDate l) (status l) ps (obligations l) (notes l)
    (communications l) (riskScore l) (tags l) (borrowerContact l)
    (borrowerEmail l) (borrowerPhone l) (loanOfficer l) (managedBy l)
    (userId l) (userEmail l) (borrowerIdentifier l).

(** [{ ...loan, communications }] *)
Definition withCommunications (l : t) (cs : list Communication.t) : t :=
  make (id l) (borrower l) (amount l) (interestRate l) (term l) (startDate l)
    (endDate l) (status l) (paymentSchedule l) (obligations l) (notes l)
    cs (riskScore l) (tags l) (borrowerContact l)
    (borrowerEmail l) (borrowerPhone l) (loanOfficer l) (managedBy l)
    (userId l) (userEmail l) (borrowerIdentifier l).
End Loan.

Module Alert.
Record t : Type := make {
  id : string;
  loanId : string;
  type : string;
  severity : string;
  title : string;
  message : string;
  date : string;
  read : bool;
  actionUrl : string
}.

(** [{ ...alert, read }] *)
Definition withRead (a : t) (r : bool) : t :=
  make (id a) (loanId a) (type a) (severity a) (title a) (message a) (date a)
    r (actionUrl a).
End Alert.

(** A candidate record, as the import parsers build it: a loan without
    owner, risk score or borrower identifier, and possibly without a payment
    schedule ([None]: the property is absent). *)
Module Candidate.
Record t : Type := make {
  id : string;
  borrower : string;
  amount : number;
  interestRate : number;
  term : Z;
  startDate : string;
  endDate : string;
  status : string;
  borrowerEmail : string;
  borrowerPhone : string;
  borrowerContact : string;
  loanOfficer : string;
  obligations : list Obligation.t;
  notes : list Note.t;
  tags : list string;
  communications : list Communication.t;
  paymentSchedule : option (list Payment.t)
}.
End Candidate.

Module FilterState.
Record t : Type := make {
  status : list string;
  borrowers : list string;
  minAmount : option number;
  maxAmount : option number;
  startDateFrom : string;
  startDateTo : string;
  searchQuery : string
}.
End FilterState.

(** The state of the store (src/store/useLoanStore.js). *)
Module Store.
Record t : Type := make {
  loans : list Loan.t;
  filters : FilterState.t;
  selectedLoanId : option string;
  alerts : list Alert.t;
  currentUserId : option string
}.

(** [set({ loans })] *)
Definition withLoans (s : t) (ls : list Loan.t) : t :=
  make ls (filters s) (selectedLoanId s) (alerts s) (currentUserId s).

(** [set({ alerts })] *)
Definition withAlerts (s : t) (al : list Alert.t) : t :=
  make (loans s) (filters s) (selectedLoanId s) al (currentUserId s).
End Store.

(** The five loan statuses of the data model, and their names. *)
Inductive LoanStatus : Type := on_track | at_risk | overdue | defaulted | paid_off.

Definition statusName (s : LoanStatus) : string :=
  match s with
  | on_track => "on_track"
  | at_risk => "at_risk"
  | overdue => "overdue"
  | defaulted => "defaulted"
  | paid_off => "paid_off"
  end.

(** [a || b] on strings: the empty string is falsy. *)
Definition orStr (a b : string) : string := if String.eqb a "" then b else a.

(** [array.filter(f).length] *)
Definition count {A} (f : A → bool) (l : list A) : nat := length (List.filter f l).

(** Reading [table[key]] on an object literal: an own property, a property
    inherited from [Object.prototype] (a function or an object, never a
    number), or [undefined]. *)
Inductive property (A : Type) : Type :=
  | Own (a : A)
  | Inherited
  | Undefined.
Arguments Own {A} a.
Arguments Inherited {A}.
Arguments Undefined {A}.

Definition objectPrototypeKeys : list string :=
  ["constructor"; "__proto__"; "hasOwnProperty"; "isPrototypeOf";
   "propertyIsEnumerable"; "toLocaleString"; "toString"; "valueOf";
   "__defineGetter__"; "__defineSetter__"; "__lookupGetter__";
   "__lookupSetter__"].

Fixpoint assoc {A} (table : list (string * A)) (key : string) : option A :=
  match table with
  | [] => None
  | (k, v) :: rest => if String.eqb k key then Some v else assoc rest key
  end.

Definition getProperty {A} (table : list (string * A)) (key : string) : property A :=
  match assoc table key with
  | Some v => Own v
  | None => if existsb (String.eqb key) objectPrototypeKeys then Inherited else Undefined
  end.

Section Core.

Variable host : Host.

(** ** src/utils/dateHelpers.js *)

(** date-fns [differenceInDays(left, right)]: the number of full days between
    two dates, truncated towards zero; NaN if either is invalid. *)
Definition differenceInDays (left right : option Z) : number :=
  match left, right with
  | Some l, Some r => ofZ (Z.quot (l - r) msPerDay)
  | _, _ => NaN
  end.

(** date-fns [isPast(date)]: false on an Invalid Date. *)
Definition isPast (now : Z) (date : option Z) : bool :=
  match date with
  | Some t => t <? now
  | None => false
  end.

Definition isDatePast (now : Z) (dateString : string) : bool :=
  if String.eqb dateString "" then false
  else isPast now (parseISO host dateString).

(** [None] is JavaScript's [null]. *)
Definition daysUntil (now : Z) (dateString : string) : option number :=
  if String.eqb dateString "" then None
  else Some (differenceInDays (parseISO host dateString) (Some now)).

Definition isWithinDays (now : Z) (dateString : string) (days : number) : bool :=
  match daysUntil now dateString with
  | None => false
  | Some daysDiff => ge daysDiff (ofZ 0) && le daysDiff days
  end.

(** ** src/utils/loanHelpers.js: determineLoanStatus *)

Definition determineLoanStatus (now : Z) (loan : Loan.t) : string :=
  let paymentSchedule := Loan.paymentSchedule loan in
  let obligations := Loan.obligations loan in
  let overduePayments :=
    count (λ p, String.eqb (Payment.status p) "overdue") paymentSchedule in
  if (3 <=? overduePayments)%nat then "defaulted"
  else
    let allPaid := forallb (λ p, String.eqb (Payment.status p) "paid") paymentSchedule in
    if allPaid then "paid_off"
    else
      let hasOverdue :=
        existsb (λ p, String.eqb (Payment.status p) "overdue") paymentSchedule in
      if hasOverdue then "overdue"
      else
        let upcomingPayments :=
          List.filter (λ p, String.eqb (Payment.status p) "pending"
                            && isWithinDays now (Payment.dueDate p) (ofZ 7))
            paymentSchedule in
        let incompleteObligations :=
          List.filter (λ o, negb (Obligation.completed o)
                            && isDatePast now (Obligation.dueDate o))
            obligations in
        if (0 <? length upcomingPayments)%nat || (0 <? length incompleteObligations)%nat
        then "at_risk"
        else "on_track".

(** ** src/utils/calculations.js: calculateRiskScore *)

Definition statusRisk : list (string * number) :=
  [("on_track", ofZ 0); ("at_risk", ofZ 15); ("overdue", ofZ 25);
   ("defaulted", ofZ 30); ("paid_off", ofZ (-20))].

Definition calculateRiskScore (now : Z) (loan : Loan.t) : number :=
  let riskScore := ofZ 50 in
  (* Payment history *)
  let overduePayments :=
    count (λ p, String.eqb (Payment.status p) "overdue") (Loan.paymentSchedule loan) in
  let totalPayments := length (Loan.paymentSchedule loan) in
  let riskScore :=
    if (0 <? totalPayments)%nat then
      let overdueRatio := div (ofNat overduePayments) (ofNat totalPayments) in
      add riskScore (mul overdueRatio (ofZ 30))
    else riskScore in
  (* Obligation compliance *)
  let incompleteObligations :=
    count (λ o, negb (Obligation.completed o) && isDatePast now (Obligation.dueDate o))
      (Loan.obligations loan) in
  let totalObligations := length (Loan.obligations loan) in
  let riskScore :=
    if (0 <? totalObligations)%nat then
      let nonComplianceRatio := div (ofNat incompleteObligations) (ofNat totalObligations) in
      add riskScore (mul nonComplianceRatio (ofZ 20))
    else riskScore in
  (* Time to maturity *)
  let daysUntilMaturity := daysUntil now (Loan.endDate loan) in
  let riskScore :=
    match daysUntilMaturity with
    | Some d =>
        if lt d (ofZ 90) then
          add riskScore (mul (div (sub (ofZ 90) d) (ofZ 90)) (ofZ 20))
        else riskScore
    | None => riskScore
    end in
  (* Loan status: [riskScore += statusRisk[loan.status] || 0] *)
  match getProperty statusRisk (Loan.status loan) with
  | Own r => Math_min (ofZ 100) (Math_max (ofZ 0) (add riskScore (orNum r (ofZ 0))))
  | Undefined => Math_min (ofZ 100) (Math_max (ofZ 0) (add riskScore (ofZ 0)))
  | Inherited =>
      (* a number plus a function or an object is a string, which is not
         numeric: Math.max and Math.min turn it into NaN *)
      NaN
  end.

(** ** src/utils/loanHelpers.js: generatePaymentSchedule and enrichLoan *)

(** The due date of period [i] (from 0), lines 134-147.  A step that leaves
    the range of time values makes the date invalid, [Math.min] of a number
    and NaN is NaN, and [toISOString] throws a RangeError on an invalid
    date. *)
Definition dueDateOf (startDateObj : Z) (i : Z) : completion string :=
  let dueDate := startDateObj in
  let monthsToAdd := i + 1 in
  let targetYear := getFullYear dueDate + (getMonth dueDate + monthsToAdd) / 12 in
  let targetMonth := (getMonth dueDate + monthsToAdd) mod 12 in
  let dueDate := timeClip (setFullYear dueDate targetYear targetMonth 1) in
  let daysInMonth := getDate <$> timeClip (newDateYMD targetYear (targetMonth + 1) 0) in
  let originalDay := getDate startDateObj in
  match dueDate, daysInMonth with
  | Some dueDate, Some daysInMonth =>
      match timeClip (setDate dueDate (Z.min originalDay daysInMonth)) with
      | Some dueDate => Return (toISODate dueDate)
      | None => Throw RangeError
      end
  | _, _ => Throw RangeError
  end.

(** The loop body, run for [n] more periods from period [i]. *)
Fixpoint scheduleLoop (loanId : string) (monthlyPayment monthlyRate : number)
    (startDateObj : Z) (n : nat) (i : Z) (remainingPrincipal : number)
  : completion (list Payment.t) :=
  match n with
  | O => Return []
  | S n' =>
      let interestAmount := mul remainingPrincipal monthlyRate in
      let principalAmount := sub monthlyPayment interestAmount in
      let remainingPrincipal := sub remainingPrincipal principalAmount in
      dueDate ← dueDateOf startDateObj i;
      rest ← scheduleLoop loanId monthlyPayment monthlyRate startDateObj n' (i + 1)
                remainingPrincipal;
      mret ({| Payment.id := "payment-" +:+ loanId +:+ "-" +:+ pretty (i + 1);
               Payment.dueDate := dueDate;
               Payment.amount := monthlyPayment;
               Payment.status := "pending";
               Payment.paidDate := None;
               Payment.principalAmount := principalAmount;
               Payment.interestAmount := interestAmount;
               Payment.notes := "" |} :: rest)
  end.

(** [generatePaymentSchedule({ id, amount, interestRate, term, startDate })].
    With a start date that [new Date] cannot read, [toISOString] throws a
    RangeError in the first period. *)
Definition generatePaymentSchedule (id : string) (amount interestRate : number)
    (term : Z) (startDate : string) : completion (list Payment.t) :=
  let monthlyPayment := calculateMonthlyPayment amount interestRate term in
  let monthlyRate := div (div interestRate (ofZ 100)) (ofZ 12) in
  match newDate host startDate with
  | Some startDateObj =>
      scheduleLoop id monthlyPayment monthlyRate startDateObj (Z.to_nat term) 0 amount
  | None => if 0 <? term then Throw RangeError else Return []
  end.

Definition enrichLoan (now : Z) (loan : Loan.t) : Loan.t :=
  let status := determineLoanStatus now loan in
  let riskScore := calculateRiskScore now (Loan.withStatus loan status) in
  Loan.withRiskScore (Loan.withStatus loan status) riskScore.

(** ** The bulk update utilities: matchExistingLoan, updateLoanWithImportData *)

(** [s?.toLowerCase().trim()] *)
Definition normalize (s : string) : string := trim (toLowerCase s).

(** [x?.toLowerCase().trim() === y] for an optional [x] and a non-empty [y]. *)
Definition normalizedIs (x : option string) (y : string) : bool :=
  match x with
  | Some s => String.eqb (normalize s) y
  | None => false
  end.

Definition matchExistingLoan (importLoan : Candidate.t) (existingLoans : list Loan.t)
  : option Loan.t :=
  let importEmail := normalize (Candidate.borrowerEmail importLoan) in
  let importName := normalize (Candidate.borrower importLoan) in
  if String.eqb importEmail "" && String.eqb importName "" then None
  else
    let byEmail :=
      if negb (String.eqb importEmail "") then
        List.find (λ loan,
          String.eqb (normalize (Loan.borrowerEmail loan)) importEmail
          || normalizedIs (Loan.borrowerIdentifier loan) importEmail) existingLoans
      else None in
    match byEmail with
    | Some loan => Some loan
    | None =>
        if negb (String.eqb importName "") then
          List.find (λ loan,
            String.eqb (normalize (Loan.borrower loan)) importName
            || normalizedIs (Loan.borrowerIdentifier loan) importName) existingLoans
        else None
    end.

(** [a || b] on the term, an integer: 0 is falsy. *)
Definition orZ (a b : Z) : Z := if a =? 0 then b else a.

Definition updateLoanWithImportData (now : Z) (existingLoan : Loan.t)
    (importData : Candidate.t) : completion Loan.t :=
  let amount := orNum (Candidate.amount importData) (Loan.amount existingLoan) in
  let interestRate :=
    orNum (Candidate.interestRate importData) (Loan.interestRate existingLoan) in
  let term := orZ (Candidate.term importData) (Loan.term existingLoan) in
  let startDate := orStr (Candidate.startDate importData) (Loan.startDate existingLoan) in
  paymentSchedule ←
    match Loan.paymentSchedule existingLoan with
    | _ :: _ => Return (Loan.paymentSchedule existingLoan)
    | [] => generatePaymentSchedule (Loan.id existingLoan) amount interestRate term startDate
    end;
  let updatedLoan :=
    {| Loan.id := Loan.id existingLoan;
       Loan.borrower := orStr (Candidate.borrower importData) (Loan.borrower existingLoan);
       Loan.amount := amount;
       Loan.interestRate := interestRate;
       Loan.term := term;
       Loan.startDate := startDate;
       Loan.endDate := orStr (Candidate.endDate importData) (Loan.endDate existingLoan);
       Loan.borrowerEmail :=
         orStr (Candidate.borrowerEmail importData) (Loan.borrowerEmail existingLoan);
       Loan.borrowerPhone :=
         orStr (Candidate.borrowerPhone importData) (Loan.borrowerPhone existingLoan);
       Loan.borrowerContact :=
         orStr (Candidate.borrowerContact importData) (Loan.borrowerContact existingLoan);
       Loan.loanOfficer :=
         orStr (Candidate.loanOfficer importData) (Loan.loanOfficer existingLoan);
       Loan.borrowerIdentifier :=
         if negb (String.eqb (normalize (Candidate.borrowerEmail importData)) "")
         then Some (normalize (Candidate.borrowerEmail importData))
         else if negb (String.eqb (normalize (Candidate.borrower importData)) "")
         then Some (normalize (Candidate.borrower importData))
         else Loan.borrowerIdentifier existingLoan;
       Loan.paymentSchedule := paymentSchedule;
       Loan.obligations := Loan.obligations existingLoan;
       Loan.notes := Loan.notes existingLoan;
       Loan.communications := Loan.communications existingLoan;
       Loan.status := orStr (Candidate.status importData) (Loan.status existingLoan);
       (* an array is truthy even when empty *)
       Loan.tags := Candidate.tags importData;
       (* the rest comes from [...existingLoan] *)
       Loan.riskScore := Loan.riskScore existingLoan;
       Loan.managedBy := Loan.managedBy existingLoan;
       Loan.userId := Loan.userId existingLoan;
       Loan.userEmail := Loan.userEmail existingLoan |} in
  mret (enrichLoan now updatedLoan).

(** ** src/utils/fileImport.js: parseCSV *)

Definition columnMapping : list (string * string) :=
  [("borrower", "borrower"); ("borrower name", "borrower"); ("name", "borrower");
   ("customer name", "borrower"); ("client name", "borrower");
   ("applicant name", "borrower"); ("customer", "borrower"); ("client", "borrower");
   ("id", "borrower"); ("customer id", "borrower"); ("client id", "borrower");
   ("amount", "amount"); ("loan amount", "amount"); ("principal", "amount");
   ("principal amount", "amount"); ("loan principal", "amount");
   ("loan value", "amount"); ("funded amount", "amount");
   ("disbursed amount", "amount");
   ("interestrate", "interestrate"); ("interest rate", "interestrate");
   ("apr", "interestrate"); ("rate", "interestrate"); ("annual rate", "interestrate");
   ("interest", "interestrate"); ("int rate", "interestrate");
   ("term", "term"); ("loan term", "term"); ("months", "term"); ("duration", "term");
   ("tenure", "term"); ("loan duration", "term"); ("loan tenure", "term");
   ("period", "term");
   ("startdate", "startdate"); ("start date", "startdate"); ("issue date", "startdate");
   ("disbursement date", "startdate"); ("origination date", "startdate");
   ("loan date", "startdate"); ("opening date", "startdate"); ("date", "startdate");
   ("enddate", "enddate"); ("end date", "enddate"); ("maturity date", "enddate");
   ("due date", "enddate"); ("closing date", "enddate");
   ("borroweremail", "borroweremail"); ("borrower email", "borroweremail");
   ("email", "borroweremail"); ("customer email", "borroweremail");
   ("client email", "borroweremail");
   ("borrowerphone", "borrowerphone"); ("borrower phone", "borrowerphone");
   ("phone", "borrowerphone"); ("customer phone", "borrowerphone");
   ("client phone", "borrowerphone"); ("contact", "borrowerphone");
   ("status", "status"); ("loan status", "status"); ("current status", "status")].

(** A normalized header: a string, or the value every object inherits under
    the header's name, which is not a string. *)
Inductive headerName : Type :=
  | Text (s : string)
  | NotText (key : string).

(** [h.replace(/[_\s-]/g, ' ')] *)
Definition replaceSeparators (h : string) : string :=
  str (map (λ c, if Ascii.eqb c "_" || isWhitespace c || Ascii.eqb c "-"
                 then " "%char else c) (chars h)).

(** [columnMapping[normalized] || normalized] *)
Definition normalizeHeader (h : string) : headerName :=
  let normalized := toLowerCase (trim (replaceSeparators h)) in
  match getProperty columnMapping normalized with
  | Own v => Text (orStr v normalized)
  | Inherited => NotText normalized
  | Undefined => Text normalized
  end.

Definition showHeaderName (h : headerName) : string :=
  match h with
  | Text s => s
  | NotText key => inheritedToString host key
  end.

(** [array.some(f)] with a callback that may throw. *)
Fixpoint someC {A} (f : A → completion bool) (l : list A) : completion bool :=
  match l with
  | [] => Return false
  | x :: rest =>
      match f x with
      | Return true => Return true
      | Return false => someC f rest
      | Throw e => Throw e
      end
  end.

(** A test on a header that calls [h.includes]: a TypeError when the header is
    not a string. *)
Definition onText (f : string → bool) (h : headerName) : completion bool :=
  match h with
  | Text s => Return (f s)
  | NotText _ => Throw TypeError
  end.

Definition yesNo (b : bool) : string := if b then "Yes" else "No".

Definition missingColumnsMessage (headers : list string)
    (normalizedHeaders : list headerName)
    (hasBorrower hasAmount hasInterestRate hasTerm hasStartDate : bool) : string :=
  let missing :=
    (if hasBorrower then [] else ["borrower/name/customer"])
    ++ (if hasAmount then [] else ["amount/principal"])
    ++ (if hasInterestRate then [] else ["interest rate/apr"])
    ++ (if hasTerm then [] else ["term/months/duration"])
    ++ (if hasStartDate then [] else ["start date/issue date"]) in
  "Missing required columns: " +:+ join ", " missing +:+ nl +:+ nl
  +:+ "Found columns in your file:" +:+ nl
  +:+ join nl
        (imap (λ i '(h, n), "  " +:+ pretty (Z.of_nat i + 1) +:+ ". " +:+ dq +:+ h +:+ dq
                            +:+ " (normalized: " +:+ dq +:+ showHeaderName n +:+ dq +:+ ")")
           (zip headers normalizedHeaders))
  +:+ nl +:+ nl
  +:+ "Please ensure your CSV has columns for:" +:+ nl
  +:+ "- Borrower/Name/Customer (found: " +:+ yesNo hasBorrower +:+ ")" +:+ nl
  +:+ "- Amount/Principal (found: " +:+ yesNo hasAmount +:+ ")" +:+ nl
  +:+ "- Interest Rate/APR (found: " +:+ yesNo hasInterestRate +:+ ")" +:+ nl
  +:+ "- Term/Months/Duration (found: " +:+ yesNo hasTerm +:+ ")" +:+ nl
  +:+ "- Start Date/Issue Date (found: " +:+ yesNo hasStartDate +:+ ")".

(** The inner helper parseCSVLine: [values] and [currentValue] are kept in
    reverse. *)
Fixpoint parseCSVLineFrom (s : list ascii) (values : list string)
    (currentValue : list ascii) (insideQuotes : bool) : list string :=
  match s with
  | [] => rev (trim (str (rev currentValue)) :: values)
  | char :: rest =>
      if Ascii.eqb char quote then
        match rest with
        | nextChar :: rest' =>
            if insideQuotes && Ascii.eqb nextChar quote
            then parseCSVLineFrom rest' values (quote :: currentValue) insideQuotes
            else parseCSVLineFrom rest values currentValue (negb insideQuotes)
        | [] => parseCSVLineFrom rest values currentValue (negb insideQuotes)
        end
      else if Ascii.eqb char "," && negb insideQuotes then
        parseCSVLineFrom rest (trim (str (rev currentValue)) :: values) [] insideQuotes
      else parseCSVLineFrom rest values (char :: currentValue) insideQuotes
  end.

Definition parseCSVLine (line : string) : list string :=
  parseCSVLineFrom (chars line) [] [] false.

(** The first element a function accepts, as the early [return] or [break]
    of a [for] loop gives. *)
Fixpoint firstSome {A B} (f : A → option B) (l : list A) : option B :=
  match l with
  | [] => None
  | x :: rest => match f x with Some y => Some y | None => firstSome f rest end
  end.

Definition nonEmpty (v : string) : option string :=
  if String.eqb v "" then None else Some v.

(** The inner helper getValue of a row. *)
Definition getValue (headers values : list string) (loanData : gmap string string)
    (keys : list string) : string :=
  match firstSome (λ key, loanData !! key ≫= nonEmpty) keys with
  | Some v => v
  | None =>
      default ""
        (firstSome (λ key,
           firstSome (λ '(header, value),
             let origHeader := toLowerCase header in
             if includes origHeader (toLowerCase key)
                || includes (toLowerCase key) origHeader
             then nonEmpty value else None)
             (zip headers values)) keys)
  end.

(** ** src/utils/fileImport.js: formatDateString and calculateEndDate *)

Definition today (now : Z) : string := toISODate now.

(** [s.split(/[-\/]/)] *)
Definition splitDateParts (s : string) : list string :=
  splitChars (λ c, Ascii.eqb c "-" || Ascii.eqb c "/") [] (chars s).

Definition formatDateString (now : Z) (dateString : string) : string :=
  if String.eqb dateString "" then today now
  else if isIsoDate dateString then dateString
  else
    match newDate host dateString with
    | Some date => toISODate date
    | None =>
        match splitDateParts dateString with
        | [p0; p1; p2] =>
            if (String.length p2 =? 4)%nat
            then p2 +:+ "-" +:+ padStart 2 "0" p0 +:+ "-" +:+ padStart 2 "0" p1
            else "20" +:+ p2 +:+ "-" +:+ padStart 2 "0" p1 +:+ "-" +:+ padStart 2 "0" p0
        | _ => today now
        end
    end.

(** [end.setMonth(end.getMonth() + termMonths)], then [toISOString], which
    throws a RangeError on an invalid date: one that [new Date] could not
    read, or one that setMonth took out of the range of time values. *)
Definition calculateEndDate (startDate : string) (termMonths : Z) : completion string :=
  match newDate host startDate with
  | Some start =>
      match timeClip (setMonth start (getMonth start + termMonths)) with
      | Some end_ => Return (toISODate end_)
      | None => Throw RangeError
      end
  | None => Throw RangeError
  end.

(** ** src/utils/fileImport.js: the rows of parseCSV *)

(** Pad with empty values or cut to the number of headers. *)
Definition fitValues (n : nat) (values : list string) : list string :=
  take n (values ++ replicate (n - length values) "").

Definition columnCountWarning (i : Z) (values : list string) (n : nat) : list string :=
  if (length values <? n)%nat then
    ["Row " +:+ pretty (i + 1) +:+ " has " +:+ pretty (Z.of_nat (length values))
     +:+ " columns but expected " +:+ pretty (Z.of_nat n)
     +:+ ", padding with empty values"]
  else if (n <? length values)%nat then
    ["Row " +:+ pretty (i + 1) +:+ " has " +:+ pretty (Z.of_nat (length values))
     +:+ " columns but expected " +:+ pretty (Z.of_nat n)
     +:+ ", using first " +:+ pretty (Z.of_nat n) +:+ " columns"]
  else [].

(** [loanData], filled header by header: the normalized name, then the
    original one. *)
Definition rowData (headers : list string) (normalizedHeaders : list headerName)
    (values : list string) : gmap string string :=
  fold_left (λ loanData '(header, normalizedHeader, value),
               <[header := value]> (<[showHeaderName normalizedHeader := value]> loanData))
    (zip (zip headers normalizedHeaders) values) ∅.

(** The fields a row yields, before validation. *)
Record Extracted : Type := {
  x_borrower : string;
  x_amount : number;
  x_interestRate : number;
  x_term : option Z;
  x_startDate : string;
  x_endDate : string;
  x_borrowerEmail : string;
  x_borrowerPhone : string;
  x_loanOfficer : string;
  x_status : string
}.

(** The start date a row names, lines 279-290: the value of a start date
    column, or else the first cell that looks like a date; empty when the row
    names none. *)
Definition startDateCell (headers values : list string)
    (loanData : gmap string string) : string :=
  let startDate :=
    getValue headers values loanData
      ["startdate"; "start"; "date"; "issue"; "disbursement"; "origination"] in
  if String.eqb startDate "" then
    default startDate
      (firstSome (λ value,
         let val := trim value in
         if (negb (String.eqb val "") && startsWithIsoDate val)
            || startsWithSlashDate val || startsWithDashDate val
         then Some val else None) values)
  else startDate.

Definition extractRow (now : Z) (headers values : list string)
    (loanData : gmap string string) : Extracted :=
  let getValue := getValue headers values loanData in
  let borrower := getValue ["borrower"; "name"; "customer"; "client"; "id"] in
  let borrower :=
    if String.eqb borrower "" then
      default borrower
        (firstSome (λ value,
           let val := trim value in
           if negb (String.eqb val "") && isNaN (stringToNumber val)
              && (0 <? String.length val)%nat
              && negb (isAllDigits val) && negb (startsWithIsoDate val)
           then Some val else None) values)
    else borrower in
  let amountText := getValue ["amount"; "principal"; "loan"] in
  let amount := if String.eqb amountText "" then ofZ 0 else parseFloat amountText in
  let amount :=
    if negb (truthy amount) || isNaN amount then
      default amount
        (firstSome (λ value,
           let val := parseFloat value in
           if negb (isNaN val) && gt val (ofZ 1000) then Some val else None) values)
    else amount in
  let rateText := getValue ["interestrate"; "interest"; "rate"; "apr"] in
  let interestRate := if String.eqb rateText "" then ofZ 0 else parseFloat rateText in
  let interestRate :=
    if negb (truthy interestRate) || isNaN interestRate then
      default interestRate
        (firstSome (λ value,
           let val := parseFloat value in
           if negb (isNaN val) && gt val (ofZ 0) && lt val (ofZ 100)
           then Some val else None) values)
    else interestRate in
  let termText := getValue ["term"; "months"; "duration"; "tenure"; "period"] in
  let term := if String.eqb termText "" then Some 0 else parseInt termText in
  let term :=
    match term with
    | Some (Zpos _ as t) | Some (Zneg _ as t) => Some t
    | _ =>
        match firstSome (λ value,
                match parseInt value with
                | Some val => if (0 <? val) && (val <? 600) then Some val else None
                | None => None
                end) values with
        | Some val => Some val
        | None => term
        end
    end in
  let startDate := startDateCell headers values loanData in
  let startDate := if String.eqb startDate "" then today now else startDate in
  {| x_borrower := borrower;
     x_amount := amount;
     x_interestRate := interestRate;
     x_term := term;
     x_startDate := startDate;
     x_endDate :=
       getValue ["enddate"; "end date"; "maturity date"; "due date"; "closing date"];
     x_borrowerEmail :=
       getValue ["borroweremail"; "borrower email"; "email"; "customer email";
                 "client email"];
     x_borrowerPhone :=
       getValue ["borrowerphone"; "borrower phone"; "phone"; "customer phone";
                 "client phone"; "contact"];
     x_loanOfficer := getValue ["loanofficer"; "loan officer"; "officer"];
     x_status := orStr (getValue ["status"; "loan status"; "current status"]) "on_track" |}.

(** The validation of line 298: true when the row is skipped. *)
Definition missingRequired (x : Extracted) : bool :=
  String.eqb (x_borrower x) ""
  || negb (truthy (x_amount x)) || isNaN (x_amount x)
  || negb (truthy (x_interestRate x)) || isNaN (x_interestRate x)
  || match x_term x with Some t => t =? 0 | None => true end
  || String.eqb (x_startDate x) "".

(** What one data row gives: the warnings it logs, and the candidate, [None]
    when the row is skipped, or the exception it throws. *)
Definition parseRow (now : Z) (headers : list string)
    (normalizedHeaders : list headerName) (i : Z) (line : string)
  : list string * completion (option Candidate.t) :=
  let values := parseCSVLine line in
  let warnings := columnCountWarning i values (length headers) in
  let values := fitValues (length headers) values in
  let loanData := rowData headers normalizedHeaders values in
  let x := extractRow now headers values loanData in
  if missingRequired x then
    (warnings ++ ["Row " +:+ pretty (i + 1) +:+ " is missing required fields, skipping"],
     Return None)
  else
    let id :=
      default ("loan-import-" +:+ pretty now +:+ "-" +:+ pretty i)
        (loanData !! "id" ≫= nonEmpty) in
    let term := default 0 (x_term x) in
    let startDate := formatDateString now (x_startDate x) in
    (warnings,
     endDate ←
       (if String.eqb (x_endDate x) "" then calculateEndDate startDate term
        else Return (formatDateString now (x_endDate x)));
     paymentSchedule ←
       match loanData !! "paymentschedule" ≫= nonEmpty with
       | None =>
           schedule ← generatePaymentSchedule id (x_amount x) (x_interestRate x) term
                        startDate;
           mret (Some schedule)
       | Some _ => mret None
       end;
     mret (Some
       {| Candidate.id := id;
          Candidate.borrower := x_borrower x;
          Candidate.amount := x_amount x;
          Candidate.interestRate := x_interestRate x;
          Candidate.term := term;
          Candidate.startDate := startDate;
          Candidate.endDate := endDate;
          Candidate.status := x_status x;
          Candidate.borrowerEmail := x_borrowerEmail x;
          Candidate.borrowerPhone := x_borrowerPhone x;
          Candidate.borrowerContact := "";
          Candidate.loanOfficer := x_loanOfficer x;
          Candidate.obligations := [];
          Candidate.notes := [];
          Candidate.tags := [];
          Candidate.communications := [];
          Candidate.paymentSchedule := paymentSchedule |})).

(** The loop over the data rows: the candidates pushed so far are [loans];
    an exception ends the loop and leaves the warnings logged before it. *)
Fixpoint parseRows (now : Z) (headers : list string)
    (normalizedHeaders : list headerName) (i : Z) (lines : list string)
    (loans : list Candidate.t) : list string * completion (list Candidate.t) :=
  match lines with
  | [] => ([], Return loans)
  | line :: rest =>
      let '(warnings, outcome) := parseRow now headers normalizedHeaders i line in
      match outcome with
      | Throw e => (warnings, Throw e)
      | Return pushed =>
          let '(warnings', result) :=
            parseRows now headers normalizedHeaders (i + 1) rest
              (loans ++ option_list pushed) in
          (warnings ++ warnings', result)
      end
  end.

(** parseCSV: what it logs with [console.warn], and what it returns or
    throws. *)
Definition parseCSV (now : Z) (csvText : string)
  : list string * completion (list Candidate.t) :=
  let lines := List.filter (λ line, negb (String.eqb (trim line) "")) (split newline csvText) in
  match lines with
  | [] | [_] =>
      ([], Throw (Error "CSV file must have at least a header row and one data row"))
  | headerLine :: dataLines =>
      let headers := map (λ h, toLowerCase (trim h)) (split "," headerLine) in
      let normalizedHeaders := map normalizeHeader headers in
      let check :=
        hasBorrower ← someC (onText (λ h, includes h "borrower" || String.eqb h "name"
                                          || String.eqb h "customer"
                                          || String.eqb h "client")) normalizedHeaders;
        hasAmount ← someC (onText (λ h, includes h "amount" || String.eqb h "principal"))
                      normalizedHeaders;
        hasInterestRate ← someC (onText (λ h, includes h "interest" || includes h "rate"
                                              || String.eqb h "apr")) normalizedHeaders;
        let hasTerm :=
          existsb (λ h, match h with
                        | Text h => String.eqb h "term" || String.eqb h "months"
                                    || String.eqb h "duration" || String.eqb h "tenure"
                        | NotText _ => false
                        end) normalizedHeaders in
        hasStartDate ← someC (onText (λ h, includes h "date" || includes h "start"
                                           || includes h "issue"
                                           || includes h "disbursement"))
                         normalizedHeaders;
        if hasBorrower && hasAmount && hasInterestRate && hasTerm && hasStartDate
        then mret ()
        else Throw (Error (missingColumnsMessage headers normalizedHeaders hasBorrower
                             hasAmount hasInterestRate hasTerm hasStartDate)) in
      match check with
      | Throw e => ([], Throw e)
      | Return _ => parseRows now headers normalizedHeaders 1 dataLines []
      end
  end.

(** ** src/utils/fileImport.js: importLoansFromFile, the append-only import *)

Record ImportResult : Type := {
  imported : nat;
  total : nat;
  skipped : nat
}.

(** The composite key of lines 711 and 718. *)
Definition loanKey (l : Loan.t) : string :=
  orStr (normalize (Loan.borrower l)) "" +:+ "_"
  +:+ numberToString host (Loan.amount l) +:+ "_" +:+ Loan.startDate l.

(** The object a parser returns, read as a loan; the properties it does not
    have are set by the caller before they are read. *)
Definition candidateLoan (c : Candidate.t) (paymentSchedule : list Payment.t) : Loan.t :=
  {| Loan.id := Candidate.id c;
     Loan.borrower := Candidate.borrower c;
     Loan.amount := Candidate.amount c;
     Loan.interestRate := Candidate.interestRate c;
     Loan.term := Candidate.term c;
     Loan.startDate := Candidate.startDate c;
     Loan.endDate := Candidate.endDate c;
     Loan.status := Candidate.status c;
     Loan.paymentSchedule := paymentSchedule;
     Loan.obligations := Candidate.obligations c;
     Loan.notes := Candidate.notes c;
     Loan.communications := Candidate.communications c;
     Loan.riskScore := NaN;
     Loan.tags := Candidate.tags c;
     Loan.borrowerContact := Candidate.borrowerContact c;
     Loan.borrowerEmail := Candidate.borrowerEmail c;
     Loan.borrowerPhone := Candidate.borrowerPhone c;
     Loan.loanOfficer := Candidate.loanOfficer c;
     Loan.managedBy := None;
     Loan.userId := None;
     Loan.userEmail := None;
     Loan.borrowerIdentifier := None |}.

(** [x.borrowerEmail?.toLowerCase().trim() || x.borrower?.toLowerCase().trim() || null] *)
Definition borrowerIdentifierOf (borrowerEmail borrower : string) : option string :=
  if negb (String.eqb (normalize borrowerEmail) "") then Some (normalize borrowerEmail)
  else if negb (String.eqb (normalize borrower) "") then Some (normalize borrower)
  else None.

(** Lines 679-689, for one loan: enrichLoan reads the payment schedule and
    throws a TypeError when the candidate has none. *)
Definition enrichImported (now : Z) (userIdentifier : string) (c : Candidate.t)
  : completion Loan.t :=
  match Candidate.paymentSchedule c with
  | None => Throw TypeError
  | Some schedule =>
      let enriched := enrichLoan now (candidateLoan c schedule) in
      Return
        {| Loan.id := Loan.id enriched;
           Loan.borrower := Loan.borrower enriched;
           Loan.amount := Loan.amount enriched;
           Loan.interestRate := Loan.interestRate enriched;
           Loan.term := Loan.term enriched;
           Loan.startDate := Loan.startDate enriched;
           Loan.endDate := Loan.endDate enriched;
           Loan.status := Loan.status enriched;
           Loan.paymentSchedule := Loan.paymentSchedule enriched;
           Loan.obligations := Loan.obligations enriched;
           Loan.notes := Loan.notes enriched;
           Loan.communications := Loan.communications enriched;
           Loan.riskScore := Loan.riskScore enriched;
           Loan.tags := Loan.tags enriched;
           Loan.borrowerContact := Loan.borrowerContact enriched;
           Loan.borrowerEmail := Loan.borrowerEmail enriched;
           Loan.borrowerPhone := Loan.borrowerPhone enriched;
           Loan.loanOfficer := Loan.loanOfficer enriched;
           Loan.managedBy := Some userIdentifier;
           Loan.userId := Some userIdentifier;
           Loan.userEmail := Some userIdentifier;
           Loan.borrowerIdentifier :=
             borrowerIdentifierOf (Loan.borrowerEmail enriched) (Loan.borrower enriched) |}
  end.

(** [array.map(f)] with a callback that may throw. *)
Fixpoint mapC {A B} (f : A → completion B) (l : list A) : completion (list B) :=
  match l with
  | [] => Return []
  | x :: rest =>
      match f x with
      | Throw e => Throw e
      | Return y =>
          match mapC f rest with
          | Throw e => Throw e
          | Return ys => Return (y :: ys)
          end
      end
  end.

(** The filter of lines 716-735.  [existingIds] is fixed; [existingLoanKeys]
    grows with every loan that is kept. *)
Fixpoint filterNewLoans (existingIds existingLoanKeys : gset string)
    (enrichedLoans : list Loan.t) : list Loan.t :=
  match enrichedLoans with
  | [] => []
  | l :: rest =>
      let isDuplicateId := bool_decide (Loan.id l ∈ existingIds) in
      let isDuplicateLoan := bool_decide (loanKey l ∈ existingLoanKeys) in
      if isDuplicateId || isDuplicateLoan
      then filterNewLoans existingIds existingLoanKeys rest
      else l :: filterNewLoans existingIds ({[loanKey l]} ∪ existingLoanKeys) rest
  end.

(** ** src/utils/loanHelpers.js: filterLoans *)

Definition matchesFilters (filters : FilterState.t) (loan : Loan.t) : bool :=
  if (0 <? length (FilterState.status filters))%nat
     && negb (existsb (String.eqb (Loan.status loan)) (FilterState.status filters))
  then false
  else if (0 <? length (FilterState.borrowers filters))%nat
          && negb (existsb (String.eqb (Loan.borrower loan))
                     (FilterState.borrowers filters))
  then false
  else if match FilterState.minAmount filters with
          | Some m => lt (Loan.amount loan) m
          | None => false
          end
  then false
  else if match FilterState.maxAmount filters with
          | Some m => gt (Loan.amount loan) m
          | None => false
          end
  then false
  else if negb (String.eqb (FilterState.startDateFrom filters) "")
          && String.ltb (Loan.startDate loan) (FilterState.startDateFrom filters)
  then false
  else if negb (String.eqb (FilterState.startDateTo filters) "")
          && String.ltb (FilterState.startDateTo filters) (Loan.startDate loan)
  then false
  else if negb (String.eqb (FilterState.searchQuery filters) "") then
    let query := toLowerCase (FilterState.searchQuery filters) in
    includes (toLowerCase (Loan.borrower loan)) query
    || includes (toLowerCase (Loan.id loan)) query
    || (negb (String.eqb (Loan.borrowerEmail loan) "")
        && includes (toLowerCase (Loan.borrowerEmail loan)) query)
    || existsb (λ tag, includes (toLowerCase tag) query) (Loan.tags loan)
  else true.

Definition filterLoans (loans : list Loan.t) (filters : FilterState.t) : list Loan.t :=
  List.filter (matchesFilters filters) loans.

(** ** src/store/useLoanStore.js *)

(** [loan.managedBy === currentUserId] for a user identifier that is set. *)
Definition isManagedBy (userId : string) (loan : Loan.t) : bool :=
  match Loan.managedBy loan with
  | Some m => String.eqb m userId
  | None => false
  end.

Definition getFilteredLoans (s : Store.t) : list Loan.t :=
  let managedLoans :=
    match Store.currentUserId s with
    | Some userId =>
        if String.eqb userId "" then [] else List.filter (isManagedBy userId) (Store.loans s)
    | None => []
    end in
  filterLoans managedLoans (Store.filters s).

(** The communication handed to addCommunication: it has no id and no date. *)
Definition addCommunication (now : Z) (loanId : string) (communication : Communication.t)
    (s : Store.t) : Store.t :=
  Store.withLoans s
    (map (λ loan,
       if String.eqb (Loan.id loan) loanId then
         Loan.withCommunications loan
           (Loan.communications loan ++
              [{| Communication.id :=
                    orStr (Communication.id communication)
                      ("comm-" +:+ loanId +:+ "-" +:+ pretty now);
                  Communication.date :=
                    orStr (Communication.date communication) (toISOString now);
                  Communication.type := Communication.type communication;
                  Communication.direction := Communication.direction communication;
                  Communication.subject := Communication.subject communication;
                  Communication.content := Communication.content communication;
                  Communication.author := Communication.author communication;
                  Communication.recipient := Communication.recipient communication;
                  Communication.status := Communication.status communication;
                  Communication.automated := Communication.automated communication;
                  Communication.relatedPaymentId :=
                    Communication.relatedPaymentId communication;
                  Communication.relatedObligationId :=
                    Communication.relatedObligationId communication |}])
       else loan)
       (Store.loans s)).

(** The [data] argument of sendEmailNotification. *)
Record EmailData : Type := {
  e_amount : option number;
  e_title : string;
  e_dueDate : string;
  e_paymentId : option string;
  e_obligationId : option string
}.

(** [data.amount ? yes(data.amount) : no] *)
Definition withAmount (data : EmailData) (yes : number → string) (no : string) : string :=
  match e_amount data with
  | Some a => if truthy a then yes a else no
  | None => no
  end.

Definition sendEmailNotification (now : Z) (loanId type : string) (data : EmailData)
    (s : Store.t) : Store.t :=
  match List.find (λ l, String.eqb (Loan.id l) loanId) (Store.loans s) with
  | None => s
  | Some loan =>
      if String.eqb (Loan.borrowerEmail loan) "" then s
      else
        let dear := "Dear " +:+ Loan.borrower loan +:+ "," +:+ nl +:+ nl in
        let thanks := nl +:+ nl +:+ "Thank you." in
        let '(subject, content) :=
          if String.eqb type "payment_reminder" then
            ("Payment Reminder: "
               +:+ withAmount data (λ a, "$" +:+ toLocaleString host a) "Upcoming Payment",
             dear +:+ "This is a reminder that your payment of "
               +:+ withAmount data (intlCurrency host) "the scheduled amount"
               +:+ " is due on " +:+ e_dueDate data +:+ "." +:+ nl +:+ nl
               +:+ "Please ensure payment is made on time to avoid any late fees."
               +:+ thanks)
          else if String.eqb type "payment_overdue" then
            ("Overdue Payment Notice",
             dear +:+ "Your payment of "
               +:+ withAmount data (intlCurrency host) "the scheduled amount"
               +:+ " was due on " +:+ e_dueDate data +:+ " and is now overdue."
               +:+ nl +:+ nl +:+ "Please contact us immediately to arrange payment."
               +:+ thanks)
          else if String.eqb type "obligation_reminder" then
            ("Obligation Reminder: " +:+ orStr (e_title data) "Upcoming Obligation",
             dear +:+ "This is a reminder that " +:+ orStr (e_title data) "an obligation"
               +:+ " is due on " +:+ e_dueDate data +:+ "." +:+ nl +:+ nl
               +:+ "Please ensure this is completed on time." +:+ thanks)
          else
            ("Loan Update: " +:+ Loan.id loan,
             dear +:+ "This is an update regarding your loan " +:+ Loan.id loan +:+ "."
               +:+ thanks) in
        addCommunication now loanId
          {| Communication.id := "";
             Communication.date := "";
             Communication.type := "email";
             Communication.direction := "outbound";
             Communication.subject := subject;
             Communication.content := content;
             Communication.author := "System";
             Communication.recipient := Loan.borrowerEmail loan;
             Communication.status := "sent";
             Communication.automated := true;
             Communication.relatedPaymentId := e_paymentId data;
             Communication.relatedObligationId := e_obligationId data |}
          s
  end.

(** formatDate of dateHelpers.js: date-fns [format] throws on an Invalid Date. *)
Definition formatDate (dateString formatString : string) : string :=
  if String.eqb dateString "" then "N/A"
  else
    match parseISO host dateString with
    | Some date => format host date formatString
    | None => "Invalid Date"
    end.

(** [Math.ceil((new Date(dateString) - now) / (1000 * 60 * 60 * 24))] *)
Definition daysUntilCeil (now : Z) (dateString : string) : number :=
  match newDate host dateString with
  | Some dueDate => Math_ceil (div (ofZ (dueDate - now)) (ofZ (1000 * 60 * 60 * 24)))
  | None => NaN
  end.

(** The alerts array being filled, and the store the notifications go to. *)
Definition AlertRun : Type := list Alert.t * Store.t.

Definition paymentAlerts (now : Z) (loan : Loan.t) (run : AlertRun) (payment : Payment.t)
  : AlertRun :=
  let '(alerts, s) := run in
  if String.eqb (Payment.status payment) "pending" then
    let daysUntil := daysUntilCeil now (Payment.dueDate payment) in
    if lt daysUntil (ofZ 0) then
      (alerts ++
         [{| Alert.id := "alert-" +:+ Loan.id loan +:+ "-" +:+ Payment.id payment
                         +:+ "-overdue";
             Alert.loanId := Loan.id loan;
             Alert.type := "payment_overdue";
             Alert.severity := "high";
             Alert.title := "Overdue Payment: " +:+ Loan.borrower loan;
             Alert.message :=
               "Payment of " +:+ toLocaleCurrency host (Payment.amount payment)
               +:+ " was due on " +:+ Payment.dueDate payment;
             Alert.date := toISOString now;
             Alert.read := false;
             Alert.actionUrl := "/loans/" +:+ Loan.id loan |}],
       if negb (String.eqb (Loan.borrowerEmail loan) "") then
         sendEmailNotification now (Loan.id loan) "payment_overdue"
           {| e_amount := Some (Payment.amount payment);
              e_title := "";
              e_dueDate := formatDate (Payment.dueDate payment) "MMM dd, yyyy";
              e_paymentId := Some (Payment.id payment);
              e_obligationId := None |} s
       else s)
    else if le daysUntil (ofZ 7) then
      (alerts ++
         [{| Alert.id := "alert-" +:+ Loan.id loan +:+ "-" +:+ Payment.id payment +:+ "-due";
             Alert.loanId := Loan.id loan;
             Alert.type := "payment_due";
             Alert.severity := if le daysUntil (ofZ 3) then "medium" else "low";
             Alert.title := "Payment Due Soon: " +:+ Loan.borrower loan;
             Alert.message :=
               "Payment of " +:+ toLocaleCurrency host (Payment.amount payment)
               +:+ " due in " +:+ numberToString host daysUntil +:+ " day(s)";
             Alert.date := toISOString now;
             Alert.read := false;
             Alert.actionUrl := "/loans/" +:+ Loan.id loan |}],
       if negb (String.eqb (Loan.borrowerEmail loan) "") && strictEq daysUntil (ofZ 7) then
         sendEmailNotification now (Loan.id loan) "payment_reminder"
           {| e_amount := Some (Payment.amount payment);
              e_title := "";
              e_dueDate := formatDate (Payment.dueDate payment) "MMM dd, yyyy";
              e_paymentId := Some (Payment.id payment);
              e_obligationId := None |} s
       else s)
    else run
  else run.

Definition obligationAlerts (now : Z) (loan : Loan.t) (run : AlertRun)
    (obligation : Obligation.t) : AlertRun :=
  let '(alerts, s) := run in
  if negb (Obligation.completed obligation) then
    let daysUntil := daysUntilCeil now (Obligation.dueDate obligation) in
    let notify :=
      sendEmailNotification now (Loan.id loan) "obligation_reminder"
        {| e_amount := None;
           e_title := Obligation.title obligation;
           e_dueDate := formatDate (Obligation.dueDate obligation) "MMM dd, yyyy";
           e_paymentId := None;
           e_obligationId := Some (Obligation.id obligation) |} in
    if lt daysUntil (ofZ 0) then
      (alerts ++
         [{| Alert.id := "alert-" +:+ Loan.id loan +:+ "-" +:+ Obligation.id obligation
                         +:+ "-overdue";
             Alert.loanId := Loan.id loan;
             Alert.type := "obligation_due";
             Alert.severity := "high";
             Alert.title := "Overdue Obligation: " +:+ Loan.borrower loan;
             Alert.message :=
               Obligation.title obligation +:+ " was due on "
               +:+ Obligation.dueDate obligation;
             Alert.date := toISOString now;
             Alert.read := false;
             Alert.actionUrl := "/loans/" +:+ Loan.id loan |}],
       if negb (String.eqb (Loan.borrowerEmail loan) "") then notify s else s)
    else if le daysUntil (ofZ 14) then
      (alerts ++
         [{| Alert.id := "alert-" +:+ Loan.id loan +:+ "-" +:+ Obligation.id obligation
                         +:+ "-due";
             Alert.loanId := Loan.id loan;
             Alert.type := "obligation_due";
             Alert.severity := if le daysUntil (ofZ 7) then "medium" else "low";
             Alert.title := "Obligation Due Soon: " +:+ Loan.borrower loan;
             Alert.message :=
               Obligation.title obligation +:+ " due in "
               +:+ numberToString host daysUntil +:+ " day(s)";
             Alert.date := toISOString now;
             Alert.read := false;
             Alert.actionUrl := "/loans/" +:+ Loan.id loan |}],
       if negb (String.eqb (Loan.borrowerEmail loan) "") && strictEq daysUntil (ofZ 14)
       then notify s else s)
    else run
  else run.

Definition riskAlerts (now : Z) (loan : Loan.t) (run : AlertRun) : AlertRun :=
  let '(alerts, s) := run in
  if gt (Loan.riskScore loan) (ofZ 70) then
    (alerts ++
       [{| Alert.id := "alert-" +:+ Loan.id loan +:+ "-risk";
           Alert.loanId := Loan.id loan;
           Alert.type := "risk_warning";
           Alert.severity := if gt (Loan.riskScore loan) (ofZ 85) then "critical" else "high";
           Alert.title := "High Risk Loan: " +:+ Loan.borrower loan;
           Alert.message :=
             "Loan has a risk score of " +:+ numberToString host (Loan.riskScore loan)
             +:+ ". Review recommended.";
           Alert.date := toISOString now;
           Alert.read := false;
           Alert.actionUrl := "/loans/" +:+ Loan.id loan |}],
     s)
  else run.

(** The body of [managedLoans.forEach]. *)
Definition loanAlerts (now : Z) (run : AlertRun) (loan : Loan.t) : AlertRun :=
  let run := fold_left (paymentAlerts now loan) (Loan.paymentSchedule loan) run in
  let run := fold_left (obligationAlerts now loan) (Loan.obligations loan) run in
  riskAlerts now loan run.

(** [new Map(alerts.map(a => [a.id, a]))]: a later alert replaces an earlier
    one of the same id. *)
Definition alertsById (alerts : list Alert.t) : gmap string Alert.t :=
  fold_left (λ m a, <[Alert.id a := a]> m) alerts ∅.

(** The update of the stored alerts, lines 505-512. *)
Definition mergeAlerts (stored alerts : list Alert.t) : list Alert.t :=
  let existingAlertsMap := alertsById stored in
  map (λ alert,
         match existingAlertsMap !! Alert.id alert with
         | Some existing => Alert.withRead alert (Alert.read existing)
         | None => alert
         end) alerts.

(** generateAlerts: the store it leaves, and the array it returns. *)
Definition generateAlerts (now : Z) (s : Store.t) : Store.t * list Alert.t :=
  let managedLoans := getFilteredLoans s in
  let '(alerts, s) := fold_left (loanAlerts now) managedLoans ([], s) in
  (Store.withAlerts s (mergeAlerts (Store.alerts s) alerts), alerts).

Definition markAlertRead (alertId : string) (s : Store.t) : Store.t :=
  Store.withAlerts s
    (map (λ alert, if String.eqb (Alert.id alert) alertId
                   then Alert.withRead alert true else alert)
       (Store.alerts s)).

Definition markAllAlertsRead (s : Store.t) : Store.t :=
  Store.withAlerts s (map (λ alert, Alert.withRead alert true) (Store.alerts s)).

(** ** src/utils/fileImport.js: importLoansFromFile, from the parsed file on *)

(** importLoansFromFile once the file is parsed: [loans] are the parsed
    candidates, [existingLoans] the loans [JSON.parse] read from the storage
    of the user, and [s] the state of the store.  It returns the summary, the
    loans it writes to the storage, and the store it leaves, with the loans
    set and the alerts regenerated.  JSON holds null for a NaN or an
    infinity: loans read back with null for a number are outside this data
    model, where every number of a loan is a number. *)
Definition importLoansFromFile (now : Z) (userIdentifier : string)
    (loans : list Candidate.t) (existingLoans : list Loan.t) (s : Store.t)
  : completion (ImportResult * list Loan.t * Store.t) :=
  if String.eqb userIdentifier "" then
    Throw (Error "User identifier required to import loans")
  else
    match loans with
    | [] =>
        Throw (Error
          ("No valid loans found in file. Please ensure your file contains:" +:+ nl
           +:+ "- A header row with column names" +:+ nl
           +:+ "- At least one data row with: borrower/name, amount, interest rate, "
           +:+ "term (months), and start date" +:+ nl
           +:+ "- Valid numeric values (amount > 0, interest rate > 0, term > 0)"))
    | _ =>
        enrichedLoans ← mapC (enrichImported now userIdentifier) loans;
        let existingIds : gset string := list_to_set (map Loan.id existingLoans) in
        let existingLoanKeys : gset string := list_to_set (map loanKey existingLoans) in
        let newLoans := filterNewLoans existingIds existingLoanKeys enrichedLoans in
        let updatedLoans := existingLoans ++ newLoans in
        (* localStorage.setItem(storageKey, JSON.stringify(updatedState));
           useLoanStore.setState({ loans: updatedLoans }) *)
        let s := Store.withLoans s updatedLoans in
        (* useLoanStore.getState().generateAlerts() *)
        let s := (generateAlerts now s).1 in
        mret ({| imported := length newLoans;
                 total := length updatedLoans;
                 skipped := length enrichedLoans - length newLoans |},
              updatedLoans, s)
    end.

End Core.

(** ** src/utils/calculations.js: interest, remaining principal, breakdown *)

Definition calculateTotalInterest (principal annualRate : number) (termMonths : Z)
  : number :=
  let monthlyPayment := calculateMonthlyPayment principal annualRate termMonths in
  sub (mul monthlyPayment (ofZ termMonths)) principal.

Definition calculateRemainingPrincipal (principal annualRate : number)
    (termMonths paymentsMade : Z) : number :=
  if termMonths <=? paymentsMade then ofZ 0
  else
    let monthlyRate := div (div annualRate (ofZ 100)) (ofZ 12) in
    let monthlyPayment := calculateMonthlyPayment principal annualRate termMonths in
    let remainingPrincipal :=
      sub (mul principal (pow (add (ofZ 1) monthlyRate) paymentsMade))
        (div (mul monthlyPayment
                (sub (pow (add (ofZ 1) monthlyRate) paymentsMade) (ofZ 1)))
           monthlyRate) in
    Math_max (ofZ 0) remainingPrincipal.

(** The object calculatePaymentBreakdown returns. *)
Record PaymentBreakdown : Type := {
  b_total : number;
  b_principal : number;
  b_interest : number
}.

Definition calculatePaymentBreakdown (principal annualRate : number)
    (termMonths paymentNumber : Z) : PaymentBreakdown :=
  let monthlyRate := div (div annualRate (ofZ 100)) (ofZ 12) in
  let monthlyPayment := calculateMonthlyPayment principal annualRate termMonths in
  let remainingPrincipal :=
    calculateRemainingPrincipal principal annualRate termMonths (paymentNumber - 1) in
  let interestAmount := mul remainingPrincipal monthlyRate in
  let principalAmount := sub monthlyPayment interestAmount in
  {| b_total := monthlyPayment;
     b_principal := principalAmount;
     b_interest := interestAmount |}.
Section DateHelpers.

Variable host : Host.

(** ** src/utils/dateHelpers.js: the other helpers *)

(** date-fns [isFuture(date)]: false on an Invalid Date. *)
Definition isFuture (now : Z) (date : option Z) : bool :=
  match date with
  | Some t => now <? t
  | None => false
  end.

Definition isDateFuture (now : Z) (dateString : string) : bool :=
  if String.eqb dateString "" then false
  else isFuture now (parseISO host dateString).

(** [date.getTime()]: NaN for an Invalid Date. *)
Definition getTime (date : option Z) : number :=
  match date with
  | Some t => ofZ t
  | None => NaN
  end.

(** parseISO does not throw on a string, so the [catch] is not reached. *)
Definition compareDates (dateString1 dateString2 : string) : number :=
  let date1 := parseISO host dateString1 in
  let date2 := parseISO host dateString2 in
  sub (getTime date1) (getTime date2).

Definition todayISO (now : Z) : string := toISODate now.

Definition formatDateShort (dateString : string) : string :=
  formatDate host dateString "MM/dd/yyyy".

Definition formatDateLong (dateString : string) : string :=
  formatDate host dateString "MMMM dd, yyyy".

End DateHelpers.
(** ** src/store/useLoanStore.js: the other actions of the store *)

Module LoanWith.
(** [{ ...loan, obligations }] *)
Definition withObligations (l : Loan.t) (os : list Obligation.t) : Loan.t :=
  Loan.make (Loan.id l) (Loan.borrower l) (Loan.amount l) (Loan.interestRate l)
    (Loan.term l) (Loan.startDate l) (Loan.endDate l) (Loan.status l)
    (Loan.paymentSchedule l) os (Loan.notes l) (Loan.communications l)
    (Loan.riskScore l) (Loan.tags l) (Loan.borrowerContact l) (Loan.borrowerEmail l)
    (Loan.borrowerPhone l) (Loan.loanOfficer l) (Loan.managedBy l) (Loan.userId l)
    (Loan.userEmail l) (Loan.borrowerIdentifier l).

(** [{ ...loan, notes }] *)
Definition withNotes (l : Loan.t) (ns : list Note.t) : Loan.t :=
  Loan.make (Loan.id l) (Loan.borrower l) (Loan.amount l) (Loan.interestRate l)
    (Loan.term l) (Loan.startDate l) (Loan.endDate l) (Loan.status l)
    (Loan.paymentSchedule l) (Loan.obligations l) ns (Loan.communications l)
    (Loan.riskScore l) (Loan.tags l) (Loan.borrowerContact l) (Loan.borrowerEmail l)
    (Loan.borrowerPhone l) (Loan.loanOfficer l) (Loan.managedBy l) (Loan.userId l)
    (Loan.userEmail l) (Loan.borrowerIdentifier l).
End LoanWith.

(** [a === b] on values that are a string or [null] ([None]).  The owner
    fields of a loan are read as [null] when they hold no string: addLoan
    stores the current user there, a string or [null]. *)
Definition sameOwner (a b : option string) : bool := bool_decide (a = b).

(** [value] is truthy: a non-empty string. *)
Definition isSet (value : option string) : bool :=
  match value with
  | Some v => negb (String.eqb v "")
  | None => false
  end.

Section StoreActions.

Variable host : Host.

(** addLoan: the store it leaves and the loan it returns. *)
Definition addLoan (now : Z) (loan : Loan.t) (s : Store.t) : Store.t * Loan.t :=
  let currentUserId := Store.currentUserId s in
  let loanWithTracking :=
    {| Loan.id := Loan.id loan;
       Loan.borrower := Loan.borrower loan;
       Loan.amount := Loan.amount loan;
       Loan.interestRate := Loan.interestRate loan;
       Loan.term := Loan.term loan;
       Loan.startDate := Loan.startDate loan;
       Loan.endDate := Loan.endDate loan;
       Loan.status := Loan.status loan;
       Loan.paymentSchedule := Loan.paymentSchedule loan;
       Loan.obligations := Loan.obligations loan;
       Loan.notes := Loan.notes loan;
       Loan.communications := Loan.communications loan;
       Loan.riskScore := Loan.riskScore loan;
       Loan.tags := Loan.tags loan;
       Loan.borrowerContact := Loan.borrowerContact loan;
       Loan.borrowerEmail := Loan.borrowerEmail loan;
       Loan.borrowerPhone := Loan.borrowerPhone loan;
       Loan.loanOfficer := Loan.loanOfficer loan;
       Loan.managedBy := currentUserId;
       Loan.borrowerIdentifier :=
         borrowerIdentifierOf (Loan.borrowerEmail loan) (Loan.borrower loan);
       Loan.userId := currentUserId;
       Loan.userEmail := currentUserId |} in
  let enrichedLoan := enrichLoan host now loanWithTracking in
  (Store.withLoans s (Store.loans s ++ [enrichedLoan]), enrichedLoan).

Definition deleteLoan (loanId : string) (s : Store.t) : Store.t :=
  let currentUserId := Store.currentUserId s in
  {| Store.loans :=
       List.filter (λ loan,
         if String.eqb (Loan.id loan) loanId
         then negb (sameOwner (Loan.managedBy loan) currentUserId)
         else true) (Store.loans s);
     Store.selectedLoanId :=
       match Store.selectedLoanId s with
       | Some selected => if String.eqb selected loanId then None else Some selected
       | None => None
       end;
     Store.filters := Store.filters s;
     Store.alerts := Store.alerts s;
     Store.currentUserId := Store.currentUserId s |}.

(** getLoan: [None] is [null] or [undefined], no loan. *)
Definition getLoan (loanId : string) (s : Store.t) : option Loan.t :=
  let loan := List.find (λ loan, String.eqb (Loan.id loan) loanId) (Store.loans s) in
  match loan with
  | Some found =>
      if isSet (Store.currentUserId s)
      then if sameOwner (Loan.managedBy found) (Store.currentUserId s)
           then Some found else None
      else loan
  | None => loan
  end.

Definition getSelectedLoan (s : Store.t) : option Loan.t :=
  match Store.selectedLoanId s with
  | Some selectedLoanId =>
      List.find (λ loan, String.eqb (Loan.id loan) selectedLoanId) (Store.loans s)
  | None => None
  end.

Definition setSelectedLoan (loanId : option string) (s : Store.t) : Store.t :=
  Store.make (Store.loans s) (Store.filters s) loanId (Store.alerts s)
    (Store.currentUserId s).

Definition resetFilters (s : Store.t) : Store.t :=
  Store.make (Store.loans s) (FilterState.make [] [] None None "" "" "")
    (Store.selectedLoanId s) (Store.alerts s) (Store.currentUserId s).

Definition getLoans (s : Store.t) : list Loan.t :=
  if isSet (Store.currentUserId s)
  then List.filter (λ loan, sameOwner (Loan.managedBy loan) (Store.currentUserId s))
         (Store.loans s)
  else [].

(** getLoansByBorrower; an argument that is not given is the empty string. *)
Definition getLoansByBorrower (borrowerEmail borrowerName : string) (s : Store.t)
  : list Loan.t :=
  if String.eqb borrowerEmail "" && String.eqb borrowerName "" then []
  else
    let emailMatch := normalize borrowerEmail in
    let nameMatch := normalize borrowerName in
    List.filter (λ loan,
      let loanEmail := normalize (Loan.borrowerEmail loan) in
      let loanName := normalize (Loan.borrower loan) in
      let loanIdentifier := Loan.borrowerIdentifier loan in
      if negb (String.eqb emailMatch "") && String.eqb loanEmail emailMatch then true
      else if negb (String.eqb emailMatch "")
              && bool_decide (loanIdentifier = Some emailMatch) then true
      else if negb (String.eqb nameMatch "") && String.eqb loanName nameMatch then true
      else if negb (String.eqb nameMatch "")
              && bool_decide (loanIdentifier = Some nameMatch) then true
      else false) (Store.loans s).

Definition updatePaymentStatus (now : Z) (loanId paymentId status : string)
    (paidDate : option string) (s : Store.t) : Store.t :=
  let currentUserId := Store.currentUserId s in
  Store.withLoans s
    (map (λ loan,
       if negb (String.eqb (Loan.id loan) loanId)
          || negb (sameOwner (Loan.managedBy loan) currentUserId)
       then loan
       else
         let updatedSchedule :=
           map (λ payment,
                  if String.eqb (Payment.id payment) paymentId
                  then {| Payment.id := Payment.id payment;
                          Payment.dueDate := Payment.dueDate payment;
                          Payment.amount := Payment.amount payment;
                          Payment.status := status;
                          Payment.paidDate := paidDate;
                          Payment.principalAmount := Payment.principalAmount payment;
                          Payment.interestAmount := Payment.interestAmount payment;
                          Payment.notes := Payment.notes payment |}
                  else payment) (Loan.paymentSchedule loan) in
         enrichLoan host now (Loan.withPaymentSchedule loan updatedSchedule))
       (Store.loans s)).

Definition updateObligationStatus (now : Z) (loanId obligationId : string)
    (completed : bool) (completedDate : option string) (s : Store.t) : Store.t :=
  Store.withLoans s
    (map (λ loan,
       if negb (String.eqb (Loan.id loan) loanId) then loan
       else
         let updatedObligations :=
           map (λ obligation,
                  if String.eqb (Obligation.id obligation) obligationId
                  then {| Obligation.id := Obligation.id obligation;
                          Obligation.type := Obligation.type obligation;
                          Obligation.title := Obligation.title obligation;
                          Obligation.dueDate := Obligation.dueDate obligation;
                          Obligation.completed := completed;
                          Obligation.completedDate := completedDate;
                          Obligation.description := Obligation.description obligation;
                          Obligation.notes := Obligation.notes obligation |}
                  else obligation) (Loan.obligations loan) in
         enrichLoan host now (LoanWith.withObligations loan updatedObligations))
       (Store.loans s)).

Definition addNote (loanId : string) (note : Note.t) (s : Store.t) : Store.t :=
  Store.withLoans s
    (map (λ loan,
       if String.eqb (Loan.id loan) loanId
       then LoanWith.withNotes loan (Loan.notes loan ++ [note])
       else loan) (Store.loans s)).

Definition getLoanCommunications (loanId : string) (s : Store.t)
  : list Communication.t :=
  match List.find (λ l, String.eqb (Loan.id l) loanId) (Store.loans s) with
  | Some loan => Loan.communications loan
  | None => []
  end.

End StoreActions.
(** ** src/utils/userData.js *)

(** [userIdentifier.replace(/[@.]/g, '_')] *)
Definition replaceAtAndDot (s : string) : string :=
  str (map (λ c, if Ascii.eqb c "@" || Ascii.eqb c "." then "_"%char else c) (chars s)).

(** A user identifier that is not given is the empty string. *)
Definition getUserStorageKey (userIdentifier : string) : string :=
  if String.eqb userIdentifier "" then "loan-tracker-storage"
  else
    let safeKey := replaceAtAndDot userIdentifier in
    "loan-tracker-storage-" +:+ safeKey.

Definition isUserLoan (loan : Loan.t) (userIdentifier : string) : bool :=
  if String.eqb userIdentifier "" then false
  else if isSet (Loan.managedBy loan)
  then sameOwner (Loan.managedBy loan) (Some userIdentifier)
  else if isSet (Loan.userId loan)
  then sameOwner (Loan.userId loan) (Some userIdentifier)
  else if isSet (Loan.userEmail loan)
  then sameOwner (Loan.userEmail loan) (Some userIdentifier)
  else false.

Definition filterLoansByUser (loans : list Loan.t) (userIdentifier : string)
  : list Loan.t :=
  if String.eqb userIdentifier "" then []
  else List.filter (λ loan, isUserLoan loan userIdentifier) loans.

(** ** The storage adapter of the store (userStorage.js)

    [localStorage] is a map from keys to strings; the adapter is taken for the
    user whose identifier the module holds, [None] for [null]. *)

Definition LocalStorage : Type := gmap string string.

Definition storageKeyOf (currentUserId : option string) : string :=
  match currentUserId with
  | Some userId =>
      if String.eqb userId "" then "loan-tracker-storage" else getUserStorageKey userId
  | None => "loan-tracker-storage"
  end.

(** [name === 'loan-tracker-storage' ? storageKey : name] *)
Definition adapterKey (currentUserId : option string) (name : string) : string :=
  if String.eqb name "loan-tracker-storage" then storageKeyOf currentUserId else name.

Definition getItem (currentUserId : option string) (name : string)
    (localStorage : LocalStorage) : option string :=
  localStorage !! adapterKey currentUserId name.

Definition setItem (currentUserId : option string) (name value : string)
    (localStorage : LocalStorage) : LocalStorage :=
  <[adapterKey currentUserId name := value]> localStorage.

Definition removeItem (currentUserId : option string) (name : string)
    (localStorage : LocalStorage) : LocalStorage :=
  delete (adapterKey currentUserId name) localStorage.

(** ** src/utils/loanHelpers.js: the status and colour tables *)

(** What a lookup with a default gives: a string, or the value every object
    inherits under the key, which is not a string. *)
Inductive looked : Type :=
  | Str (s : string)
  | InheritedValue (key : string).

(** [table[key] || fallback] on a table of non-empty strings. *)
Definition lookupOr (table : list (string * string)) (key : string) (fallback : string)
  : looked :=
  match getProperty table key with
  | Own v => Str (orStr v fallback)
  | Inherited => InheritedValue key
  | Undefined => Str fallback
  end.

Definition getStatusColor (status : string) : looked :=
  lookupOr [("on_track", "green"); ("at_risk", "yellow"); ("overdue", "orange");
            ("paid_off", "blue"); ("defaulted", "red")] status "gray".

Definition getStatusText (status : string) : looked :=
  lookupOr [("on_track", "On Track"); ("at_risk", "At Risk"); ("overdue", "Overdue");
            ("paid_off", "Paid Off"); ("defaulted", "Defaulted")] status status.

Definition getStatusBadgeClasses (status : string) : looked :=
  lookupOr [("on_track", "bg-green-100 text-green-800");
            ("at_risk", "bg-yellow-100 text-yellow-800");
            ("overdue", "bg-orange-100 text-orange-800");
            ("paid_off", "bg-blue-100 text-blue-800");
            ("defaulted", "bg-red-100 text-red-800")] status "bg-gray-100 text-gray-800".

Definition getColorBgClasses (color : string) : looked :=
  lookupOr [("blue", "bg-blue-100"); ("green", "bg-green-100");
            ("yellow", "bg-yellow-100"); ("orange", "bg-orange-100");
            ("red", "bg-red-100")] color "bg-gray-100".

Definition getColorTextClasses (color : string) : looked :=
  lookupOr [("blue", "text-blue-600"); ("green", "text-green-600");
            ("yellow", "text-yellow-600"); ("orange", "text-orange-600");
            ("red", "text-red-600")] color "text-gray-600".
(** ** The bulk update import: importAndUpdateLoansFromFile *)

Module Bulk.
(** An entry of [results.updated] and of [results.created]. *)
Record Detail : Type := {
  borrower : string;
  email : string;
  loanId : string
}.

(** An entry of [results.errors]: the borrower and the exception caught, whose
    message is the engine's. *)
Record Failure : Type := {
  failedBorrower : string;
  error : exn
}.

Record Results : Type := {
  updated : list Detail;
  created : list Detail;
  errors : list Failure
}.

(** The object importAndUpdateLoansFromFile returns. *)
Record Summary : Type := {
  updatedCount : nat;
  createdCount : nat;
  errorCount : nat;
  total : nat;
  details : Results
}.
End Bulk.

(** [array.findIndex(p)]; [None] is -1. *)
Fixpoint findIndex {A} (p : A → bool) (l : list A) : option nat :=
  match l with
  | [] => None
  | x :: rest => if p x then Some 0%nat else S <$> findIndex p rest
  end.

Section BulkUpdate.

Variable host : Host.

(** The string [Math.random().toString(36).substr(2, 9)] gives for the
    candidate at a position of the batch. *)
Variable random : nat → string.

(** The object of the [else] branch, lines 433-454, and its enrichment. *)
Definition createLoan (now : Z) (userIdentifier : string) (position : nat)
    (importLoan : Candidate.t) : completion Loan.t :=
  let id :=
    orStr (Candidate.id importLoan)
      ("loan-" +:+ pretty now +:+ "-" +:+ random position) in
  paymentSchedule ←
    match Candidate.paymentSchedule importLoan with
    | Some schedule => Return schedule
    | None =>
        generatePaymentSchedule host
          (orStr (Candidate.id importLoan) ("loan-" +:+ pretty now))
          (Candidate.amount importLoan) (Candidate.interestRate importLoan)
          (Candidate.term importLoan) (Candidate.startDate importLoan)
    end;
  let newLoan :=
    {| Loan.id := id;
       Loan.borrower := Candidate.borrower importLoan;
       Loan.amount := Candidate.amount importLoan;
       Loan.interestRate := Candidate.interestRate importLoan;
       Loan.term := Candidate.term importLoan;
       Loan.startDate := Candidate.startDate importLoan;
       Loan.endDate := Candidate.endDate importLoan;
       Loan.borrowerEmail := Candidate.borrowerEmail importLoan;
       Loan.borrowerPhone := Candidate.borrowerPhone importLoan;
       Loan.borrowerContact := Candidate.borrowerContact importLoan;
       Loan.loanOfficer := Candidate.loanOfficer importLoan;
       Loan.managedBy := Some userIdentifier;
       Loan.userId := Some userIdentifier;
       Loan.userEmail := Some userIdentifier;
       Loan.borrowerIdentifier :=
         borrowerIdentifierOf (Candidate.borrowerEmail importLoan)
           (Candidate.borrower importLoan);
       Loan.paymentSchedule := paymentSchedule;
       Loan.obligations := Candidate.obligations importLoan;
       Loan.notes := Candidate.notes importLoan;
       Loan.communications := Candidate.communications importLoan;
       Loan.tags := Candidate.tags importLoan;
       Loan.status := orStr (Candidate.status importLoan) "on_track";
       (* a candidate has no risk score *)
       Loan.riskScore := ofZ 50 |} in
  mret (enrichLoan host now newLoan).

Definition detailOf (loan : Loan.t) : Bulk.Detail :=
  {| Bulk.borrower := Loan.borrower loan;
     Bulk.email := Loan.borrowerEmail loan;
     Bulk.loanId := Loan.id loan |}.

(** The body of the loop over the imported loans: the exception of a
    candidate is caught and recorded.  The import data handed to
    updateLoanWithImportData also carries the identifier and the owner fields
    of the existing loan, none of which updateLoanWithImportData reads. *)
Definition processImport (now : Z) (userIdentifier : string)
    (state : list Loan.t * Bulk.Results) (item : nat * Candidate.t)
  : list Loan.t * Bulk.Results :=
  let '(existingLoans, results) := state in
  let '(position, importLoan) := item in
  let failed (e : exn) :=
    (existingLoans,
     {| Bulk.updated := Bulk.updated results;
        Bulk.created := Bulk.created results;
        Bulk.errors :=
          Bulk.errors results
          ++ [{| Bulk.failedBorrower := orStr (Candidate.borrower importLoan) "Unknown";
                 Bulk.error := e |}] |}) in
  match matchExistingLoan importLoan existingLoans with
  | Some existingLoan =>
      match updateLoanWithImportData host now existingLoan importLoan with
      | Return updatedLoan =>
          match findIndex (λ l, String.eqb (Loan.id l) (Loan.id existingLoan))
                  existingLoans with
          | Some index =>
              (<[index := updatedLoan]> existingLoans,
               {| Bulk.updated := Bulk.updated results ++ [detailOf updatedLoan];
                  Bulk.created := Bulk.created results;
                  Bulk.errors := Bulk.errors results |})
          | None => state
          end
      | Throw e => failed e
      end
  | None =>
      match createLoan now userIdentifier position importLoan with
      | Return enrichedLoan =>
          (existingLoans ++ [enrichedLoan],
           {| Bulk.updated := Bulk.updated results;
              Bulk.created := Bulk.created results ++ [detailOf enrichedLoan];
              Bulk.errors := Bulk.errors results |})
      | Throw e => failed e
      end
  end.

(** importAndUpdateLoansFromFile once the file is parsed: [importedLoans] are
    the parsed candidates, [existingLoans] the loans [JSON.parse] read from
    the storage of the user, and [s] the state of the store.  It returns the
    summary, the loans it writes to the storage, and the store it leaves, with
    the loans set and the alerts regenerated.  As for the append-only import,
    loans read back with null for a number are outside the data model. *)
Definition importAndUpdateLoansFromFile (now : Z) (userIdentifier : string)
    (importedLoans : list Candidate.t) (existingLoans : list Loan.t) (s : Store.t)
  : completion (Bulk.Summary * list Loan.t * Store.t) :=
  if String.eqb userIdentifier "" then
    Throw (Error "User identifier required to import loans")
  else
    match importedLoans with
    | [] => Throw (Error "No valid loans found in file")
    | _ =>
        let '(existingLoans, results) :=
          fold_left (processImport now userIdentifier)
            (zip (seq 0 (length importedLoans)) importedLoans)
            (existingLoans, {| Bulk.updated := []; Bulk.created := [];
                               Bulk.errors := [] |}) in
        (* localStorage.setItem(storageKey, JSON.stringify(updatedState));
           useLoanStore.setState({ loans: existingLoans }) *)
        let s := Store.withLoans s existingLoans in
        (* useLoanStore.getState().generateAlerts() *)
        let s := (generateAlerts host now s).1 in
        Return ({| Bulk.updatedCount := length (Bulk.updated results);
                   Bulk.createdCount := length (Bulk.created results);
                   Bulk.errorCount := length (Bulk.errors results);
                   Bulk.total := length existingLoans;
                   Bulk.details := results |},
                existingLoans, s)
    end.

End BulkUpdate.
(** ** The amortization arithmetic on IEEE 754 doubles

    calculateMonthlyPayment and generatePaymentSchedule once more, with
    JavaScript numbers as binary64 floating-point numbers: the operations of
    SpecFloat at precision 53 and maximal exponent 1024, each rounding to the
    nearest double, ties to even.  The dates are those of the model above. *)

Module Binary64.

Definition float : Type := SpecFloat.spec_float.

Definition add : float → float → float := SpecFloat.SFadd 53 1024.
Definition sub : float → float → float := SpecFloat.SFsub 53 1024.
Definition mul : float → float → float := SpecFloat.SFmul 53 1024.
Definition div : float → float → float := SpecFloat.SFdiv 53 1024.

(** The double nearest to an integer. *)
Definition ofZ (z : Z) : float := SpecFloat.binary_normalize 53 1024 z 0 false.

(** [a === b] on numbers: NaN equals nothing, the two zeros are equal. *)
Definition strictEq : float → float → bool := SpecFloat.SFeqb.

(** Truthiness of a number: false for the zeros and NaN. *)
Definition truthy (a : float) : bool :=
  match a with
  | SpecFloat.S754_zero _ | SpecFloat.S754_nan => false
  | _ => true
  end.

(** [a || b] *)
Definition orNum (a b : float) : float := if truthy a then a else b.

(** The rational a finite double stands for; [None] for an infinity or NaN. *)
Definition toQ (a : float) : option Q :=
  match a with
  | SpecFloat.S754_zero _ => Some 0%Q
  | SpecFloat.S754_finite s m e =>
      let magnitude :=
        if 0 <=? e then inject_Z (Z.pos m * 2 ^ e)
        else (Z.pos m # Z.to_pos (2 ^ (- e)))%Q in
      Some (if s then (- magnitude)%Q else magnitude)
  | _ => None
  end.

Module Payment.
Record t : Type := make {
  id : string;
  dueDate : string;
  amount : float;
  status : string;
  paidDate : option string;
  principalAmount : float;
  interestAmount : float;
  notes : string
}.
End Payment.

Section Amortization.

Variable host : Host.

(** [Math.pow(base, exponent)]: the language leaves its accuracy to the
    implementation. *)
Variable Math_pow : float → float → float.

(** src/utils/calculations.js, lines 11-21. *)
Definition calculateMonthlyPayment (principal annualRate : float) (termMonths : Z)
  : float :=
  if (termMonths =? 0) || strictEq annualRate (ofZ 0) then
    orNum (div principal (ofZ termMonths)) (ofZ 0)
  else
    let monthlyRate := div (div annualRate (ofZ 100)) (ofZ 12) in
    let numerator :=
      mul (mul principal monthlyRate)
        (Math_pow (add (ofZ 1) monthlyRate) (ofZ termMonths)) in
    let denominator :=
      sub (Math_pow (add (ofZ 1) monthlyRate) (ofZ termMonths)) (ofZ 1) in
    div numerator denominator.

(** The loop of generatePaymentSchedule, run for [n] more periods from
    period [i]. *)
Fixpoint scheduleLoop (loanId : string) (monthlyPayment monthlyRate : float)
    (startDateObj : Z) (n : nat) (i : Z) (remainingPrincipal : float)
  : completion (list Payment.t) :=
  match n with
  | O => Return []
  | S n' =>
      let interestAmount := mul remainingPrincipal monthlyRate in
      let principalAmount := sub monthlyPayment interestAmount in
      let remainingPrincipal := sub remainingPrincipal principalAmount in
      dueDate ← dueDateOf startDateObj i;
      rest ← scheduleLoop loanId monthlyPayment monthlyRate startDateObj n' (i + 1)
                remainingPrincipal;
      mret ({| Payment.id := "payment-" +:+ loanId +:+ "-" +:+ pretty (i + 1);
               Payment.dueDate := dueDate;
               Payment.amount := monthlyPayment;
               Payment.status := "pending";
               Payment.paidDate := None;
               Payment.principalAmount := principalAmount;
               Payment.interestAmount := interestAmount;
               Payment.notes := "" |} :: rest)
  end.

(** src/utils/loanHelpers.js, lines 116-158, for a term that is an integer. *)
Definition generatePaymentSchedule (id : string) (amount interestRate : float)
    (term : Z) (startDate : string) : completion (list Payment.t) :=
  let monthlyPayment := calculateMonthlyPayment amount interestRate term in
  let monthlyRate := div (div interestRate (ofZ 100)) (ofZ 12) in
  match newDate host startDate with
  | Some startDateObj =>
      scheduleLoop id monthlyPayment monthlyRate startDateObj (Z.to_nat term) 0 amount
  | None => if 0 <? term then Throw RangeError else Return []
  end.

End Amortization.

(** *** How close Math.pow is *)

(** The power of a positive double to a non-negative integer, computed
    exactly and rounded once to the nearest double. *)
Definition roundedPower (base : float) (exponent : Z) : float :=
  match base with
  | SpecFloat.S754_finite false m e =>
      SpecFloat.binary_normalize 53 1024 (Z.pos m ^ exponent) (e * exponent) false
  | _ => SpecFloat.S754_nan
  end.

(** The doubles at most [k] steps above or below [a]. *)
Definition neighbours (k : nat) (a : float) : list float :=
  a :: map (λ i, Nat.iter i (SpecFloat.SFsucc 53 1024) a) (seq 1 k)
    ++ map (λ i, Nat.iter i (SpecFloat.SFpred 53 1024) a) (seq 1 k).

(** The sum of the rationals a list of finite doubles stands for. *)
Definition exactSum (l : list float) : option Q :=
  foldr (λ a total, x ← toQ a; y ← total; Some (x + y)%Q) (Some 0%Q) l.

(** *** Notions the proofs about the schedule use *)

(** The payment of the amortization formula for a value [w] of the power. *)
Definition annuity (principal monthlyRate w : float) : float :=
  div (mul (mul principal monthlyRate) w) (sub w (ofZ 1)).

(** The principal portions the loop computes in [n] periods, from the
    remaining principal it starts with. *)
Fixpoint portions (monthlyPayment monthlyRate : float) (n : nat)
    (remainingPrincipal : float) : list float :=
  match n with
  | O => []
  | S n' =>
      let interestAmount := mul remainingPrincipal monthlyRate in
      let principalAmount := sub monthlyPayment interestAmount in
      principalAmount
      :: portions monthlyPayment monthlyRate n' (sub remainingPrincipal principalAmount)
  end.

(** The doubles of a list are finite and their exact sum is less than
    [tolerance] away from [target]. *)
Definition sumsTo (target tolerance : Q) (l : list float) : bool :=
  match exactSum l with
  | Some total =>
      negb (Qle_bool tolerance (total - target))
      && negb (Qle_bool tolerance (target - total))
  | None => false
  end.

(** The integer a double stands for, when it is one. *)
Definition toZ (a : float) : option Z :=
  match a with
  | SpecFloat.S754_zero _ => Some 0
  | SpecFloat.S754_finite s m e =>
      let magnitude :=
        if 0 <=? e then Some (Z.pos m * 2 ^ e)
        else if Z.pos m mod 2 ^ (- e) =? 0 then Some (Z.pos m / 2 ^ (- e)) else None in
      (λ z, if s then - z else z) <$> magnitude
  | _ => None
  end.

End Binary64.
(** ** The status rules as the specification words them (section 4.2)

    Stated on propositions and on instants: a payment is overdue, every
    payment is paid, some pending payment is due within 7 days of now, some
    incomplete obligation was due before now.  The rules are tried in order
    and the first that applies gives the status. *)

Definition isOverdue (p : Payment.t) : Prop := Payment.status p = "overdue".
Definition isPaid (p : Payment.t) : Prop := Payment.status p = "paid".

(** The instant a date string names: none for the empty string and for a
    string that cannot be read as a date. *)
Definition instantOf (host : Host) (dateString : string) : option Z :=
  if String.eqb dateString "" then None else parseISO host dateString.

(** The date string names an instant that satisfies [P]. *)
Definition namesInstant (host : Host) (dateString : string) (P : Z → Prop) : Prop :=
  match instantOf host dateString with
  | Some instant => P instant
  | None => False
  end.

#[global] Instance namesInstant_dec (host : Host) (dateString : string) (P : Z → Prop)
  `{∀ instant, Decision (P instant)} : Decision (namesInstant host dateString P).
Proof. unfold namesInstant. destruct (instantOf host dateString); apply _. Defined.

(** A pending payment due within 7 days of [now]: at [now] or later, and at
    most 7 days later. *)
Definition isDueSoon (host : Host) (now : Z) (p : Payment.t) : Prop :=
  Payment.status p = "pending"
  ∧ namesInstant host (Payment.dueDate p) (λ due, now ≤ due ≤ now + 7 * msPerDay).

(** An incomplete obligation whose due date is strictly before [now]. *)
Definition hasLapsed (host : Host) (now : Z) (o : Obligation.t) : Prop :=
  Obligation.completed o = false
  ∧ namesInstant host (Obligation.dueDate o) (λ due, due < now).

Definition overdueCount (schedule : list Payment.t) : nat :=
  length (filter isOverdue schedule).

Definition statusBySpec (host : Host) (now : Z)
    (schedule : list Payment.t) (obligations : list Obligation.t) : LoanStatus :=
  if decide (3 ≤ overdueCount schedule)%nat then defaulted
  else if decide (Forall isPaid schedule) then paid_off
  else if decide (Exists isOverdue schedule) then overdue
  else if decide (Exists (isDueSoon host now) schedule
                  ∨ Exists (hasLapsed host now) obligations) then at_risk
  else on_track.

(** ** The status rules with the days counted as the code counts them

    The same rules, with the fourth on whole days: a pending payment counts
    when the number of whole days from [now] to its due date, counted towards
    zero, is between 0 and 7, that is when it is due less than a day before
    [now] or less than 8 days after it. *)

Definition isDueInWholeDays (host : Host) (now : Z) (p : Payment.t) : Prop :=
  Payment.status p = "pending"
  ∧ namesInstant host (Payment.dueDate p)
      (λ due, now - msPerDay < due < now + 8 * msPerDay).

Definition statusByWholeDays (host : Host) (now : Z)
    (schedule : list Payment.t) (obligations : list Obligation.t) : LoanStatus :=
  if decide (3 ≤ overdueCount schedule)%nat then defaulted
  else if decide (Forall isPaid schedule) then paid_off
  else if decide (Exists isOverdue schedule) then overdue
  else if decide (Exists (isDueInWholeDays host now) schedule
                  ∨ Exists (hasLapsed host now) obligations) then at_risk
  else on_track.

(** ** The terms of the risk score as the specification words them (section 4.3) *)

(** [30 * (overdueCount / totalPayments)], 0 without payments. *)
Definition paymentHistoryTerm (schedule : list Payment.t) : number :=
  if (0 <? length schedule)%nat then
    mul (div (ofNat (count (λ p, String.eqb (Payment.status p) "overdue") schedule))
           (ofNat (length schedule))) (ofZ 30)
  else ofZ 0.

(** [20 * (incompleteAndPastDueCount / totalObligations)], 0 without obligations. *)
Definition complianceTerm (host : Host) (now : Z) (obligations : list Obligation.t)
  : number :=
  if (0 <? length obligations)%nat then
    mul (div (ofNat (count (λ o, negb (Obligation.completed o)
                                 && isDatePast host now (Obligation.dueDate o))
                       obligations))
           (ofNat (length obligations))) (ofZ 20)
  else ofZ 0.

(** What lines 119-123 add to the score: [(90 - daysToMaturity) / 90 * 20] when
    the days to maturity are below 90, nothing otherwise. *)
Definition maturityTerm (host : Host) (now : Z) (endDate : string) : number :=
  match daysUntil host now endDate with
  | Some d =>
      if lt d (ofZ 90) then mul (div (sub (ofZ 90) d) (ofZ 90)) (ofZ 20) else ofZ 0
  | None => ofZ 0
  end.

Definition statusAdjustment (s : LoanStatus) : number :=
  match s with
  | on_track => ofZ 0
  | at_risk => ofZ 15
  | overdue => ofZ 25
  | defaulted => ofZ 30
  | paid_off => ofZ (-20)
  end.

(** [Math.min(100, Math.max(0, x))] *)
Definition clamp (x : number) : number := Math_min (ofZ 100) (Math_max (ofZ 0) x).

(** A score within the bounds: a finite number between 0 and 100. *)
Definition inBounds (x : number) : Prop :=
  ∃ q : Qc, x = Fin q ∧ (Qc_of_Z 0 ≤ q ≤ Qc_of_Z 100)%Qc.


(** ** Marking alerts read *)

(** The two store actions that set read flags. *)
Inductive ReadAction : Type :=
  | MarkAlertRead (alertId : string)
  | MarkAllAlertsRead.

Definition applyReadAction (s : Store.t) (a : ReadAction) : Store.t :=
  match a with
  | MarkAlertRead alertId => markAlertRead alertId s
  | MarkAllAlertsRead => markAllAlertsRead s
  end.

(** The read flag the previous alert set holds for an identifier; false when
    it has no alert of that identifier. *)
Definition priorRead (stored : list Alert.t) (id : string) : bool :=
  match alertsById stored !! id with
  | Some existing => Alert.read existing
  | None => false
  end.

(** ** The composite key of a candidate *)

(** The key of the loan a candidate becomes: enrichment and the owner fields
    leave borrower, amount and start date as they are. *)
Definition candidateKey (host : Host) (c : Candidate.t) : string :=
  loanKey host (candidateLoan c []).

(** ** The rows of a CSV file *)

(** The fields parseCSV extracts from a data line, before it validates them. *)
Definition rowFields (host : Host) (now : Z) (headers : list string)
    (normalizedHeaders : list headerName) (line : string) : Extracted :=
  let values := fitValues (length headers) (parseCSVLine line) in
  extractRow now headers values (rowData host headers normalizedHeaders values).

(** The data lines with their row numbers, from [i]. *)
Definition numbered (i : Z) (lines : list string) : list (Z * string) :=
  zip (seqZ i (Z.of_nat (length lines))) lines.

(** A value that is missing for the validation: zero or not a number. *)
Definition zeroOrNaN (a : number) : Prop := truthy a = false.

(** A number above zero. *)
Definition aboveZero (a : number) : Prop := gt a (ofZ 0) = true.

(** The start date a data line names: empty when it names none. *)
Definition rowStartDateCell (host : Host) (headers : list string)
    (normalizedHeaders : list headerName) (line : string) : string :=
  let values := fitValues (length headers) (parseCSVLine line) in
  startDateCell headers values (rowData host headers normalizedHeaders values).

(** The cell of a data line under a payment schedule column, when it is not
    empty. *)
Definition rowScheduleCell (host : Host) (headers : list string)
    (normalizedHeaders : list headerName) (line : string) : option string :=
  let values := fitValues (length headers) (parseCSVLine line) in
  rowData host headers normalizedHeaders values !! "paymentschedule" ≫= nonEmpty.

(** The identifier parseCSV generates at [now] for row [i] when the row
    gives none. *)
Definition generatedId (now i : Z) : string :=
  "loan-import-" +:+ pretty now +:+ "-" +:+ pretty i.

(** Two candidates of one row, from two readings of the file: they have one
    composite key, both or neither have a payment schedule, and they have one
    identifier unless the first reading, at [now], generated it. *)
Definition sameRow (host : Host) (now : Z) (c c' : Candidate.t) : Prop :=
  candidateKey host c' = candidateKey host c
  ∧ (Candidate.paymentSchedule c = None ↔ Candidate.paymentSchedule c' = None)
  ∧ (Candidate.id c' = Candidate.id c ∨ ∃ i, Candidate.id c = generatedId now i).

(** ** Notions the proofs use *)

(** A number that is neither an infinity nor NaN. *)
Definition finite (x : number) : Prop := ∃ q : Qc, x = Fin q.

(** Two loans with the same facts: they differ at most in their communications. *)
Definition sameFacts (l l' : Loan.t) : Prop :=
  l' = Loan.withCommunications l (Loan.communications l').

(** Two stores with the same facts: loan by loan, with the same filters and
    the same user. *)
Definition sameStoreFacts (s s' : Store.t) : Prop :=
  Forall2 sameFacts (Store.loans s) (Store.loans s')
  ∧ Store.filters s' = Store.filters s
  ∧ Store.currentUserId s' = Store.currentUserId s.

(** A store to run a step in when only the alerts it pushes matter. *)
Definition blankStore : Store.t :=
  Store.make [] (FilterState.make [] [] None None "" "" "") None [] None.

(** A step of the scan behaves: it appends alerts that do not depend on the
    store and are unread, and it leaves the stored alerts and the facts. *)
Definition wellBehaved {X} (step : AlertRun → X → AlertRun) : Prop :=
  ∀ alerts s x,
    (∀ s', (step (alerts, s) x).1 = alerts ++ (step ([], s') x).1)
    ∧ Forall (λ a, Alert.read a = false) (step ([], s) x).1
    ∧ sameStoreFacts s (step (alerts, s) x).2
    ∧ Store.alerts (step (alerts, s) x).2 = Store.alerts s.

(** The array generateAlerts returns, as a function of the store's facts. *)
Definition freshAlerts (host : Host) (now : Z) (s : Store.t) : list Alert.t :=
  (fold_left (loanAlerts host now) (getFilteredLoans s) ([], blankStore)).1.

(** The fresh alerts with the read flag that [r] gives each identifier. *)
Definition flagged (r : string → bool) (fresh : list Alert.t) : list Alert.t :=
  map (λ a, Alert.withRead a (r (Alert.id a))) fresh.

(** What the append-only import computes once the candidates are enriched. *)
Definition appendNew (host : Host) (ledger enriched : list Loan.t)
  : ImportResult * list Loan.t :=
  let newLoans :=
    filterNewLoans host (list_to_set (map Loan.id ledger))
      (list_to_set (map (loanKey host) ledger)) enriched in
  ({| imported := length newLoans;
      total := length (ledger ++ newLoans);
      skipped := length enriched - length newLoans |},
   ledger ++ newLoans).

(** The warning parseCSV logs for a skipped row. *)
Definition skipWarning (i : Z) : string :=
  "Row " +:+ pretty (i + 1) +:+ " is missing required fields, skipping".

(** The value of a completion that returns; the empty list otherwise. *)
Definition returned {A} (c : completion (list A)) : list A :=
  match c with
  | Return l => l
  | Throw _ => []
  end.

(** What an import returned: the number of loans imported, the loans written
    and the store left; nothing when it threw. *)
Definition importedCount (c : completion (ImportResult * list Loan.t * Store.t))
  : option nat :=
  match c with
  | Return (r, _, _) => Some (imported r)
  | Throw _ => None
  end.

Definition writtenLoans (c : completion (ImportResult * list Loan.t * Store.t))
  : list Loan.t :=
  match c with
  | Return (_, loans, _) => loans
  | Throw _ => []
  end.

Definition storeAfter (s : Store.t) (c : completion (ImportResult * list Loan.t * Store.t))
  : Store.t :=
  match c with
  | Return (_, _, s') => s'
  | Throw _ => s
  end.

(** ** The ledger in the storage

    An import writes the loans with [JSON.stringify] and the next import
    reads them with [JSON.parse].  A finite number is read back as it was
    written; NaN and the infinities are written as null, and a loan read back
    with null for a number is no value of [Loan.t]. *)
Definition keptByJSON (x : number) : bool :=
  match x with
  | Fin _ => true
  | PInf | NInf | NaN => false
  end.

(** Every number of the loan and of its payments is kept by JSON. *)
Definition storable (l : Loan.t) : bool :=
  keptByJSON (Loan.amount l) && keptByJSON (Loan.interestRate l)
  && keptByJSON (Loan.riskScore l)
  && forallb (λ p, keptByJSON (Payment.amount p)
                   && keptByJSON (Payment.principalAmount p)
                   && keptByJSON (Payment.interestAmount p))
       (Loan.paymentSchedule l).

(** [JSON.parse(JSON.stringify(loans))], when it is a list of loans. *)
Definition readBack (loans : list Loan.t) : option (list Loan.t) :=
  if forallb storable loans then Some loans else None.
(** ** Notions the proofs about the store use *)

(** An alert raised for a loan at [now]: it points to the loan, it is dated
    [now] and unread, and its type and severity are one of the pairs
    generateAlerts pushes. *)
Definition raisedFor (now : Z) (loan : Loan.t) (a : Alert.t) : Prop :=
  Alert.loanId a = Loan.id loan
  ∧ Alert.actionUrl a = "/loans/" +:+ Loan.id loan
  ∧ Alert.date a = toISOString now
  ∧ Alert.read a = false
  ∧ (Alert.type a, Alert.severity a)
    ∈ [("payment_overdue", "high"); ("payment_due", "medium"); ("payment_due", "low");
       ("obligation_due", "high"); ("obligation_due", "medium");
       ("obligation_due", "low"); ("risk_warning", "critical");
       ("risk_warning", "high")].

(** A loan that only gained communications, after those it had. *)
Definition grown (l l' : Loan.t) : Prop :=
  ∃ extra, l' = Loan.withCommunications l (Loan.communications l ++ extra).

(** A store whose loans only gained communications; the rest is the same. *)
Definition grownStore (s s' : Store.t) : Prop :=
  Forall2 grown (Store.loans s) (Store.loans s')
  ∧ Store.filters s' = Store.filters s
  ∧ Store.selectedLoanId s' = Store.selectedLoanId s
  ∧ Store.alerts s' = Store.alerts s
  ∧ Store.currentUserId s' = Store.currentUserId s.

(** A step of the scan appends alerts that satisfy [Q] and lets the store
    only grow. *)
Definition pushes {X} (Q : X → Alert.t → Prop) (step : AlertRun → X → AlertRun)
  : Prop :=
  ∀ alerts s x,
    ∃ new, (step (alerts, s) x).1 = alerts ++ new
           ∧ Forall (Q x) new
           ∧ grownStore s (step (alerts, s) x).2.

(** The identifier of an alert on an item of a loan, a payment or an
    obligation: [alert-<loan id>-<item id>-<kind>]. *)
Definition itemAlertId (loan : Loan.t) (itemId kind : string) : string :=
  "alert-" +:+ Loan.id loan +:+ "-" +:+ itemId +:+ "-" +:+ kind.

(** An alert identified by a loan: it points to the loan, and its identifier
    is built from the loan's identifier and either the identifier of one of
    the loan's payments or obligations and the kind, overdue or due, or the
    kind risk alone. *)
Definition identifiedBy (loan : Loan.t) (a : Alert.t) : Prop :=
  Alert.loanId a = Loan.id loan
  ∧ ((∃ payment kind,
        payment ∈ Loan.paymentSchedule loan ∧ kind ∈ ["overdue"; "due"]
        ∧ Alert.id a = itemAlertId loan (Payment.id payment) kind)
     ∨ (∃ obligation kind,
          obligation ∈ Loan.obligations loan ∧ kind ∈ ["overdue"; "due"]
          ∧ Alert.id a = itemAlertId loan (Obligation.id obligation) kind)
     ∨ Alert.id a = "alert-" +:+ Loan.id loan +:+ "-risk").

(** ** Notions the proofs about the parser use *)

(** A field as a CSV writer quotes it: between double quotes, with every
    double quote of the field doubled. *)
Definition csvQuoted (v : string) : string :=
  dq +:+ str (flat_map (λ c, if Ascii.eqb c quote then [quote; quote] else [c])
                (chars v)) +:+ dq.

(** The fields of a candidate, and its payment schedule against the payment
    schedule cell of its row. *)
Definition candidateOfRow (host : Host) (headers : list string) (nh : list headerName)
    (line : string) (c : Candidate.t) : Prop :=
  Candidate.id c ≠ ""
  ∧ Candidate.borrower c ≠ ""
  ∧ truthy (Candidate.amount c) = true
  ∧ truthy (Candidate.interestRate c) = true
  ∧ Candidate.term c ≠ 0
  ∧ Candidate.startDate c ≠ ""
  ∧ Candidate.status c ≠ ""
  ∧ Candidate.obligations c = [] ∧ Candidate.notes c = []
  ∧ Candidate.communications c = [] ∧ Candidate.tags c = []
  ∧ match rowScheduleCell host headers nh line with
    | Some _ => Candidate.paymentSchedule c = None
    | None =>
        ∃ schedule,
          Candidate.paymentSchedule c = Some schedule
          ∧ generatePaymentSchedule host (Candidate.id c) (Candidate.amount c)
              (Candidate.interestRate c) (Candidate.term c) (Candidate.startDate c)
            = Return schedule
          ∧ length schedule = Z.to_nat (Candidate.term c)
    end.

(** ** An example host

    A host that reads dates in the form YYYY-MM-DD only, at midnight UTC, and
    prints integers in decimal.  It serves the examples; the theorems hold for
    every host. *)

Definition daysInMonth (y m : Z) : Z :=
  daysFromCivil (y + m / 12) (m mod 12 + 1) 1 - daysFromCivil y m 1.

Definition readIsoDate (s : string) : option Z :=
  if isIsoDate s then
    let l := chars s in
    let y := digitsValue (take 4 l) in
    let m := digitsValue (take 2 (drop 5 l)) in
    let d := digitsValue (take 2 (drop 8 l)) in
    if (1 <=? m) && (m <=? 12) && (1 <=? d) && (d <=? daysInMonth y m)
    then Some (daysFromCivil y m d * msPerDay)
    else None
  else None.

Definition showNumber (a : number) : string :=
  match a with
  | Fin q =>
      if (Zpos (Qden q) =? 1) then pretty (Qnum q)
      else pretty (Qnum q) +:+ "/" +:+ pretty (Zpos (Qden q))
  | PInf => "Infinity"
  | NInf => "-Infinity"
  | NaN => "NaN"
  end.

Definition exampleHost : Host :=
  {| parseISO := readIsoDate;
     newDate := readIsoDate;
     numberToString := showNumber;
     toLocaleCurrency := λ a, "$" +:+ showNumber a;
     toLocaleString := showNumber;
     intlCurrency := λ a, "$" +:+ showNumber a;
     format := λ t _, toISODate t;
     inheritedToString := λ key, "function " +:+ key +:+ "() { [native code] }" |}.


(** A [Math.pow] for the examples: the exact power, rounded once, for an
    exponent that is a non-negative integer; NaN otherwise. *)
Definition examplePow (base exponent : Binary64.float) : Binary64.float :=
  match Binary64.toZ exponent with
  | Some n => if 0 <=? n then Binary64.roundedPower base n else SpecFloat.S754_nan
  | None => SpecFloat.S754_nan
  end.

(** ** Example data *)

(** 2024-03-31T00:00:00Z *)
Definition exampleNow : Z := 1711843200000.

Definition examplePayment (id dueDate status : string) : Payment.t :=
  {| Payment.id := id; Payment.dueDate := dueDate; Payment.amount := ofZ 1000;
     Payment.status := status; Payment.paidDate := None;
     Payment.principalAmount := ofZ 900; Payment.interestAmount := ofZ 100;
     Payment.notes := "" |}.

Definition exampleObligation (id dueDate : string) (completed : bool) : Obligation.t :=
  {| Obligation.id := id; Obligation.type := "reporting";
     Obligation.title := "Quarterly report"; Obligation.dueDate := dueDate;
     Obligation.completed := completed; Obligation.completedDate := None;
     Obligation.description := ""; Obligation.notes := "" |}.

Definition exampleLoan (id endDate : string) (schedule : list Payment.t)
    (obligations : list Obligation.t) : Loan.t :=
  {| Loan.id := id; Loan.borrower := "Acme Corp"; Loan.amount := ofZ 12000;
     Loan.interestRate := ofZ 6; Loan.term := 12; Loan.startDate := "2023-01-01";
     Loan.endDate := endDate; Loan.status := "on_track";
     Loan.paymentSchedule := schedule; Loan.obligations := obligations;
     Loan.notes := []; Loan.communications := []; Loan.riskScore := ofZ 50;
     Loan.tags := []; Loan.borrowerContact := ""; Loan.borrowerEmail := "a@x.com";
     Loan.borrowerPhone := "555-0100"; Loan.loanOfficer := "";
     Loan.managedBy := Some "owner@bank.com"; Loan.userId := Some "owner@bank.com";
     Loan.userEmail := Some "owner@bank.com"; Loan.borrowerIdentifier := Some "a@x.com" |}.

(** 2024-03-31T12:00:00Z, and a loan whose only payment is pending and due on
    2024-04-08 at midnight: 7 days and 12 hours later. *)
Definition noonNow : Z := 1711886400000.

Definition dueInSevenAndAHalfDays : Loan.t :=
  exampleLoan "loan-8" "2030-01-01" [examplePayment "p1" "2024-04-08" "pending"] [].

(** Three overdue payments, every obligation complete, maturity years away. *)
Definition threeOverdueLoan : Loan.t :=
  exampleLoan "loan-1" "2030-01-01"
    [examplePayment "p1" "2024-01-01" "overdue";
     examplePayment "p2" "2024-02-01" "overdue";
     examplePayment "p3" "2024-03-01" "overdue";
     examplePayment "p4" "2024-05-01" "pending"]
    [exampleObligation "o1" "2024-02-01" true].

(** A loan that matured 90 days before [exampleNow], with one payment still
    pending far ahead and no obligations. *)
Definition maturedLoan : Loan.t :=
  exampleLoan "loan-2" "2024-01-01" [examplePayment "p1" "2030-01-01" "pending"] [].

(** A loan without any payment, with an obligation that has lapsed. *)
Definition emptyScheduleLoan : Loan.t :=
  exampleLoan "loan-3" "2030-01-01" [] [exampleObligation "o1" "2024-02-01" false].

(** An existing loan of the borrower a@x.com with a schedule of two payments,
    and a candidate row for the same email with another phone number and the
    status column set to defaulted. *)
Definition existingLoan : Loan.t :=
  exampleLoan "loan-7" "2030-01-01"
    [examplePayment "payment-loan-7-1" "2029-12-01" "pending";
     examplePayment "payment-loan-7-2" "2030-01-01" "pending"]
    [exampleObligation "o1" "2024-02-01" true].

Definition exampleCandidate : Candidate.t :=
  {| Candidate.id := "loan-import-1711843200000-1";
     Candidate.borrower := "Acme Corp";
     Candidate.amount := ofZ 15000;
     Candidate.interestRate := ofZ 7;
     Candidate.term := 24;
     Candidate.startDate := "2024-03-01";
     Candidate.endDate := "2026-03-01";
     Candidate.status := "defaulted";
     Candidate.borrowerEmail := "A@X.com ";
     Candidate.borrowerPhone := "555-0199";
     Candidate.borrowerContact := "";
     Candidate.loanOfficer := "";
     Candidate.obligations := [];
     Candidate.notes := [];
     Candidate.tags := [];
     Candidate.communications := [];
     Candidate.paymentSchedule := Some [] |}.

(** A ledger with one loan, and a batch of two rows for one borrower, amount
    and start date: the first row carries the identifier of the loan in the
    ledger, the second an identifier of its own. *)
Definition ledgerLoan : Loan.t :=
  exampleLoan "L1" "2030-01-01" [examplePayment "p1" "2029-12-01" "pending"] [].

Definition rowCandidate (id : string) : Candidate.t :=
  {| Candidate.id := id;
     Candidate.borrower := "Alice";
     Candidate.amount := ofZ 7000;
     Candidate.interestRate := ofZ 5;
     Candidate.term := 12;
     Candidate.startDate := "2024-02-01";
     Candidate.endDate := "2025-02-01";
     Candidate.status := "on_track";
     Candidate.borrowerEmail := "";
     Candidate.borrowerPhone := "";
     Candidate.borrowerContact := "";
     Candidate.loanOfficer := "";
     Candidate.obligations := [];
     Candidate.notes := [];
     Candidate.tags := [];
     Candidate.communications := [];
     Candidate.paymentSchedule := Some [examplePayment "p1" "2029-12-01" "pending"] |}.

(** A file of three data rows: a complete one, one without a borrower, and one
    without a start date. *)
Definition exampleCsv : string :=
  "borrower,amount,interestRate,term,startDate" +:+ nl
  +:+ "Alice,5000,5,12,2024-01-15" +:+ nl
  +:+ ",1500,5,12,2024-01-15" +:+ nl
  +:+ "Dave,1500,5,12," +:+ nl.

(** A store of one managed loan whose only payment is due three days after
    [exampleNow]. *)
Definition exampleStore : Store.t :=
  {| Store.loans :=
       [exampleLoan "loan-5" "2030-01-01"
          [examplePayment "payment-loan-5-1" "2024-04-03" "pending"] []];
     Store.filters := FilterState.make [] [] None None "" "" "";
     Store.selectedLoanId := None;
     Store.alerts := [];
     Store.currentUserId := Some "owner@bank.com" |}.

(** * Properties *)

(** ** Arithmetic on numbers *)

Lemma sgn_Eq (q : Qc) : sgn q = Eq ↔ q = 0%Qc.
Proof. unfold sgn. symmetry. apply Qceq_alt. Qed.

Lemma sgn_Gt (q : Qc) : sgn q = Gt ↔ (0 < q)%Qc.
Proof. unfold sgn. symmetry. apply (Qcgt_alt q 0). Qed.

Lemma sgn_Lt (q : Qc) : sgn q = Lt ↔ (q < 0)%Qc.
Proof. unfold sgn. symmetry. apply (Qclt_alt q 0). Qed.

Lemma sgn_of_Z (z : Z) : sgn (Qc_of_Z z) = (z ?= 0)%Z.
Proof.
  unfold sgn, Qccompare, Qcompare. simpl. rewrite Z.mul_1_r. reflexivity.
Qed.

Lemma div_Fin (x y : Qc) : y ≠ 0%Qc → div (Fin x) (Fin y) = Fin (x / y)%Qc.
Proof.
  intros Hy. unfold div. destruct (sgn y) eqn:E; try reflexivity.
  apply sgn_Eq in E. contradiction.
Qed.

Lemma truthy_Fin (q : Qc) : q ≠ 0%Qc → truthy (Fin q) = true.
Proof.
  intros Hq. unfold truthy. destruct (sgn q) eqn:E; try reflexivity.
  apply sgn_Eq in E. contradiction.
Qed.

Lemma Qc_of_Z_neq_0 (z : Z) : z ≠ 0 → Qc_of_Z z ≠ 0%Qc.
Proof.
  intros Hz E. apply sgn_Eq in E. rewrite sgn_of_Z in E.
  apply Z.compare_eq in E. contradiction.
Qed.

Lemma Qc_of_Z_pos (z : Z) : 0 < z → (0 < Qc_of_Z z)%Qc.
Proof.
  intros Hz. apply sgn_Gt. rewrite sgn_of_Z. apply Z.compare_gt_iff. exact Hz.
Qed.

Lemma calculateMonthlyPayment_zero_rate (p : Qc) (n : Z) :
  n ≠ 0 → calculateMonthlyPayment (Fin p) (ofZ 0) n = Fin (p / Qc_of_Z n)%Qc.
Proof.
  intros Hn. unfold calculateMonthlyPayment.
  replace (strictEq (ofZ 0) (ofZ 0)) with true by reflexivity.
  rewrite orb_true_r. unfold ofZ at 1.
  rewrite div_Fin by (apply Qc_of_Z_neq_0; exact Hn).
  unfold orNum, truthy. destruct (sgn (p / Qc_of_Z n)) eqn:E; try reflexivity.
  apply sgn_Eq in E. rewrite E. unfold ofZ. rewrite Z2Qc_inj_0. reflexivity.
Qed.

(** C8 (evaluation of the code): at rate 0 and a positive term [n] the call
    returns [P / n]; with a term of 0 months it returns [principal / 0 || 0],
    which is 0 only for a principal of 0: a positive principal gives Infinity
    and a negative one -Infinity, at every rate.  For the principal 120000 at
    6 percent and 0 months it returns Infinity. *)
Theorem calculateMonthlyPayment_zero_term :
  (∀ (p : Qc) (n : positive),
      calculateMonthlyPayment (Fin p) (ofZ 0) (Zpos n) = Fin (p / Qc_of_Z (Zpos n))%Qc)
  ∧ (∀ (p : Qc) (annualRate : number),
      calculateMonthlyPayment (Fin p) annualRate 0 =
        match sgn p with Eq => ofZ 0 | Gt => PInf | Lt => NInf end)
  ∧ calculateMonthlyPayment (ofZ 120000) (ofZ 6) 0 = PInf.
Proof.
  split; [|split; [|reflexivity]].
  - intros p n. apply calculateMonthlyPayment_zero_rate. discriminate.
  - intros p r. unfold calculateMonthlyPayment.
    change (0 =? 0) with true. cbv beta iota delta [orb].
    unfold div, ofZ at 1. rewrite sgn_of_Z. cbv beta iota delta [Z.compare].
    destruct (sgn p) eqn:E; reflexivity.
Qed.


(** ** Amortization, on doubles *)

Section Amortization.

Variable host : Host.
Variable Math_pow : Binary64.float → Binary64.float → Binary64.float.

Lemma scheduleLoop_structure loanId A mr t n : ∀ i rem,
  (∀ j, i ≤ j < i + Z.of_nat n → ∃ d, dueDateOf t j = Return d) →
  ∃ schedule,
    Binary64.scheduleLoop loanId A mr t n i rem = Return schedule
    ∧ length schedule = n
    ∧ Forall (λ p, Binary64.Payment.amount p = A
                   ∧ Binary64.Payment.principalAmount p
                     = Binary64.sub A (Binary64.Payment.interestAmount p)) schedule
    ∧ map Binary64.Payment.principalAmount schedule = Binary64.portions A mr n rem.
Proof.
  induction n as [|n IH]; intros i rem Hdates.
  - exists []. repeat split. constructor.
  - cbn [Binary64.scheduleLoop Binary64.portions].
    destruct (Hdates i ltac:(lia)) as [d ->]. cbn [mbind completion_bind].
    assert (∀ j, i + 1 ≤ j < i + 1 + Z.of_nat n → ∃ d, dueDateOf t j = Return d)
      as Hrest by (intros j Hj; apply Hdates; lia).
    destruct (IH (i + 1) (Binary64.sub rem (Binary64.sub A (Binary64.mul rem mr)))
                Hrest) as (rest & -> & Hlen & Hall & Hmap).
    cbn [mbind completion_bind mret completion_ret].
    eexists. split; [reflexivity|]. cbn [length map Binary64.Payment.principalAmount].
    split; [f_equal; exact Hlen|]. split; [|f_equal; exact Hmap].
    constructor; [split; reflexivity|exact Hall].
Qed.

Lemma calculateMonthlyPayment_annuity (P r : Binary64.float) (n : Z) :
  n ≠ 0 → Binary64.strictEq r (Binary64.ofZ 0) = false →
  Binary64.calculateMonthlyPayment Math_pow P r n
  = let mr := Binary64.div (Binary64.div r (Binary64.ofZ 100)) (Binary64.ofZ 12) in
    Binary64.annuity P mr
      (Math_pow (Binary64.add (Binary64.ofZ 1) mr) (Binary64.ofZ n)).
Proof.
  intros Hn Hr. unfold Binary64.calculateMonthlyPayment.
  rewrite Hr. apply Z.eqb_neq in Hn. rewrite Hn. reflexivity.
Qed.

Lemma sumsTo_spec (target tolerance : Q) (l : list Binary64.float) :
  Binary64.sumsTo target tolerance l = true →
  ∃ total : Q, Binary64.exactSum l = Some total
               ∧ (target - tolerance < total)%Q ∧ (total < target + tolerance)%Q.
Proof.
  unfold Binary64.sumsTo. destruct (Binary64.exactSum l) as [total|]; [|discriminate].
  rewrite andb_true_iff, !negb_true_iff. intros [H1 H2]. exists total.
  split; [reflexivity|].
  assert (¬ (tolerance <= total - target)%Q) as N1
    by (intros H; apply Qle_bool_iff in H; congruence).
  assert (¬ (tolerance <= target - total)%Q) as N2
    by (intros H; apply Qle_bool_iff in H; congruence).
  apply Qnot_le_lt in N1, N2. split; lra.
Qed.

End Amortization.

(** For every value of the power within 16 steps of the exact power rounded
    once, the portions of the schedule for 120000 at 6 percent over 36 months
    add up to the principal within 0.01. *)
Lemma portions_120000_6_36 :
  let mr := Binary64.div (Binary64.div (Binary64.ofZ 6) (Binary64.ofZ 100))
              (Binary64.ofZ 12) in
  forallb (λ w, Binary64.sumsTo 120000 (1 # 100)
                  (Binary64.portions (Binary64.annuity (Binary64.ofZ 120000) mr w) mr
                     36 (Binary64.ofZ 120000)))
    (Binary64.neighbours 16
       (Binary64.roundedPower (Binary64.add (Binary64.ofZ 1) mr) 36))
  = true.
Proof. vm_compute. reflexivity. Qed.


Lemma dueDateOf_checked (t n : Z) :
  forallb (λ i, match dueDateOf t i with Return _ => true | Throw _ => false end)
    (seqZ 0 n) = true →
  ∀ i, 0 ≤ i < n → ∃ d, dueDateOf t i = Return d.
Proof.
  intros Hall i Hi. rewrite forallb_forall in Hall.
  specialize (Hall i). destruct (dueDateOf t i) as [d|e]; [eauto|].
  discriminate Hall. apply list_elem_of_In, elem_of_seqZ. lia.
Qed.



(** ** Loan status *)

Section Status.

Variable host : Host.

Lemma isDatePast_spec (now : Z) (s : string) :
  isDatePast host now s = true ↔ s ≠ "" ∧ ∃ t, parseISO host s = Some t ∧ t < now.
Proof.
  unfold isDatePast, isPast. destruct (String.eqb_spec s "") as [->|Hs].
  - split; [discriminate|]. intros [H _]. contradiction.
  - destruct (parseISO host s) as [t|].
    + rewrite Z.ltb_lt. split.
      * intros H. split; [exact Hs|]. exists t. auto.
      * intros [_ (t' & [= <-] & H)]. exact H.
    + split; [discriminate|]. intros [_ (t & [=] & _)].
Qed.

Lemma le_ofZ (a b : Z) : le (ofZ a) (ofZ b) = (a <=? b).
Proof.
  unfold le, ofZ, Qccompare, Qcompare. simpl. rewrite !Z.mul_1_r.
  unfold Z.leb. destruct (a ?= b); reflexivity.
Qed.

Lemma lt_ofZ (a b : Z) : lt (ofZ a) (ofZ b) = (a <? b).
Proof.
  unfold lt, ofZ, Qccompare, Qcompare. simpl. rewrite !Z.mul_1_r.
  unfold Z.ltb. destruct (a ?= b); reflexivity.
Qed.

(** A date is within [days] days when the number of full days from now to it,
    truncated towards zero, lies in [0, days]: from less than a day ago to
    less than [days + 1] days ahead. *)
Lemma isWithinDays_spec (now : Z) (s : string) (days : Z) :
  0 ≤ days →
  isWithinDays host now s (ofZ days) = true
  ↔ s ≠ "" ∧ ∃ t, parseISO host s = Some t
                  ∧ - msPerDay < t - now < (days + 1) * msPerDay.
Proof.
  intros Hdays. unfold isWithinDays, daysUntil, differenceInDays.
  destruct (String.eqb_spec s "") as [->|Hs].
  - split; [discriminate|]. intros [H _]. contradiction.
  - destruct (parseISO host s) as [t|].
    + unfold ge. rewrite !le_ofZ, andb_true_iff, !Z.leb_le.
      assert (0 ≤ Z.quot (t - now) msPerDay ≤ days
              ↔ - msPerDay < t - now < (days + 1) * msPerDay) as Hq.
      { unfold msPerDay in *.
        pose proof (Z.quot_rem' (t - now) 86400000) as Hqr.
        destruct (Z_lt_le_dec (t - now) 0) as [Hneg|Hpos].
        - pose proof (Z.rem_bound_pos_neg (t - now) 86400000 ltac:(lia) ltac:(lia)) as Hb.
          lia.
        - pose proof (Z.rem_bound_pos (t - now) 86400000 Hpos ltac:(lia)) as Hb.
          lia. }
      rewrite Hq. split.
      * intros H. split; [exact Hs|]. exists t. auto.
      * intros [_ (t' & [= <-] & H)]. exact H.
    + split; [discriminate|]. intros [_ (t & [=] & _)].
Qed.

End Status.

Section Classifier.

Variable host : Host.

Lemma count_filter {A} (f : A → bool) (P : A → Prop) `{∀ x, Decision (P x)}
    (l : list A) :
  (∀ x, f x = true ↔ P x) → count f l = length (filter P l).
Proof.
  intros Hf. unfold count. induction l as [|x l IH]; [reflexivity|].
  cbn [List.filter]. rewrite filter_cons.
  destruct (f x) eqn:E; destruct (decide (P x)) as [HP|HP]; cbn [length].
  - f_equal. exact IH.
  - apply Hf in E. contradiction.
  - apply Hf in HP. congruence.
  - exact IH.
Qed.

Lemma forallb_Forall {A} (f : A → bool) (P : A → Prop) (l : list A) :
  (∀ x, f x = true ↔ P x) → forallb f l = true ↔ Forall P l.
Proof.
  intros Hf. rewrite forallb_forall, Forall_forall.
  split; intros H x Hx.
  - apply Hf, H, list_elem_of_In, Hx.
  - apply Hf, H, list_elem_of_In, Hx.
Qed.

Lemma existsb_Exists {A} (f : A → bool) (P : A → Prop) (l : list A) :
  (∀ x, f x = true ↔ P x) → existsb f l = true ↔ Exists P l.
Proof.
  intros Hf. rewrite existsb_exists, Exists_exists.
  split; intros (x & Hx & H); exists x; split.
  - apply list_elem_of_In, Hx.
  - apply Hf, H.
  - apply list_elem_of_In, Hx.
  - apply Hf, H.
Qed.

Lemma filter_nonempty_Exists {A} (f : A → bool) (P : A → Prop) (l : list A) :
  (∀ x, f x = true ↔ P x) → (0 <? length (List.filter f l))%nat = true ↔ Exists P l.
Proof.
  intros Hf. rewrite <- (existsb_Exists f P l Hf). rewrite Nat.ltb_lt.
  induction l as [|x l IH]; cbn [List.filter existsb].
  - cbn. split; [lia|discriminate].
  - destruct (f x); cbn [length orb]; [split; [reflexivity|lia]|exact IH].
Qed.

Lemma eqb_iff (a b : string) : String.eqb a b = true ↔ a = b.
Proof. apply String.eqb_eq. Qed.

Lemma namesInstant_iff (s : string) (P : Z → Prop) :
  namesInstant host s P ↔ s ≠ "" ∧ ∃ t, parseISO host s = Some t ∧ P t.
Proof.
  unfold namesInstant, instantOf. destruct (String.eqb_spec s "") as [->|Hs].
  - split; [intros []|]. intros [H _]. contradiction.
  - destruct (parseISO host s) as [t|].
    + split; [intros H; split; [exact Hs|eauto]|].
      intros [_ (t' & [= <-] & H)]. exact H.
    + split; [intros []|]. intros [_ (t & [=] & _)].
Qed.

Lemma isDueInWholeDays_iff now p :
  String.eqb (Payment.status p) "pending"
    && isWithinDays host now (Payment.dueDate p) (ofZ 7) = true
  ↔ isDueInWholeDays host now p.
Proof.
  unfold isDueInWholeDays.
  rewrite andb_true_iff, eqb_iff, (isWithinDays_spec host now _ 7) by lia.
  rewrite namesInstant_iff. unfold msPerDay.
  split; intros [Hp [Hs (t & Ht & Hw)]]; (split; [exact Hp|]); (split; [exact Hs|]);
    exists t; (split; [exact Ht|]); lia.
Qed.

Lemma hasLapsed_iff now o :
  negb (Obligation.completed o) && isDatePast host now (Obligation.dueDate o) = true
  ↔ hasLapsed host now o.
Proof.
  unfold hasLapsed.
  rewrite andb_true_iff, negb_true_iff, (isDatePast_spec host), namesInstant_iff.
  reflexivity.
Qed.

(** The source's tests on booleans agree, rule by rule, with the rules on
    propositions. *)
Lemma determineLoanStatus_classifies (now : Z) (loan : Loan.t) :
  determineLoanStatus host now loan
    = statusName (statusByWholeDays host now (Loan.paymentSchedule loan)
                    (Loan.obligations loan)).
Proof.
  unfold determineLoanStatus, statusByWholeDays, overdueCount.
  rewrite (count_filter _ isOverdue) by (intros p; apply eqb_iff).
  destruct (decide (3 ≤ _)%nat) as [H3|H3].
  { apply Nat.leb_le in H3. rewrite H3. reflexivity. }
  apply Nat.leb_nle in H3. rewrite H3.
  pose proof (forallb_Forall (λ p, String.eqb (Payment.status p) "paid") isPaid
                (Loan.paymentSchedule loan) (λ p, eqb_iff _ _)) as Hall.
  destruct (decide (Forall isPaid _)) as [HF|HF].
  { apply Hall in HF. rewrite HF. reflexivity. }
  destruct (forallb _ _); [exfalso; apply HF, Hall; reflexivity|].
  pose proof (existsb_Exists (λ p, String.eqb (Payment.status p) "overdue")
                isOverdue (Loan.paymentSchedule loan) (λ p, eqb_iff _ _)) as Hex.
  destruct (decide (Exists isOverdue _)) as [HE|HE].
  { apply Hex in HE. rewrite HE. reflexivity. }
  destruct (existsb _ _); [exfalso; apply HE, Hex; reflexivity|].
  pose proof (filter_nonempty_Exists _ (isDueInWholeDays host now)
                (Loan.paymentSchedule loan) (isDueInWholeDays_iff now)) as Hp.
  pose proof (filter_nonempty_Exists _ (hasLapsed host now)
                (Loan.obligations loan) (hasLapsed_iff now)) as Ho.
  destruct (decide (_ ∨ _)) as [HR|HR].
  - assert (((0 <? length (List.filter
               (λ p, String.eqb (Payment.status p) "pending"
                     && isWithinDays host now (Payment.dueDate p) (ofZ 7))
               (Loan.paymentSchedule loan)))%nat
            || (0 <? length (List.filter
               (λ o, negb (Obligation.completed o)
                     && isDatePast host now (Obligation.dueDate o))
               (Loan.obligations loan)))%nat) = true) as ->; [|reflexivity].
    apply orb_true_iff. destruct HR as [HR|HR]; [left; apply Hp|right; apply Ho];
      exact HR.
  - destruct (0 <? length (List.filter _ (Loan.paymentSchedule loan)))%nat eqn:E1.
    { exfalso. apply HR. left. apply Hp. reflexivity. }
    destruct (0 <? length (List.filter _ (Loan.obligations loan)))%nat eqn:E2.
    { exfalso. apply HR. right. apply Ho. reflexivity. }
    reflexivity.
Qed.

(** C1, as amended: determineLoanStatus is the strict-priority classifier of
    section 4.2, for every schedule and every set of obligations: defaulted
    with at least 3 overdue payments; otherwise paid_off when every payment
    is paid; otherwise overdue with an overdue payment; otherwise at_risk with
    a pending payment whose due date is less than a day before now or less
    than 8 days after it (0 to 7 whole days, counted towards zero), or with
    an incomplete obligation whose due date is an instant before now;
    otherwise on_track.  The status depends on nothing else of the loan, so 3
    overdue payments make it defaulted whatever the obligations and the
    maturity. *)
Theorem determineLoanStatus_priority (now : Z) (loan : Loan.t) :
  determineLoanStatus host now loan
    = statusName (statusByWholeDays host now (Loan.paymentSchedule loan)
                    (Loan.obligations loan))
  ∧ ((3 ≤ overdueCount (Loan.paymentSchedule loan))%nat
       → determineLoanStatus host now loan = "defaulted").
Proof.
  split; [apply determineLoanStatus_classifies|].
  intros H3. rewrite determineLoanStatus_classifies. unfold statusByWholeDays.
  destruct (decide (3 ≤ _)%nat); [reflexivity|contradiction].
Qed.

End Classifier.

(** C1, as stated, fails: a pending payment due 7 days and 12 hours after now
    is not due within 7 days of now, so the rules as the specification words
    them give on_track; the code counts 7 whole days and gives at_risk. *)
Lemma determineLoanStatus_whole_days :
  determineLoanStatus exampleHost noonNow dueInSevenAndAHalfDays = "at_risk"
  ∧ statusBySpec exampleHost noonNow (Loan.paymentSchedule dueInSevenAndAHalfDays)
      (Loan.obligations dueInSevenAndAHalfDays)
    = on_track
  ∧ parseISO exampleHost "2024-04-08" = Some (noonNow + 7 * msPerDay + msPerDay / 2).
Proof. vm_compute. repeat split; reflexivity. Qed.

(** ** Risk score *)
Section Risk.

Variable host : Host.

Lemma finite_ofZ z : finite (ofZ z).
Proof. eexists; reflexivity. Qed.

Lemma finite_add x y : finite x → finite y → finite (add x y).
Proof. intros [a ->] [b ->]. eexists; reflexivity. Qed.

Lemma finite_sub x y : finite x → finite y → finite (sub x y).
Proof. intros [a ->] [b ->]. eexists; reflexivity. Qed.

Lemma finite_mul x y : finite x → finite y → finite (mul x y).
Proof. intros [a ->] [b ->]. eexists; reflexivity. Qed.

Lemma finite_div_ofZ x z : finite x → z ≠ 0 → finite (div x (ofZ z)).
Proof.
  intros [a ->] Hz. unfold ofZ. rewrite div_Fin by (apply Qc_of_Z_neq_0; exact Hz).
  eexists; reflexivity.
Qed.

Lemma add_zero x : finite x → add x (ofZ 0) = x.
Proof.
  intros [a ->]. unfold ofZ. rewrite Z2Qc_inj_0. cbn [add]. f_equal. ring.
Qed.

Lemma paymentHistoryTerm_finite schedule : finite (paymentHistoryTerm schedule).
Proof.
  unfold paymentHistoryTerm. destruct (0 <? length schedule)%nat eqn:E.
  - apply finite_mul; [|apply finite_ofZ].
    apply finite_div_ofZ; [apply finite_ofZ|]. apply Nat.ltb_lt in E. lia.
  - apply finite_ofZ.
Qed.

Lemma complianceTerm_finite now obligations :
  finite (complianceTerm host now obligations).
Proof.
  unfold complianceTerm. destruct (0 <? length obligations)%nat eqn:E.
  - apply finite_mul; [|apply finite_ofZ].
    apply finite_div_ofZ; [apply finite_ofZ|]. apply Nat.ltb_lt in E. lia.
  - apply finite_ofZ.
Qed.

Lemma maturityTerm_finite now endDate : finite (maturityTerm host now endDate).
Proof.
  unfold maturityTerm, daysUntil, differenceInDays.
  destruct (String.eqb endDate ""); [apply finite_ofZ|].
  destruct (parseISO host endDate) as [t|]; [|apply finite_ofZ].
  destruct (lt _ _); [|apply finite_ofZ].
  apply finite_mul; [|apply finite_ofZ].
  apply finite_div_ofZ; [|lia]. apply finite_sub; apply finite_ofZ.
Qed.

Lemma getProperty_statusRisk st :
  getProperty statusRisk (statusName st) = Own (statusAdjustment st).
Proof. destruct st; reflexivity. Qed.

Lemma orNum_statusAdjustment st :
  orNum (statusAdjustment st) (ofZ 0) = statusAdjustment st.
Proof. destruct st; reflexivity. Qed.

Lemma statusAdjustment_finite st : finite (statusAdjustment st).
Proof. destruct st; apply finite_ofZ. Qed.

(** The score is the clamped sum of the base 50 and the four terms. *)
Lemma calculateRiskScore_terms now loan st :
  calculateRiskScore host now (Loan.withStatus loan (statusName st))
  = clamp (add (add (add (add (ofZ 50) (paymentHistoryTerm (Loan.paymentSchedule loan)))
                       (complianceTerm host now (Loan.obligations loan)))
                  (maturityTerm host now (Loan.endDate loan)))
             (statusAdjustment st)).
Proof.
  unfold calculateRiskScore.
  cbn [Loan.withStatus Loan.status Loan.paymentSchedule Loan.obligations Loan.endDate].
  rewrite getProperty_statusRisk, orNum_statusAdjustment. unfold clamp.
  do 3 f_equal.
  unfold paymentHistoryTerm, complianceTerm, maturityTerm.
  destruct (0 <? length (Loan.paymentSchedule loan))%nat eqn:E1;
    destruct (0 <? length (Loan.obligations loan))%nat eqn:E2;
    (destruct (daysUntil host now (Loan.endDate loan)) as [d|];
       [destruct (lt d (ofZ 90))|]);
    rewrite ?add_zero; try reflexivity;
    repeat first
      [ apply finite_ofZ
      | apply finite_add
      | apply finite_mul
      | apply finite_div_ofZ; [|apply Nat.ltb_lt in E1, E2 || apply Nat.ltb_lt in E1
                                  || apply Nat.ltb_lt in E2; lia] ].
Qed.

Lemma clamp_inBounds x : finite x → inBounds (clamp x).
Proof.
  intros [q ->]. unfold clamp, inBounds, Math_max, Math_min, ofZ.
  cbn [lt].
  destruct (Qc_of_Z 0 ?= q)%Qc eqn:E0.
  - exists (Qc_of_Z 0). split; [reflexivity|]. split; [apply Qcle_refl|discriminate].
  - apply Qclt_alt in E0. cbn [lt].
    destruct (q ?= Qc_of_Z 100)%Qc eqn:E1.
    + exists (Qc_of_Z 100). split; [reflexivity|]. split; [discriminate|apply Qcle_refl].
    + exists q. apply Qclt_alt in E1.
      split; [reflexivity|]. split; apply Qclt_le_weak; assumption.
    + exists (Qc_of_Z 100). split; [reflexivity|]. split; [discriminate|apply Qcle_refl].
  - exists (Qc_of_Z 0). split; [reflexivity|]. split; [apply Qcle_refl|discriminate].
Qed.

Lemma determineLoanStatus_name now loan :
  ∃ st, determineLoanStatus host now loan = statusName st.
Proof.
  eexists. apply determineLoanStatus_classifies.
Qed.

End Risk.

Lemma determineLoanStatus_priority_witness :
  (3 ≤ overdueCount (Loan.paymentSchedule threeOverdueLoan))%nat
  ∧ determineLoanStatus exampleHost exampleNow threeOverdueLoan = "defaulted".
Proof.
  assert (3 ≤ overdueCount (Loan.paymentSchedule threeOverdueLoan))%nat as H
    by (vm_compute; lia).
  split; [exact H|].
  exact (proj2 (determineLoanStatus_priority exampleHost exampleNow threeOverdueLoan) H).
Defined.

(** C5: for every payment schedule, obligation set, end date and status of
    the five, the score of calculateRiskScore is a number between 0 and 100;
    so is the risk score that enrichLoan stores, for every loan. *)
Theorem calculateRiskScore_bounds (host : Host) (now : Z) (loan : Loan.t) :
  (∀ st : LoanStatus,
      inBounds (calculateRiskScore host now (Loan.withStatus loan (statusName st))))
  ∧ inBounds (Loan.riskScore (enrichLoan host now loan)).
Proof.
  assert (∀ st : LoanStatus,
      inBounds (calculateRiskScore host now (Loan.withStatus loan (statusName st))))
    as H.
  { intros st. rewrite calculateRiskScore_terms. apply clamp_inBounds.
    repeat apply finite_add.
    - apply finite_ofZ.
    - apply paymentHistoryTerm_finite.
    - apply complianceTerm_finite.
    - apply maturityTerm_finite.
    - apply statusAdjustment_finite. }
  split; [exact H|].
  unfold enrichLoan. cbn [Loan.withRiskScore Loan.riskScore].
  destruct (determineLoanStatus_name host now loan) as [st ->]. apply H.
Qed.

(** Outside the five statuses: a status that names a property every object
    inherits makes the score NaN. *)
Remark calculateRiskScore_inherited_status (host : Host) (now : Z) (loan : Loan.t) :
  calculateRiskScore host now (Loan.withStatus loan "constructor") = NaN.
Proof. reflexivity. Qed.

(** For every loan that matured a day ago or more the maturity term is above
    20: nothing clamps the fraction [(90 - daysToMaturity) / 90]. *)
Lemma maturityTerm_matured (host : Host) (now : Z) (endDate : string) (t : Z) :
  endDate ≠ "" → parseISO host endDate = Some t → t - now ≤ - msPerDay →
  lt (ofZ 20) (maturityTerm host now endDate) = true.
Proof.
  intros He Ht Hpast. unfold maturityTerm, daysUntil, differenceInDays.
  destruct (String.eqb_spec endDate ""); [contradiction|]. rewrite Ht.
  set (d := Z.quot (t - now) msPerDay).
  assert (d ≤ -1) as Hd.
  { subst d. unfold msPerDay in *.
    pose proof (Z.quot_rem' (t - now) 86400000) as Hqr.
    pose proof (Z.rem_bound_pos_neg (t - now) 86400000 ltac:(lia) ltac:(lia)) as Hb.
    lia. }
  clearbody d.
  rewrite lt_ofZ. replace (d <? 90) with true by (symmetry; apply Z.ltb_lt; lia).
  unfold ofZ. cbn [sub neg add].
  rewrite div_Fin by (apply Qc_of_Z_neq_0; lia). cbn [mul lt].
  assert (Qc_of_Z 20 < (Qc_of_Z 90 + - Qc_of_Z d) / Qc_of_Z 90 * Qc_of_Z 20)%Qc as H.
  { assert (0 < Qc_of_Z 20)%Qc as H20 by (apply Qc_of_Z_pos; lia).
    assert (0 < / Qc_of_Z 90)%Qc as H90 by (apply Qcinv_pos, Qc_of_Z_pos; lia).
    rewrite <- (Qcmult_1_l (Qc_of_Z 20)) at 1.
    apply Qcmult_lt_mono_pos_r; [exact H20|].
    rewrite <- (Qcmult_inv_r (Qc_of_Z 90)) by (apply Qc_of_Z_neq_0; lia).
    unfold Qcdiv. apply Qcmult_lt_mono_pos_r; [exact H90|].
    rewrite <- Z2Qc_inj_opp, <- Z2Qc_inj_add.
    apply (proj1 (Z2Qc_inj_lt 90 (90 + - d))). lia. }
  rewrite (proj1 (Qclt_alt _ _) H). reflexivity.
Qed.

(** C6 (evaluation of the code): for a loan that matured 90 days ago the
    maturity term is [(90 - (-90)) / 90 * 20 = 40], above the 20 points the
    term is documented to give, and enrichLoan stores the risk score
    [50 + 40 = 90] where a term of at most 20 gives at most 70. *)
Theorem maturityTerm_matured_loan :
  daysUntil exampleHost exampleNow (Loan.endDate maturedLoan) = Some (ofZ (-90))
  ∧ maturityTerm exampleHost exampleNow (Loan.endDate maturedLoan) = ofZ 40
  ∧ Loan.status (enrichLoan exampleHost exampleNow maturedLoan) = "on_track"
  ∧ Loan.riskScore (enrichLoan exampleHost exampleNow maturedLoan) = ofZ 90.
Proof.
  split; [vm_compute; reflexivity|].
  split; [vm_compute; f_equal; apply Qc_is_canon; reflexivity|].
  split; [vm_compute; reflexivity|].
  vm_compute. f_equal. apply Qc_is_canon. reflexivity.
Qed.

(** C10: a loan whose payment schedule is empty is classified paid_off,
    whatever its obligations, and enrichLoan stores that status with the
    score [clamp (50 + compliance + maturity - 20)]. *)
Theorem determineLoanStatus_empty_schedule (host : Host) (now : Z) (loan : Loan.t) :
  Loan.paymentSchedule loan = [] →
  determineLoanStatus host now loan = "paid_off"
  ∧ Loan.status (enrichLoan host now loan) = "paid_off"
  ∧ Loan.riskScore (enrichLoan host now loan)
    = clamp (add (add (add (ofZ 50) (complianceTerm host now (Loan.obligations loan)))
                    (maturityTerm host now (Loan.endDate loan)))
               (ofZ (-20))).
Proof.
  intros Hps.
  assert (determineLoanStatus host now loan = "paid_off") as Hs.
  { unfold determineLoanStatus. rewrite Hps. reflexivity. }
  split; [exact Hs|]. split.
  - unfold enrichLoan. cbn [Loan.withRiskScore Loan.withStatus Loan.status]. exact Hs.
  - unfold enrichLoan. cbn [Loan.withRiskScore Loan.riskScore]. rewrite Hs.
    change "paid_off" with (statusName paid_off).
    rewrite (calculateRiskScore_terms host now loan paid_off).
    rewrite Hps. unfold paymentHistoryTerm. cbn [length Nat.ltb Nat.leb].
    rewrite add_zero by apply finite_ofZ. reflexivity.
Qed.

Lemma determineLoanStatus_empty_schedule_witness :
  Loan.paymentSchedule emptyScheduleLoan = []
  ∧ determineLoanStatus exampleHost exampleNow emptyScheduleLoan = "paid_off"
  ∧ Loan.status (enrichLoan exampleHost exampleNow emptyScheduleLoan) = "paid_off"
  ∧ Loan.riskScore (enrichLoan exampleHost exampleNow emptyScheduleLoan)
    = clamp (add (add (add (ofZ 50)
                         (complianceTerm exampleHost exampleNow
                            (Loan.obligations emptyScheduleLoan)))
                    (maturityTerm exampleHost exampleNow
                       (Loan.endDate emptyScheduleLoan)))
               (ofZ (-20))).
Proof.
  split; [reflexivity|].
  exact (determineLoanStatus_empty_schedule exampleHost exampleNow emptyScheduleLoan
           eq_refl).
Defined.

(** ** Reconciliation *)

Section Reconciliation.

Variable host : Host.

Lemma find_some_inv {A} (f : A → bool) (l : list A) (x : A) :
  List.find f l = Some x → x ∈ l ∧ f x = true.
Proof.
  intros H. apply find_some in H. destruct H as [H1 H2].
  split; [apply list_elem_of_In, H1|exact H2].
Qed.

(** A match is a loan of the ledger found by the normalized email, or, when no
    loan has that email, by the normalized name; the stored email or name, or
    the stored borrower identifier, is compared. *)
Lemma matchExistingLoan_found (c : Candidate.t) (ledger : list Loan.t) (e : Loan.t) :
  matchExistingLoan c ledger = Some e →
  e ∈ ledger
  ∧ ((normalize (Candidate.borrowerEmail c) ≠ ""
      ∧ (normalize (Loan.borrowerEmail e) = normalize (Candidate.borrowerEmail c)
         ∨ normalize <$> Loan.borrowerIdentifier e
           = Some (normalize (Candidate.borrowerEmail c))))
     ∨ (normalize (Candidate.borrower c) ≠ ""
        ∧ (normalize (Loan.borrower e) = normalize (Candidate.borrower c)
           ∨ normalize <$> Loan.borrowerIdentifier e
             = Some (normalize (Candidate.borrower c))))).
Proof.
  assert (∀ x y, normalizedIs x y = true → normalize <$> x = Some y) as Hn.
  { intros [s|] y; cbn; [|discriminate]. rewrite String.eqb_eq. congruence. }
  unfold matchExistingLoan.
  destruct (_ && _); [discriminate|].
  destruct (String.eqb_spec (normalize (Candidate.borrowerEmail c)) "") as [He|He];
    cbn [negb].
  - destruct (String.eqb_spec (normalize (Candidate.borrower c)) "") as [Hb|Hb];
      cbn [negb]; [discriminate|].
    intros H. apply find_some_inv in H. destruct H as [Hin H].
    split; [exact Hin|]. right. split; [exact Hb|].
    apply orb_true_iff in H. destruct H as [H|H].
    + left. apply String.eqb_eq, H.
    + right. apply Hn, H.
  - destruct (List.find _ ledger) as [l|] eqn:Hf.
    + intros [= <-]. apply find_some_inv in Hf. destruct Hf as [Hin H].
      split; [exact Hin|]. left. split; [exact He|].
      apply orb_true_iff in H. destruct H as [H|H].
      * left. apply String.eqb_eq, H.
      * right. apply Hn, H.
    + destruct (String.eqb_spec (normalize (Candidate.borrower c)) "") as [Hb|Hb];
        cbn [negb]; [discriminate|].
      intros H. apply find_some_inv in H. destruct H as [Hin H].
      split; [exact Hin|]. right. split; [exact Hb|].
      apply orb_true_iff in H. destruct H as [H|H].
      * left. apply String.eqb_eq, H.
      * right. apply Hn, H.
Qed.

Lemma orStr_nonempty (a b : string) : a ≠ "" → orStr a b = a.
Proof.
  intros H. unfold orStr. destruct (String.eqb_spec a ""); [contradiction|reflexivity].
Qed.

Lemma orNum_truthy (a b : number) : truthy a = true → orNum a b = a.
Proof. intros H. unfold orNum. rewrite H. reflexivity. Qed.

Lemma orZ_nonzero (a b : Z) : a ≠ 0 → orZ a b = a.
Proof. intros H. unfold orZ. apply Z.eqb_neq in H. rewrite H. reflexivity. Qed.

End Reconciliation.


(** ** Alert regeneration *)

(** ** The scan of generateAlerts: what every step does *)

Section Scan.

Variable host : Host.

Lemma grown_refl l : grown l l.
Proof. exists []. rewrite app_nil_r. destruct l; reflexivity. Qed.

Lemma grown_trans l1 l2 l3 : grown l1 l2 → grown l2 l3 → grown l1 l3.
Proof.
  intros [e1 ->] [e2 ->]. exists (e1 ++ e2). cbn. rewrite app_assoc. reflexivity.
Qed.

Lemma grownStore_refl s : grownStore s s.
Proof.
  split; [|repeat split]. induction (Store.loans s); constructor; [apply grown_refl|assumption].
Qed.

Lemma Forall2_grown_trans l1 l2 l3 :
  Forall2 grown l1 l2 → Forall2 grown l2 l3 → Forall2 grown l1 l3.
Proof.
  intros H12. revert l3. induction H12 as [|a b l1 l2 Hab _ IH]; intros l3 H23.
  - inversion H23. constructor.
  - inversion H23 as [|b' c l2' l3' Hbc H23']; subst. constructor.
    + eapply grown_trans; eassumption.
    + apply IH. assumption.
Qed.

Lemma grownStore_trans s1 s2 s3 : grownStore s1 s2 → grownStore s2 s3 → grownStore s1 s3.
Proof.
  intros (A1 & A2 & A3 & A4 & A5) (B1 & B2 & B3 & B4 & B5).
  split; [eapply Forall2_grown_trans; eassumption|].
  repeat split; congruence.
Qed.

Lemma addCommunication_grown now loanId c s :
  grownStore s (addCommunication now loanId c s).
Proof.
  split; [|repeat split].
  unfold addCommunication. cbn [Store.withLoans Store.loans].
  induction (Store.loans s) as [|l ls IH]; cbn [map]; constructor; [|exact IH].
  destruct (String.eqb _ _); [eexists; reflexivity|apply grown_refl].
Qed.

Lemma sendEmailNotification_grown now loanId type data s :
  grownStore s (sendEmailNotification host now loanId type data s).
Proof.
  unfold sendEmailNotification.
  destruct (List.find _ _) as [loan|]; [|apply grownStore_refl].
  destruct (String.eqb (Loan.borrowerEmail loan) ""); [apply grownStore_refl|].
  destruct (String.eqb type "payment_reminder"); [apply addCommunication_grown|].
  destruct (String.eqb type "payment_overdue"); [apply addCommunication_grown|].
  destruct (String.eqb type "obligation_reminder"); apply addCommunication_grown.
Qed.

Lemma fold_pushes {X} (Q : X → Alert.t → Prop) (step : AlertRun → X → AlertRun)
    (xs : list X) :
  pushes Q step →
  ∀ alerts s,
    ∃ new, (fold_left step xs (alerts, s)).1 = alerts ++ new
           ∧ Forall (λ a, ∃ x, x ∈ xs ∧ Q x a) new
           ∧ grownStore s (fold_left step xs (alerts, s)).2.
Proof.
  intros Hstep. induction xs as [|x xs IH]; intros alerts s.
  - exists []. cbn. rewrite app_nil_r. split; [reflexivity|].
    split; [constructor|apply grownStore_refl].
  - cbn [fold_left]. destruct (Hstep alerts s x) as (new1 & H1 & Q1 & G1).
    destruct (step (alerts, s) x) as [alerts1 s1]. cbn [fst snd] in *. subst alerts1.
    destruct (IH (alerts ++ new1) s1) as (new2 & H2 & Q2 & G2).
    exists (new1 ++ new2). rewrite H2, app_assoc. split; [reflexivity|]. split.
    + apply Forall_app. split.
      * eapply Forall_impl; [exact Q1|]. intros a Ha. exists x. split; [left|exact Ha].
      * eapply Forall_impl; [exact Q2|]. intros a (y & Hy & Ha). exists y.
        split; [right; exact Hy|exact Ha].
    + eapply grownStore_trans; eassumption.
Qed.

End Scan.

Section Alerts.

Variable host : Host.

Lemma sameFacts_refl l : sameFacts l l.
Proof. destruct l. reflexivity. Qed.

Lemma sameFacts_trans l1 l2 l3 : sameFacts l1 l2 → sameFacts l2 l3 → sameFacts l1 l3.
Proof. unfold sameFacts. intros -> ->. reflexivity. Qed.

Lemma sameFacts_withCommunications l cs : sameFacts l (Loan.withCommunications l cs).
Proof. reflexivity. Qed.

Lemma sameStoreFacts_refl s : sameStoreFacts s s.
Proof.
  split; [|split; reflexivity].
  apply Forall2_same_length_lookup_2; [reflexivity|].
  intros i x y Hx Hy. rewrite Hx in Hy. injection Hy as <-. apply sameFacts_refl.
Qed.

Lemma Forall2_sameFacts_trans l1 l2 l3 :
  Forall2 sameFacts l1 l2 → Forall2 sameFacts l2 l3 → Forall2 sameFacts l1 l3.
Proof.
  intros H. revert l3. induction H as [|x y l l' Hxy _ IH]; intros l3 H3.
  - inversion H3. constructor.
  - inversion H3 as [|? z ? l3' Hyz H3']; subst. constructor.
    + eapply sameFacts_trans; eassumption.
    + apply IH, H3'.
Qed.

Lemma sameStoreFacts_trans s1 s2 s3 :
  sameStoreFacts s1 s2 → sameStoreFacts s2 s3 → sameStoreFacts s1 s3.
Proof.
  intros (H1 & H2 & H3) (H1' & H2' & H3').
  split; [eapply Forall2_sameFacts_trans; eassumption|].
  split; congruence.
Qed.

Lemma addCommunication_sameFacts now loanId c s :
  sameStoreFacts s (addCommunication now loanId c s)
  ∧ Store.alerts (addCommunication now loanId c s) = Store.alerts s.
Proof.
  split; [|reflexivity].
  split; [|split; reflexivity].
  unfold addCommunication. cbn [Store.withLoans Store.loans].
  induction (Store.loans s) as [|l ls IH]; cbn [map]; constructor; [|exact IH].
  destruct (String.eqb _ _); [apply sameFacts_withCommunications|apply sameFacts_refl].
Qed.

Lemma sendEmailNotification_sameFacts now loanId type data s :
  sameStoreFacts s (sendEmailNotification host now loanId type data s)
  ∧ Store.alerts (sendEmailNotification host now loanId type data s) = Store.alerts s.
Proof.
  unfold sendEmailNotification.
  destruct (List.find _ _) as [loan|]; [|split; [apply sameStoreFacts_refl|reflexivity]].
  destruct (String.eqb (Loan.borrowerEmail loan) "");
    [split; [apply sameStoreFacts_refl|reflexivity]|].
  destruct (String.eqb type "payment_reminder"); [apply addCommunication_sameFacts|].
  destruct (String.eqb type "payment_overdue"); [apply addCommunication_sameFacts|].
  destruct (String.eqb type "obligation_reminder"); apply addCommunication_sameFacts.
Qed.

Lemma fold_wellBehaved {X} (step : AlertRun → X → AlertRun) (xs : list X) :
  wellBehaved step →
  ∀ alerts s,
    (∀ s', (fold_left step xs (alerts, s)).1
           = alerts ++ (fold_left step xs ([], s')).1)
    ∧ Forall (λ a, Alert.read a = false) (fold_left step xs ([], s)).1
    ∧ sameStoreFacts s (fold_left step xs (alerts, s)).2
    ∧ Store.alerts (fold_left step xs (alerts, s)).2 = Store.alerts s.
Proof.
  intros Hstep. induction xs as [|x xs IH]; intros alerts s.
  - cbn. split; [|split; [|split]]; [| | |reflexivity].
    + intros _. symmetry. apply app_nil_r.
    + constructor.
    + apply sameStoreFacts_refl.
  - cbn [fold_left].
    destruct (Hstep alerts s x) as (H1 & _ & H3 & H4).
    destruct (Hstep [] s x) as (_ & H2 & _ & _).
    destruct (step (alerts, s) x) as [alerts1 s1] eqn:E1.
    cbn [fst snd] in *.
    destruct (IH alerts1 s1) as (I1 & _ & I3 & I4).
    split; [|split; [|split]].
    + intros s'. rewrite (I1 s'), (H1 s').
      destruct (step ([], s') x) as [alerts2 s2] eqn:E2. cbn [fst].
      destruct (IH alerts2 s2) as (J1 & _). rewrite (J1 s2).
      rewrite <- app_assoc. f_equal. f_equal.
      destruct (IH [] s') as (K1 & _). rewrite (K1 s2). reflexivity.
    + destruct (step ([], s) x) as [alerts2 s2] eqn:E2. cbn [fst] in H2.
      destruct (IH alerts2 s2) as (J1 & _). rewrite (J1 s2).
      apply Forall_app. split; [exact H2|]. apply (IH [] s2).
    + eapply sameStoreFacts_trans; eassumption.
    + congruence.
Qed.

Ltac alert_step :=
  split; [|split; [|split]];
  [ intros; cbn [fst]; rewrite ?app_nil_r; reflexivity
  | cbn [fst]; repeat constructor
  | cbn [snd]; first [apply sameStoreFacts_refl | apply sendEmailNotification_sameFacts]
  | cbn [snd]; first [reflexivity | apply sendEmailNotification_sameFacts] ].

Lemma paymentAlerts_wellBehaved now loan : wellBehaved (paymentAlerts host now loan).
Proof.
  intros alerts s p. unfold paymentAlerts.
  destruct (String.eqb (Payment.status p) "pending"); [|alert_step].
  destruct (lt _ _).
  { destruct (negb _); alert_step. }
  destruct (le _ _); [|alert_step].
  destruct (negb _ && _); alert_step.
Qed.

Lemma obligationAlerts_wellBehaved now loan :
  wellBehaved (obligationAlerts host now loan).
Proof.
  intros alerts s o. unfold obligationAlerts.
  destruct (negb (Obligation.completed o)); [|alert_step].
  destruct (lt _ _).
  { destruct (negb _); alert_step. }
  destruct (le _ _); [|alert_step].
  destruct (negb _ && _); alert_step.
Qed.

Lemma loanAlerts_wellBehaved now : wellBehaved (loanAlerts host now).
Proof.
  intros alerts s loan. unfold loanAlerts.
  pose proof (fold_wellBehaved _ (Loan.paymentSchedule loan)
                (paymentAlerts_wellBehaved now loan)) as HP.
  pose proof (fold_wellBehaved _ (Loan.obligations loan)
                (obligationAlerts_wellBehaved now loan)) as HO.
  assert (∀ run, let '(al, st) := run in
            (∀ s', (riskAlerts host now loan (al, st)).1
                   = al ++ (riskAlerts host now loan ([], s')).1)
            ∧ Forall (λ a, Alert.read a = false) (riskAlerts host now loan ([], st)).1
            ∧ (riskAlerts host now loan (al, st)).2 = st) as HR.
  { intros [al st]. unfold riskAlerts. destruct (gt _ _); cbn [fst snd].
    - split; [|split]; [reflexivity|repeat constructor|reflexivity].
    - split; [|split]; [intros; symmetry; apply app_nil_r|constructor|reflexivity]. }
  split; [|split; [|split]].
  - intros s'.
    destruct (HP alerts s) as (P1 & _). specialize (P1 s').
    destruct (fold_left (paymentAlerts host now loan) _ (alerts, s)) as [a1 s1].
    destruct (fold_left (paymentAlerts host now loan) _ ([], s')) as [a1' s1'].
    cbn [fst] in P1. subst a1.
    destruct (HO (alerts ++ a1') s1) as (O1 & _). specialize (O1 s1').
    destruct (HO a1' s1') as (O1' & _). specialize (O1' s1').
    destruct (fold_left (obligationAlerts host now loan) _ (alerts ++ a1', s1))
      as [a2 s2].
    destruct (fold_left (obligationAlerts host now loan) _ (a1', s1')) as [a2' s2'].
    destruct (fold_left (obligationAlerts host now loan) _ ([], s1')) as [a3 s3].
    cbn [fst] in O1, O1'. subst a2 a2'.
    destruct (HR (alerts ++ a1' ++ a3, s2)) as (R1 & _).
    destruct (HR (a1' ++ a3, s2')) as (R1' & _).
    rewrite <- app_assoc. rewrite (R1 s2'), (R1' s2'). rewrite !app_assoc. reflexivity.
  - destruct (HP [] s) as (_ & P2 & _).
    destruct (fold_left (paymentAlerts host now loan) _ ([], s)) as [a1 s1].
    cbn [fst] in P2.
    destruct (HO a1 s1) as (O1 & _). specialize (O1 s1).
    destruct (HO [] s1) as (_ & O2 & _).
    destruct (fold_left (obligationAlerts host now loan) _ (a1, s1)) as [a2 s2].
    destruct (fold_left (obligationAlerts host now loan) _ ([], s1)) as [a3 s3].
    cbn [fst] in O1, O2. subst a2.
    destruct (HR (a1 ++ a3, s2)) as (R1 & _). rewrite (R1 s2).
    destruct (HR ([], s2)) as (_ & R2 & _).
    repeat (apply Forall_app; split); assumption.
  - destruct (HP alerts s) as (_ & _ & P3 & _).
    destruct (fold_left (paymentAlerts host now loan) _ (alerts, s)) as [a1 s1].
    destruct (HO a1 s1) as (_ & _ & O3 & _).
    destruct (fold_left (obligationAlerts host now loan) _ (a1, s1)) as [a2 s2].
    destruct (HR (a2, s2)) as (_ & _ & R3). rewrite R3.
    cbn [snd] in *. eapply sameStoreFacts_trans; eassumption.
  - destruct (HP alerts s) as (_ & _ & _ & P4).
    destruct (fold_left (paymentAlerts host now loan) _ (alerts, s)) as [a1 s1].
    destruct (HO a1 s1) as (_ & _ & _ & O4).
    destruct (fold_left (obligationAlerts host now loan) _ (a1, s1)) as [a2 s2].
    destruct (HR (a2, s2)) as (_ & _ & R3). rewrite R3.
    cbn [snd] in *. congruence.
Qed.

Lemma loanAlerts_sameFacts now run l l' :
  sameFacts l l' → loanAlerts host now run l' = loanAlerts host now run l.
Proof. unfold sameFacts. intros ->. reflexivity. Qed.

(** The alerts a scan pushes depend on the facts of the loans only. *)
Lemma scan_sameFacts now ls ls' :
  Forall2 sameFacts ls ls' →
  ∀ alerts s s',
    (fold_left (loanAlerts host now) ls (alerts, s)).1
    = (fold_left (loanAlerts host now) ls' (alerts, s')).1.
Proof.
  induction 1 as [|l l' ls ls' Hl _ IH]; intros alerts s s'; [reflexivity|].
  cbn [fold_left]. rewrite (loanAlerts_sameFacts now _ l l' Hl).
  destruct (loanAlerts_wellBehaved now alerts s l) as (H1 & _).
  destruct (loanAlerts_wellBehaved now alerts s' l) as (H1' & _).
  specialize (H1 s). specialize (H1' s).
  destruct (loanAlerts host now (alerts, s) l) as [a1 s1].
  destruct (loanAlerts host now (alerts, s') l) as [a1' s1'].
  cbn [fst] in H1, H1'. rewrite H1, H1'. apply IH.
Qed.

Lemma Forall2_filter_sameFacts (p : Loan.t → bool) ls ls' :
  (∀ l l', sameFacts l l' → p l' = p l) →
  Forall2 sameFacts ls ls' →
  Forall2 sameFacts (List.filter p ls) (List.filter p ls').
Proof.
  intros Hp. induction 1 as [|l l' ls ls' Hl _ IH]; [constructor|].
  cbn [List.filter]. rewrite (Hp l l' Hl).
  destruct (p l); [constructor; assumption|exact IH].
Qed.

Lemma getFilteredLoans_sameFacts s s' :
  sameStoreFacts s s' →
  Forall2 sameFacts (getFilteredLoans s) (getFilteredLoans s').
Proof.
  intros (Hl & Hf & Hu). unfold getFilteredLoans, filterLoans. rewrite Hf, Hu.
  apply Forall2_filter_sameFacts.
  { intros l l'. unfold sameFacts. intros ->. reflexivity. }
  destruct (Store.currentUserId s) as [u|]; [|constructor].
  destruct (String.eqb u ""); [constructor|].
  apply Forall2_filter_sameFacts; [|exact Hl].
  intros l l'. unfold sameFacts. intros ->. reflexivity.
Qed.

Lemma freshAlerts_sameFacts now s s' :
  sameStoreFacts s s' → freshAlerts host now s' = freshAlerts host now s.
Proof.
  intros H. unfold freshAlerts. symmetry.
  apply scan_sameFacts, getFilteredLoans_sameFacts, H.
Qed.

Lemma freshAlerts_unread now s : Forall (λ a, Alert.read a = false) (freshAlerts host now s).
Proof.
  unfold freshAlerts.
  apply (fold_wellBehaved _ (getFilteredLoans s) (loanAlerts_wellBehaved now) []
           blankStore).
Qed.

(** generateAlerts returns the fresh alerts, stores them merged with the read
    flags of the alerts stored before, and leaves the facts of the store. *)
Lemma generateAlerts_unfold now s :
  (generateAlerts host now s).2 = freshAlerts host now s
  ∧ Store.alerts (generateAlerts host now s).1
    = mergeAlerts (Store.alerts s) (freshAlerts host now s)
  ∧ sameStoreFacts s (generateAlerts host now s).1.
Proof.
  unfold generateAlerts, freshAlerts.
  destruct (fold_wellBehaved _ (getFilteredLoans s) (loanAlerts_wellBehaved now) [] s)
    as (H1 & _ & H3 & H4).
  specialize (H1 blankStore).
  destruct (fold_left (loanAlerts host now) (getFilteredLoans s) ([], s)) as [al s1].
  cbn [fst snd] in *. rewrite H4, H1. cbn [app].
  split; [reflexivity|]. split; [reflexivity|].
  destruct H3 as (L & F & U). split; [exact L|]. split; assumption.
Qed.

Lemma alertsById_from (l : list Alert.t) (m : gmap string Alert.t) (k : string) :
  (∀ e, fold_left (λ m a, <[Alert.id a := a]> m) l m !! k = Some e →
        (e ∈ l ∧ Alert.id e = k) ∨ m !! k = Some e)
  ∧ (is_Some (m !! k) ∨ (∃ a, a ∈ l ∧ Alert.id a = k) →
     is_Some (fold_left (λ m a, <[Alert.id a := a]> m) l m !! k)).
Proof.
  revert m. induction l as [|x l IH]; intros m.
  - cbn. split; [auto|]. intros [H|(a & Ha & _)]; [exact H|]. inversion Ha.
  - cbn [fold_left]. destruct (IH (<[Alert.id x := x]> m)) as [IH1 IH2]. split.
    + intros e He. destruct (IH1 e He) as [[Hin Hid]|Hm].
      * left. split; [right; exact Hin|exact Hid].
      * destruct (decide (Alert.id x = k)) as [E|E].
        -- subst k. rewrite lookup_insert_eq in Hm. injection Hm as <-.
           left. split; [left|reflexivity].
        -- rewrite lookup_insert_ne in Hm by exact E. right. exact Hm.
    + intros H. apply IH2.
      destruct (decide (Alert.id x = k)) as [E|E].
      * left. subst k. rewrite lookup_insert_eq. eauto.
      * rewrite lookup_insert_ne by exact E.
        destruct H as [H|(a & Ha & Hid)]; [left; exact H|].
        apply elem_of_cons in Ha. destruct Ha as [->|Ha]; [contradiction|].
        right. exists a. auto.
Qed.

Lemma withRead_unread (a : Alert.t) : Alert.read a = false → Alert.withRead a false = a.
Proof. destruct a. cbn. intros ->. reflexivity. Qed.

Lemma mergeAlerts_flagged stored fresh :
  Forall (λ a, Alert.read a = false) fresh →
  mergeAlerts stored fresh = flagged (priorRead stored) fresh.
Proof.
  intros H. unfold mergeAlerts, flagged, priorRead.
  induction H as [|a fresh Ha _ IH]; [reflexivity|].
  cbn [map]. f_equal; [|exact IH].
  destruct (alertsById stored !! Alert.id a); [reflexivity|].
  symmetry. apply withRead_unread, Ha.
Qed.

Lemma priorRead_flagged r fresh a :
  a ∈ fresh → priorRead (flagged r fresh) (Alert.id a) = r (Alert.id a).
Proof.
  intros Ha. unfold priorRead, alertsById.
  destruct (alertsById_from (flagged r fresh) ∅ (Alert.id a)) as [H1 H2].
  destruct H2 as [e He].
  { right. exists (Alert.withRead a (r (Alert.id a))). split; [|reflexivity].
    unfold flagged. apply list_elem_of_fmap. exists a. auto. }
  rewrite He. destruct (H1 e He) as [[Hin Hid]|Hm].
  - unfold flagged in Hin. apply list_elem_of_fmap in Hin.
    destruct Hin as (b & -> & _). cbn in *. rewrite Hid. reflexivity.
  - rewrite lookup_empty in Hm. discriminate.
Qed.

Lemma mergeAlerts_again r fresh :
  Forall (λ a, Alert.read a = false) fresh →
  mergeAlerts (flagged r fresh) fresh = flagged r fresh.
Proof.
  intros H. rewrite mergeAlerts_flagged by exact H. unfold flagged at 1 3.
  apply map_ext_in. intros a Ha. f_equal.
  apply priorRead_flagged, list_elem_of_In, Ha.
Qed.

Lemma flagged_ids r fresh : map Alert.id (flagged r fresh) = map Alert.id fresh.
Proof. unfold flagged. rewrite map_map. reflexivity. Qed.

Lemma applyReadAction_flagged s0 s r fresh action :
  sameStoreFacts s0 s → Store.alerts s = flagged r fresh →
  sameStoreFacts s0 (applyReadAction s action)
  ∧ ∃ r', Store.alerts (applyReadAction s action) = flagged r' fresh.
Proof.
  intros Hs Ha. split.
  { destruct action; exact Hs. }
  destruct action as [alertId|]; cbn; rewrite Ha; unfold flagged; rewrite map_map.
  - exists (λ k, if String.eqb k alertId then true else r k).
    apply map_ext. intros a. cbn. destruct (String.eqb (Alert.id a) alertId); reflexivity.
  - exists (λ _, true). reflexivity.
Qed.

Lemma applyReadActions_flagged s0 actions : ∀ s r fresh,
  sameStoreFacts s0 s → Store.alerts s = flagged r fresh →
  sameStoreFacts s0 (fold_left applyReadAction actions s)
  ∧ ∃ r', Store.alerts (fold_left applyReadAction actions s) = flagged r' fresh.
Proof.
  induction actions as [|action actions IH]; intros s r fresh Hs Ha.
  - cbn. eauto.
  - cbn [fold_left].
    destruct (applyReadAction_flagged s0 s r fresh action Hs Ha) as (Hs' & r' & Ha').
    exact (IH _ r' fresh Hs' Ha').
Qed.

Lemma paymentAlerts_ids now loan :
  pushes (λ (payment : Payment.t) a,
            Alert.loanId a = Loan.id loan
            ∧ ∃ kind, kind ∈ ["overdue"; "due"]
                      ∧ Alert.id a = itemAlertId loan (Payment.id payment) kind)
    (paymentAlerts host now loan).
Proof.
  intros alerts s p. unfold paymentAlerts.
  destruct (String.eqb (Payment.status p) "pending");
    [|exists []; cbn [fst snd]; rewrite app_nil_r;
      split; [reflexivity|split; [constructor|apply grownStore_refl]]].
  destruct (lt _ _).
  { eexists [_]. cbn [fst snd]. split; [reflexivity|]. split.
    - constructor; [|constructor]. split; [reflexivity|].
      exists "overdue". split; [set_solver|reflexivity].
    - destruct (negb _); [apply sendEmailNotification_grown|apply grownStore_refl]. }
  destruct (le _ _);
    [|exists []; cbn [fst snd]; rewrite app_nil_r;
      split; [reflexivity|split; [constructor|apply grownStore_refl]]].
  eexists [_]. cbn [fst snd]. split; [reflexivity|]. split.
  - constructor; [|constructor]. split; [reflexivity|].
    exists "due". split; [set_solver|reflexivity].
  - destruct (negb _ && _); [apply sendEmailNotification_grown|apply grownStore_refl].
Qed.

Lemma obligationAlerts_ids now loan :
  pushes (λ (obligation : Obligation.t) a,
            Alert.loanId a = Loan.id loan
            ∧ ∃ kind, kind ∈ ["overdue"; "due"]
                      ∧ Alert.id a = itemAlertId loan (Obligation.id obligation) kind)
    (obligationAlerts host now loan).
Proof.
  intros alerts s o. unfold obligationAlerts.
  destruct (negb (Obligation.completed o));
    [|exists []; cbn [fst snd]; rewrite app_nil_r;
      split; [reflexivity|split; [constructor|apply grownStore_refl]]].
  destruct (lt _ _).
  { eexists [_]. cbn [fst snd]. split; [reflexivity|]. split.
    - constructor; [|constructor]. split; [reflexivity|].
      exists "overdue". split; [set_solver|reflexivity].
    - destruct (negb _); [apply sendEmailNotification_grown|apply grownStore_refl]. }
  destruct (le _ _);
    [|exists []; cbn [fst snd]; rewrite app_nil_r;
      split; [reflexivity|split; [constructor|apply grownStore_refl]]].
  eexists [_]. cbn [fst snd]. split; [reflexivity|]. split.
  - constructor; [|constructor]. split; [reflexivity|].
    exists "due". split; [set_solver|reflexivity].
  - destruct (negb _ && _); [apply sendEmailNotification_grown|apply grownStore_refl].
Qed.

Lemma loanAlerts_ids now : pushes identifiedBy (loanAlerts host now).
Proof.
  intros alerts s loan. unfold loanAlerts.
  destruct (fold_pushes _ _ (Loan.paymentSchedule loan) (paymentAlerts_ids now loan)
              alerts s) as (new1 & H1 & Q1 & G1).
  destruct (fold_left (paymentAlerts host now loan) _ (alerts, s)) as [a1 s1].
  cbn [fst snd] in *. subst a1.
  destruct (fold_pushes _ _ (Loan.obligations loan) (obligationAlerts_ids now loan)
              (alerts ++ new1) s1) as (new2 & H2 & Q2 & G2).
  destruct (fold_left (obligationAlerts host now loan) _ (alerts ++ new1, s1))
    as [a2 s2].
  cbn [fst snd] in *. subst a2.
  assert (Forall (identifiedBy loan) (new1 ++ new2)) as Q12.
  { apply Forall_app. split; (eapply Forall_impl; [eassumption|]).
    - intros a (p & Hp & Hl & kind & Hk & Hid). split; [exact Hl|]. left. eauto.
    - intros a (o & Ho & Hl & kind & Hk & Hid). split; [exact Hl|]. right. left. eauto. }
  assert (grownStore s s2) as G by (eapply grownStore_trans; eassumption).
  unfold riskAlerts. destruct (gt _ _); cbn [fst snd].
  - eexists (new1 ++ new2 ++ [_]). rewrite <- !app_assoc.
    split; [reflexivity|]. split; [|exact G].
    rewrite app_assoc. apply Forall_app. split; [exact Q12|].
    constructor; [|constructor]. split; [reflexivity|]. right. right. reflexivity.
  - exists (new1 ++ new2). rewrite app_assoc. split; [reflexivity|].
    split; [exact Q12|exact G].
Qed.

Lemma generateAlerts_ids now s :
  Forall (λ a, ∃ loan, loan ∈ getFilteredLoans s ∧ identifiedBy loan a)
    (generateAlerts host now s).2.
Proof.
  unfold generateAlerts.
  destruct (fold_pushes _ _ (getFilteredLoans s) (loanAlerts_ids now) [] s)
    as (new & H & Q & _).
  destruct (fold_left (loanAlerts host now) (getFilteredLoans s) ([], s)) as [alerts s'].
  cbn [fst snd] in *. subst alerts. exact Q.
Qed.


End Alerts.

(** A run on a store with one payment due in three days: one alert of medium
    severity; once marked read it stays read through the next run. *)
Example generateAlerts_example :
  let s1 := (generateAlerts exampleHost exampleNow exampleStore).1 in
  let s2 := (generateAlerts exampleHost exampleNow
               (markAlertRead "alert-loan-5-payment-loan-5-1-due" s1)).1 in
  map (λ a, (Alert.id a, Alert.severity a, Alert.read a)) (Store.alerts s1)
    = [("alert-loan-5-payment-loan-5-1-due", "medium", false)]
  ∧ map (λ a, (Alert.id a, Alert.severity a, Alert.read a)) (Store.alerts s2)
    = [("alert-loan-5-payment-loan-5-1-due", "medium", true)].
Proof. vm_compute. split; reflexivity. Qed.


(** ** Parsing rows *)

Section Rows.

Variable host : Host.

Lemma append_nonempty (a b : string) : b ≠ "" → a +:+ b ≠ "".
Proof. destruct a; cbn; [auto|discriminate]. Qed.

Lemma toISODate_nonempty (t : Z) : toISODate t ≠ "".
Proof.
  unfold toISODate. destruct (civilFromDays _) as [[y m] d].
  apply append_nonempty. discriminate.
Qed.

Lemma extractRow_startDate now headers values loanData :
  x_startDate (extractRow now headers values loanData) ≠ "".
Proof.
  unfold extractRow. cbn [x_startDate].
  match goal with |- (if String.eqb ?s "" then _ else _) ≠ _ =>
    destruct (String.eqb_spec s "") as [E|E] end.
  - apply toISODate_nonempty.
  - exact E.
Qed.

Lemma isNaN_not_truthy (a : number) : isNaN a = true → truthy a = false.
Proof. destruct a; cbn; congruence. Qed.

(** The validation, in words: the borrower is empty, or the amount, the rate
    or the term is zero or not a number.  The start date plays no part. *)
Lemma missingRequired_iff (x : Extracted) :
  x_startDate x ≠ "" →
  missingRequired x = true
  ↔ x_borrower x = "" ∨ zeroOrNaN (x_amount x) ∨ zeroOrNaN (x_interestRate x)
    ∨ x_term x = None ∨ x_term x = Some 0.
Proof.
  intros Hs. unfold missingRequired, zeroOrNaN.
  rewrite !orb_true_iff, !negb_true_iff, String.eqb_eq.
  destruct (String.eqb_spec (x_startDate x) "") as [E|_]; [contradiction|].
  split.
  - intros [[[[[[H|H]|H]|H]|H]|H]|H]; auto using isNaN_not_truthy.
    + destruct (x_term x) as [t|]; [|auto].
      apply Z.eqb_eq in H. subst. auto.
    + discriminate.
  - intros [H|[H|[H|[H|H]]]]; auto 10.
    + left. right. rewrite H. reflexivity.
    + left. right. rewrite H. reflexivity.
Qed.

(** A row that fails the validation is skipped with a warning; any other row
    gives a candidate with the extracted fields, or throws. *)
Lemma parseRow_outcome now headers nh i line :
  let x := rowFields host now headers nh line in
  (missingRequired x = true →
     ∃ w, parseRow host now headers nh i line = (w ++ [skipWarning i], Return None))
  ∧ (missingRequired x = false →
       (parseRow host now headers nh i line).2 ≠ Return None
       ∧ ∀ c, (parseRow host now headers nh i line).2 = Return (Some c) →
              Candidate.borrower c = x_borrower x
              ∧ Candidate.amount c = x_amount x
              ∧ Candidate.interestRate c = x_interestRate x
              ∧ Some (Candidate.term c) = x_term x
              ∧ Candidate.startDate c = formatDateString host now (x_startDate x)).
Proof.
  unfold rowFields, parseRow. cbv zeta.
  set (values := fitValues (length headers) (parseCSVLine line)).
  set (loanData := rowData host headers nh values).
  set (x := extractRow now headers values loanData).
  split.
  - intros ->. eexists. reflexivity.
  - intros Hm. rewrite Hm. cbn [snd].
    assert (∃ t, x_term x = Some t) as [t Ht].
    { unfold missingRequired in Hm. destruct (x_term x) as [t|]; [eauto|].
      rewrite !orb_true_r in Hm. discriminate. }
    rewrite Ht. cbn [default].
    destruct (if String.eqb (x_endDate x) "" then _ else _) as [endDate|e];
      cbn [mbind completion_bind]; [|split; [discriminate|intros c [=]]].
    destruct (loanData !! "paymentschedule" ≫= nonEmpty) as [v|];
      cbn [mbind completion_bind mret completion_ret].
    + split; [discriminate|]. intros c [= <-]. cbn. auto.
    + destruct (generatePaymentSchedule _ _ _ _ _ _) as [schedule|e];
        cbn [mbind completion_bind mret completion_ret];
        [|split; [discriminate|intros c [=]]].
      split; [discriminate|]. intros c [= <-]. cbn. auto.
Qed.

(** The loop returns the candidates of the rows it does not skip, after those
    pushed before, and logs the warnings of every row. *)
Lemma parseRows_spec now headers nh lines :
  ∀ i loans w result,
    parseRows host now headers nh i lines loans = (w, Return result) →
    ∃ outcomes : list (option Candidate.t),
      Forall2 (λ '(k, line) o, (parseRow host now headers nh k line).2 = Return o)
        (numbered i lines) outcomes
      ∧ result = loans ++ omap id outcomes
      ∧ w = concat (map (λ '(k, line), (parseRow host now headers nh k line).1)
                      (numbered i lines)).
Proof.
  induction lines as [|line lines IH]; intros i loans w result; cbn [parseRows].
  - intros [= <- <-]. exists []. split; [constructor|].
    split; [symmetry; apply app_nil_r|reflexivity].
  - destruct (parseRow host now headers nh i line) as [w1 outcome] eqn:E1.
    destruct outcome as [pushed|e]; [|discriminate].
    destruct (parseRows host now headers nh (i + 1) lines (loans ++ option_list pushed))
      as [w2 res] eqn:E2.
    intros [= <- ->].
    destruct (IH _ _ _ _ E2) as (outcomes & HF & Hres & Hw).
    exists (pushed :: outcomes).
    unfold numbered in *. cbn [length]. rewrite Nat2Z.inj_succ, seqZ_cons by lia.
    replace (Z.pred (Z.succ (Z.of_nat (length lines)))) with (Z.of_nat (length lines))
      by lia.
    replace (Z.succ i) with (i + 1) by lia.
    cbn [zip zip_with map concat].
    split; [constructor; [rewrite E1; reflexivity|exact HF]|].
    split.
    + rewrite Hres, <- app_assoc. f_equal. destruct pushed; reflexivity.
    + rewrite E1, Hw. reflexivity.
Qed.

Lemma aboveZero_truthy (a : number) : aboveZero a → truthy a = true.
Proof.
  unfold aboveZero, gt, lt, ofZ. destruct a as [q| | |]; cbn [truthy];
    try discriminate; auto.
  rewrite Z2Qc_inj_0. intros H. destruct (sgn q) eqn:E; [|reflexivity..].
  apply sgn_Eq in E. subst q. discriminate H.
Qed.

Lemma formatDateString_iso now s : isIsoDate s = true → formatDateString host now s = s.
Proof.
  intros Hiso. unfold formatDateString. rewrite Hiso.
  destruct (String.eqb_spec s "") as [->|_]; [discriminate Hiso|reflexivity].
Qed.

(** A row that names no start date gets the current date. *)
Lemma extractRow_today now headers values loanData :
  startDateCell headers values loanData = "" →
  x_startDate (extractRow now headers values loanData) = toISODate now.
Proof. intros H. unfold extractRow. cbn [x_startDate]. rewrite H. reflexivity. Qed.

(** *** One file read at two instants of one day *)

Lemma extractRow_same_day now now' headers values loanData :
  toISODate now' = toISODate now →
  extractRow now' headers values loanData = extractRow now headers values loanData.
Proof. intros H. unfold extractRow, today. rewrite H. reflexivity. Qed.

Lemma formatDateString_same_day now now' s :
  toISODate now' = toISODate now →
  formatDateString host now' s = formatDateString host now s.
Proof. intros H. unfold formatDateString, today. rewrite H. reflexivity. Qed.

Lemma scheduleLoop_any_id id id' A mr t n : ∀ i rem,
  match scheduleLoop id A mr t n i rem, scheduleLoop id' A mr t n i rem with
  | Return _, Return _ => True
  | Throw e, Throw e' => e = e'
  | _, _ => False
  end.
Proof.
  induction n as [|n IH]; intros i rem; cbn [scheduleLoop]; [exact I|].
  destruct (dueDateOf t i) as [d|e]; cbn [mbind completion_bind]; [|reflexivity].
  specialize (IH (i + 1) (sub rem (sub A (mul rem mr)))).
  destruct (scheduleLoop id A mr t n _ _), (scheduleLoop id' A mr t n _ _);
    cbn [mbind completion_bind mret completion_ret]; auto.
Qed.

Lemma generatePaymentSchedule_any_id id id' amount rate term startDate :
  match generatePaymentSchedule host id amount rate term startDate,
        generatePaymentSchedule host id' amount rate term startDate with
  | Return _, Return _ => True
  | Throw e, Throw e' => e = e'
  | _, _ => False
  end.
Proof.
  unfold generatePaymentSchedule. destruct (newDate host startDate) as [t|].
  - apply scheduleLoop_any_id.
  - destruct (0 <? term); auto.
Qed.

Lemma parseRow_same_day now now' headers nh i line :
  toISODate now' = toISODate now →
  (parseRow host now' headers nh i line).1 = (parseRow host now headers nh i line).1
  ∧ match (parseRow host now headers nh i line).2,
          (parseRow host now' headers nh i line).2 with
    | Return None, Return None => True
    | Return (Some c), Return (Some c') => sameRow host now c c'
    | Throw e, Throw e' => e = e'
    | _, _ => False
    end.
Proof.
  intros Hday. unfold parseRow. cbv zeta.
  set (values := fitValues (length headers) (parseCSVLine line)).
  set (loanData := rowData host headers nh values).
  rewrite (extractRow_same_day now now' headers values loanData Hday).
  set (x := extractRow now headers values loanData).
  destruct (missingRequired x); [split; [reflexivity|exact I]|].
  cbn [fst snd]. split; [reflexivity|].
  rewrite !(formatDateString_same_day now now' _ Hday).
  destruct (if String.eqb (x_endDate x) "" then _ else _) as [endDate|e];
    cbn [mbind completion_bind]; [|reflexivity].
  destruct (loanData !! "id" ≫= nonEmpty) as [rowId|]; cbn [default].
  - destruct (loanData !! "paymentschedule" ≫= nonEmpty) as [v|];
      cbn [mbind completion_bind mret completion_ret].
    + split; [reflexivity|]. split; [split; reflexivity|]. left. reflexivity.
    + destruct (generatePaymentSchedule _ _ _ _ _ _) as [schedule|e];
        cbn [mbind completion_bind mret completion_ret]; [|reflexivity].
      split; [reflexivity|]. split; [split; discriminate|]. left. reflexivity.
  - destruct (loanData !! "paymentschedule" ≫= nonEmpty) as [v|];
      cbn [mbind completion_bind mret completion_ret].
    + split; [reflexivity|]. split; [split; reflexivity|]. right. eexists. reflexivity.
    + pose proof (generatePaymentSchedule_any_id
                    ("loan-import-" +:+ pretty now +:+ "-" +:+ pretty i)
                    ("loan-import-" +:+ pretty now' +:+ "-" +:+ pretty i)
                    (x_amount x) (x_interestRate x) (default 0 (x_term x))
                    (formatDateString host now (x_startDate x))) as Hg.
      destruct (generatePaymentSchedule host
                  ("loan-import-" +:+ pretty now +:+ "-" +:+ pretty i) _ _ _ _)
        as [schedule|e];
        destruct (generatePaymentSchedule host
                    ("loan-import-" +:+ pretty now' +:+ "-" +:+ pretty i) _ _ _ _)
        as [schedule'|e'];
        cbn [mbind completion_bind mret completion_ret]; try contradiction;
        [|exact Hg].
      split; [reflexivity|]. split; [split; discriminate|]. right. eexists. reflexivity.
Qed.

Lemma parseRows_same_day now now' headers nh lines :
  toISODate now' = toISODate now →
  ∀ i loans loans' w result,
    Forall2 (sameRow host now) loans loans' →
    parseRows host now headers nh i lines loans = (w, Return result) →
    ∃ result',
      parseRows host now' headers nh i lines loans' = (w, Return result')
      ∧ Forall2 (sameRow host now) result result'.
Proof.
  intros Hday. induction lines as [|line lines IH];
    intros i loans loans' w result Hloans; cbn [parseRows].
  - intros [= <- <-]. eauto.
  - destruct (parseRow_same_day now now' headers nh i line Hday) as [Hw Hrel].
    destruct (parseRow host now headers nh i line) as [w1 outcome].
    destruct (parseRow host now' headers nh i line) as [w1' outcome'].
    cbn [fst snd] in Hw, Hrel. subst w1'.
    destruct outcome as [pushed|e]; [|discriminate].
    destruct outcome' as [pushed'|e'];
      [|destruct pushed; contradiction].
    destruct (parseRows host now headers nh (i + 1) lines (loans ++ option_list pushed))
      as [w2 res] eqn:E2.
    intros [= <- ->].
    destruct (IH (i + 1) (loans ++ option_list pushed) (loans' ++ option_list pushed')
                w2 result) as (result' & E2' & Hres); [|exact E2|].
    { apply Forall2_app; [exact Hloans|].
      destruct pushed as [c|], pushed' as [c'|]; try contradiction;
        cbn [option_list]; constructor; [exact Hrel|constructor]. }
    rewrite E2'. eauto.
Qed.

Lemma parseCSV_same_day now now' csv w result :
  toISODate now' = toISODate now →
  parseCSV host now csv = (w, Return result) →
  ∃ result',
    parseCSV host now' csv = (w, Return result')
    ∧ Forall2 (sameRow host now) result result'.
Proof.
  intros Hday. unfold parseCSV.
  destruct (List.filter _ (split newline csv)) as [|headerLine [|line dataLines]];
    [discriminate|discriminate|].
  cbv zeta.
  match goal with
  | |- match ?check with _ => _ end = _ → _ => destruct check as [[]|e]; [|discriminate]
  end.
  apply parseRows_same_day; [exact Hday|constructor].
Qed.

End Rows.




(** ** Append-only import *)

Section AppendOnly.

Variable host : Host.

Lemma mapC_Forall2 {A B} (f : A → completion B) (l : list A) (ys : list B) :
  mapC f l = Return ys → Forall2 (λ x y, f x = Return y) l ys.
Proof.
  revert ys. induction l as [|x l IH]; intros ys; cbn [mapC].
  - intros [= <-]. constructor.
  - destruct (f x) as [y|e] eqn:Ef; [|discriminate].
    destruct (mapC f l) as [ys'|e]; [|discriminate].
    intros [= <-]. constructor; [exact Ef|]. apply IH. reflexivity.
Qed.

Lemma enrichImported_fields now user c l :
  enrichImported host now user c = Return l →
  Loan.id l = Candidate.id c ∧ loanKey host l = candidateKey host c.
Proof.
  unfold enrichImported. destruct (Candidate.paymentSchedule c); [|discriminate].
  intros [= <-]. split; reflexivity.
Qed.

Lemma enrichImported_returns now now' user c l :
  enrichImported host now user c = Return l →
  ∃ l', enrichImported host now' user c = Return l'.
Proof.
  unfold enrichImported. destruct (Candidate.paymentSchedule c); [|discriminate].
  intros _. eexists. reflexivity.
Qed.

Lemma mapC_returns now now' user cs ls :
  mapC (enrichImported host now user) cs = Return ls →
  ∃ ls', mapC (enrichImported host now' user) cs = Return ls'.
Proof.
  revert ls. induction cs as [|c cs IH]; intros ls; cbn [mapC]; [eauto|].
  destruct (enrichImported host now user c) as [l|e] eqn:E; [|discriminate].
  destruct (mapC (enrichImported host now user) cs) as [ls0|e]; [|discriminate].
  intros _. destruct (enrichImported_returns now now' user c l E) as [l' ->].
  destruct (IH ls0 eq_refl) as [ls' ->]. eauto.
Qed.

(** The filter keeps loans with keys that are pairwise distinct and new, with
    identifiers that are new; a loan it drops has a known identifier or a key
    that is known or kept. *)
Lemma filterNewLoans_spec (ids : gset string) (ls : list Loan.t) :
  ∀ keys : gset string,
    let kept := filterNewLoans host ids keys ls in
    NoDup (map (loanKey host) kept)
    ∧ (∀ l, l ∈ kept → (loanKey host l ∉ keys) ∧ (Loan.id l ∉ ids) ∧ l ∈ ls)
    ∧ (length kept ≤ length ls)%nat
    ∧ (∀ l, l ∈ ls → Loan.id l ∈ ids ∨ loanKey host l ∈ keys
                      ∨ loanKey host l ∈ map (loanKey host) kept).
Proof.
  induction ls as [|l ls IH]; intros keys; cbn [filterNewLoans].
  - cbn. split; [constructor|]. split; [intros l H; inversion H|].
    split; [lia|]. intros l H. inversion H.
  - destruct (bool_decide (Loan.id l ∈ ids)) eqn:Eid; cbn [orb].
    { apply bool_decide_eq_true in Eid.
      destruct (IH keys) as (H1 & H2 & H3 & H4).
      split; [exact H1|]. split; [|split].
      - intros x Hx. destruct (H2 x Hx) as (? & ? & ?).
        split; [assumption|]. split; [assumption|]. right. assumption.
      - cbn [length]. lia.
      - intros x Hx. apply elem_of_cons in Hx. destruct Hx as [->|Hx]; [auto|].
        apply H4, Hx. }
    apply bool_decide_eq_false in Eid.
    destruct (bool_decide (loanKey host l ∈ keys)) eqn:Ekey.
    { apply bool_decide_eq_true in Ekey.
      destruct (IH keys) as (H1 & H2 & H3 & H4).
      split; [exact H1|]. split; [|split].
      - intros x Hx. destruct (H2 x Hx) as (? & ? & ?).
        split; [assumption|]. split; [assumption|]. right. assumption.
      - cbn [length]. lia.
      - intros x Hx. apply elem_of_cons in Hx. destruct Hx as [->|Hx]; [auto|].
        apply H4, Hx. }
    apply bool_decide_eq_false in Ekey.
    destruct (IH ({[loanKey host l]} ∪ keys)) as (H1 & H2 & H3 & H4).
    cbn zeta. split; [|split; [|split]].
    + cbn [map]. constructor; [|exact H1].
      intros Hin. apply list_elem_of_fmap in Hin. destruct Hin as (x & Hk & Hx).
      destruct (H2 x Hx) as (Hnot & _). apply Hnot, elem_of_union. left.
      apply elem_of_singleton. symmetry. exact Hk.
    + intros x Hx. apply elem_of_cons in Hx. destruct Hx as [->|Hx].
      * split; [exact Ekey|]. split; [exact Eid|]. left.
      * destruct (H2 x Hx) as (Hnot & ? & ?).
        split; [intros Hc; apply Hnot, elem_of_union; right; exact Hc|].
        split; [assumption|]. right. assumption.
    + cbn [length]. lia.
    + intros x Hx. cbn [map]. apply elem_of_cons in Hx. destruct Hx as [->|Hx].
      * right. right. left.
      * destruct (H4 x Hx) as [H|[H|H]]; [auto| |].
        -- apply elem_of_union in H. destruct H as [H|H]; [|auto].
           apply elem_of_singleton in H. right. right. rewrite H. left.
        -- right. right. right. exact H.
Qed.

Lemma filterNewLoans_nothing (ids keys : gset string) (ls : list Loan.t) :
  (∀ l, l ∈ ls → Loan.id l ∈ ids ∨ loanKey host l ∈ keys) →
  filterNewLoans host ids keys ls = [].
Proof.
  induction ls as [|l ls IH]; intros H; cbn [filterNewLoans]; [reflexivity|].
  assert ((bool_decide (Loan.id l ∈ ids) || bool_decide (loanKey host l ∈ keys))
          = true) as ->.
  { apply orb_true_iff. destruct (H l ltac:(left)) as [Hl|Hl];
      [left|right]; apply bool_decide_eq_true; exact Hl. }
  apply IH. intros x Hx. apply H. right. exact Hx.
Qed.

Lemma Forall2_elem_of_l {A B} (P : A → B → Prop) l k x :
  Forall2 P l k → x ∈ l → ∃ y, y ∈ k ∧ P x y.
Proof.
  induction 1 as [|a b l k Hab _ IH]; intros Hx; [inversion Hx|].
  apply elem_of_cons in Hx. destruct Hx as [->|Hx].
  - exists b. split; [left|exact Hab].
  - destruct (IH Hx) as (y & Hy & HP). exists y. split; [right; exact Hy|exact HP].
Qed.

Lemma Forall2_elem_of_r {A B} (P : A → B → Prop) l k y :
  Forall2 P l k → y ∈ k → ∃ x, x ∈ l ∧ P x y.
Proof.
  induction 1 as [|a b l k Hab _ IH]; intros Hy; [inversion Hy|].
  apply elem_of_cons in Hy. destruct Hy as [->|Hy].
  - exists a. split; [left|exact Hab].
  - destruct (IH Hy) as (x & Hx & HP). exists x. split; [right; exact Hx|exact HP].
Qed.

Lemma importLoansFromFile_inv now user batch ledger s out :
  importLoansFromFile host now user batch ledger s = Return out →
  user ≠ "" ∧ batch ≠ []
  ∧ ∃ enriched,
      mapC (enrichImported host now user) batch = Return enriched
      ∧ out = (appendNew host ledger enriched,
               (generateAlerts host now
                  (Store.withLoans s (appendNew host ledger enriched).2)).1).
Proof.
  unfold importLoansFromFile. destruct (String.eqb_spec user ""); [discriminate|].
  destruct batch as [|c batch]; [discriminate|].
  destruct (mapC _ (c :: batch)) as [enriched|e]; [|discriminate].
  cbn. intros [= <-]. split; [assumption|]. split; [discriminate|].
  exists enriched. split; reflexivity.
Qed.

Lemma importLoansFromFile_run now user batch ledger s enriched :
  user ≠ "" → batch ≠ [] →
  mapC (enrichImported host now user) batch = Return enriched →
  importLoansFromFile host now user batch ledger s
  = Return (appendNew host ledger enriched,
            (generateAlerts host now
               (Store.withLoans s (appendNew host ledger enriched).2)).1).
Proof.
  intros Hu Hb Hm. unfold importLoansFromFile.
  destruct (String.eqb_spec user ""); [contradiction|].
  destruct batch as [|c batch]; [contradiction|].
  rewrite Hm. reflexivity.
Qed.

(** Candidates of the same rows are enriched together or not at all. *)
Lemma mapC_sameRow now0 now now' user batch batch' enriched :
  Forall2 (sameRow host now0) batch batch' →
  mapC (enrichImported host now user) batch = Return enriched →
  ∃ enriched', mapC (enrichImported host now' user) batch' = Return enriched'.
Proof.
  intros Hrel. revert enriched.
  induction Hrel as [|c c' batch batch' (_ & Hsched & _) _ IH]; intros enriched;
    cbn [mapC]; [eauto|].
  destruct (enrichImported host now user c) as [l|e] eqn:E; [|discriminate].
  destruct (mapC (enrichImported host now user) batch) as [ls|e]; [|discriminate].
  intros _. destruct (IH ls eq_refl) as [ls' ->].
  unfold enrichImported in E |- *.
  destruct (Candidate.paymentSchedule c) as [schedule|]; [|discriminate].
  destruct (Candidate.paymentSchedule c') as [schedule'|];
    [eexists; reflexivity|].
  discriminate (proj2 Hsched eq_refl).
Qed.


End AppendOnly.




(** ** Calculations and the schedule *)

(** At a rate of 0 the closed formula divides 0 by 0: before the end of the
    term calculateRemainingPrincipal returns NaN for every principal, and 0
    from the end of the term on. *)
Theorem calculateRemainingPrincipal_zero_rate (P : Qc) (n k : Z) :
  calculateRemainingPrincipal (Fin P) (ofZ 0) n k
  = if (n <=? k)%Z then ofZ 0 else NaN.
Proof.
  unfold calculateRemainingPrincipal. destruct (n <=? k)%Z; [reflexivity|]. cbv zeta.
  assert (div (div (ofZ 0) (ofZ 100)) (ofZ 12) = Fin 0%Qc) as ->
    by (vm_compute; f_equal; apply Qc_is_canon; reflexivity).
  assert (add (ofZ 1) (Fin 0%Qc) = Fin 1%Qc) as ->
    by (vm_compute; f_equal; apply Qc_is_canon; reflexivity).
  assert (pow (Fin 1%Qc) k = Fin 1%Qc) as ->.
  { destruct k as [|p|p]; cbn [pow].
    - unfold ofZ. rewrite Z2Qc_inj_1. reflexivity.
    - rewrite Qcpower_1. reflexivity.
    - rewrite Qcpower_1. vm_compute. reflexivity. }
  assert (sub (Fin 1%Qc) (ofZ 1) = Fin 0%Qc) as ->
    by (vm_compute; f_equal; apply Qc_is_canon; reflexivity).
  assert (∀ a, div (mul a (Fin 0%Qc)) (Fin 0%Qc) = NaN) as Hdiv.
  { intros [q| | |]; try reflexivity. cbn [mul].
    replace (q * 0)%Qc with 0%Qc by ring. reflexivity. }
  rewrite Hdiv. destruct (mul (Fin P) (Fin 1%Qc)); reflexivity.
Qed.

Lemma scheduleLoop_structure_exact id A mr t n : ∀ i rem schedule,
  scheduleLoop id A mr t n i rem = Return schedule →
  length schedule = n
  ∧ map Payment.id schedule
    = map (λ j, "payment-" +:+ id +:+ "-" +:+ pretty (j + 1)%Z) (seqZ i (Z.of_nat n))
  ∧ Forall (λ p, Payment.status p = "pending" ∧ Payment.paidDate p = None
                 ∧ Payment.amount p = A
                 ∧ Payment.principalAmount p = sub A (Payment.interestAmount p))
      schedule.
Proof.
  induction n as [|n IH]; intros i rem schedule; cbn [scheduleLoop].
  - intros [= <-]. repeat split. constructor.
  - destruct (dueDateOf t i) as [d|e]; cbn [mbind completion_bind]; [|discriminate].
    destruct (scheduleLoop id A mr t n (i + 1) _) as [rest|e] eqn:E;
      cbn [mbind completion_bind mret completion_ret]; [|discriminate].
    intros [= <-]. destruct (IH _ _ _ E) as (Hlen & Hids & Hall).
    cbn [length map Payment.id]. split; [f_equal; exact Hlen|]. split.
    + rewrite Nat2Z.inj_succ, seqZ_cons by lia. cbn [map]. f_equal.
      rewrite Hids. replace (Z.succ i) with (i + 1)%Z by lia.
      replace (Z.pred (Z.succ (Z.of_nat n))) with (Z.of_nat n) by lia. reflexivity.
    + constructor; [repeat split|exact Hall].
Qed.

Lemma generatePaymentSchedule_structure (host : Host) (id startDate : string)
    (amount rate : number) (n : Z) (schedule : list Payment.t) :
  generatePaymentSchedule host id amount rate n startDate = Return schedule →
  length schedule = Z.to_nat n
  ∧ map Payment.id schedule
    = map (λ j, "payment-" +:+ id +:+ "-" +:+ pretty (j + 1)%Z) (seqZ 0 n)
  ∧ Forall (λ p, Payment.status p = "pending" ∧ Payment.paidDate p = None
                 ∧ Payment.amount p = calculateMonthlyPayment amount rate n
                 ∧ Payment.principalAmount p
                   = sub (Payment.amount p) (Payment.interestAmount p)) schedule.
Proof.
  unfold generatePaymentSchedule. destruct (newDate host startDate) as [t|].
  - intros H. apply scheduleLoop_structure_exact in H. destruct H as (Hlen & Hids & Hall).
    split; [exact Hlen|]. split.
    + rewrite Hids. destruct (Z_lt_le_dec n 0) as [Hn|Hn].
      * rewrite Z2Nat.nonpos by lia. destruct n; try lia. reflexivity.
      * rewrite Z2Nat.id by lia. reflexivity.
    + eapply Forall_impl; [exact Hall|]. intros p (H1 & H2 & H3 & H4).
      rewrite H3. auto.
  - destruct (0 <? n)%Z eqn:E; [discriminate|]. intros [= <-].
    apply Z.ltb_ge in E. rewrite Z2Nat.nonpos by lia.
    split; [reflexivity|]. split; [|constructor].
    destruct n; try lia; reflexivity.
Qed.

(** The payments of a schedule generatePaymentSchedule returns, for every
    amount, rate and term: there are as many as the term has months (none for
    a term of 0 or less); payment [j] has the identifier
    [payment-<loan id>-<j>], so the identifiers are pairwise distinct; each is
    pending and unpaid, its amount is the one value calculateMonthlyPayment
    gives, and its principal portion is that amount less its interest
    portion. *)
Theorem generatePaymentSchedule_payments
    (host : Host) (id startDate : string) (amount rate : number) (n : Z)
    (schedule : list Payment.t) :
  generatePaymentSchedule host id amount rate n startDate = Return schedule →
  length schedule = Z.to_nat n
  ∧ NoDup (map Payment.id schedule)
  ∧ map Payment.id schedule
    = map (λ j, "payment-" +:+ id +:+ "-" +:+ pretty (j + 1)%Z) (seqZ 0 n)
  ∧ Forall (λ p, Payment.status p = "pending" ∧ Payment.paidDate p = None
                 ∧ Payment.amount p = calculateMonthlyPayment amount rate n
                 ∧ Payment.principalAmount p
                   = sub (Payment.amount p) (Payment.interestAmount p)) schedule.
Proof.
  intros H. apply generatePaymentSchedule_structure in H.
  destruct H as (Hlen & Hids & Hall).
  split; [exact Hlen|]. split; [|split; [exact Hids|exact Hall]].
  rewrite Hids. apply NoDup_fmap_2; [|apply NoDup_seqZ].
  intros j1 j2 Heq. do 3 apply (inj (String.append _)) in Heq.
  apply (inj pretty) in Heq. lia.
Qed.

Lemma generatePaymentSchedule_payments_witness :
  NoDup (map Payment.id
           (returned (generatePaymentSchedule exampleHost "loan-1" (ofZ 120000)
                        (ofZ 6) 3 "2024-01-15")))
  ∧ map Payment.id
      (returned (generatePaymentSchedule exampleHost "loan-1" (ofZ 120000) (ofZ 6) 3
                   "2024-01-15"))
    = ["payment-loan-1-1"; "payment-loan-1-2"; "payment-loan-1-3"].
Proof.
  destruct (generatePaymentSchedule exampleHost "loan-1" (ofZ 120000) (ofZ 6) 3
              "2024-01-15") as [schedule|e] eqn:E; [|vm_compute in E; discriminate].
  cbn [returned].
  destruct (generatePaymentSchedule_payments exampleHost "loan-1" "2024-01-15"
              (ofZ 120000) (ofZ 6) 3 schedule E) as (_ & Hnd & Hids & _).
  split; [exact Hnd|]. rewrite Hids. vm_compute. reflexivity.
Defined.
(** ** Date helpers *)

Section DateTheorems.

Variable host : Host.

Lemma ofZ_sub (a b : Z) : sub (ofZ a) (ofZ b) = ofZ (a - b).
Proof.
  unfold sub, ofZ. cbn [neg add]. f_equal.
  rewrite <- Z2Qc_inj_opp, <- Z2Qc_inj_add. reflexivity.
Qed.

Lemma strictEq_ofZ (a b : Z) : strictEq (ofZ a) (ofZ b) = (a =? b).
Proof.
  unfold strictEq, ofZ.
  destruct (Qc_of_Z a ?= Qc_of_Z b)%Qc eqn:E.
  - apply Qceq_alt in E. apply Z2Qc_inj in E. subst. symmetry. apply Z.eqb_refl.
  - symmetry. apply Z.eqb_neq. intros ->. rewrite (proj1 (Qceq_alt _ _) eq_refl) in E.
    discriminate.
  - symmetry. apply Z.eqb_neq. intros ->. rewrite (proj1 (Qceq_alt _ _) eq_refl) in E.
    discriminate.
Qed.

(** isDatePast and isDateFuture: never both; neither for no date, an
    unreadable date, or the present instant.  A past date has a number of
    days until it that is 0 or less, a future date 0 or more.  Because the
    days are truncated towards zero, a date that passed less than a day ago
    is past and within [days] days at once, for every [days >= 0]. *)
Theorem isDatePast_isDateFuture (now : Z) (s : string) :
  isDatePast host now s && isDateFuture host now s = false
  ∧ (isDatePast host now s = false ∧ isDateFuture host now s = false
     ↔ s = "" ∨ parseISO host s = None ∨ parseISO host s = Some now)
  ∧ (isDatePast host now s = true →
       ∃ d, daysUntil host now s = Some (ofZ d) ∧ d ≤ 0)
  ∧ (isDateFuture host now s = true →
       ∃ d, daysUntil host now s = Some (ofZ d) ∧ 0 ≤ d)
  ∧ (∀ days, 0 ≤ days →
       (isDatePast host now s = true ∧ isWithinDays host now s (ofZ days) = true
        ↔ s ≠ "" ∧ ∃ t, parseISO host s = Some t ∧ - msPerDay < t - now < 0)).
Proof.
  split; [|split; [|split; [|split]]].
  - unfold isDatePast, isDateFuture. destruct (String.eqb s ""); [reflexivity|].
    destruct (parseISO host s) as [t|]; [|reflexivity]. cbn [isPast isFuture].
    destruct (Z.ltb_spec t now), (Z.ltb_spec now t); try reflexivity. lia.
  - unfold isDatePast, isDateFuture. destruct (String.eqb_spec s "") as [->|Hs].
    { split; [intros _; left; reflexivity|intros _; split; reflexivity]. }
    destruct (parseISO host s) as [t|]; cbn [isPast isFuture].
    + rewrite !Z.ltb_ge. split.
      * intros [H1 H2]. right. right. f_equal. lia.
      * intros [H|[H|H]]; [contradiction|discriminate|]. injection H as ->. lia.
    + split; [intros _; right; left; reflexivity|intros _; split; reflexivity].
  - unfold isDatePast, daysUntil. destruct (String.eqb s ""); [discriminate|].
    destruct (parseISO host s) as [t|]; [|discriminate]. cbn [isPast differenceInDays].
    intros H. apply Z.ltb_lt in H. eexists. split; [reflexivity|].
    apply Z.quot_le_upper_bound; unfold msPerDay; lia.
  - unfold isDateFuture, daysUntil. destruct (String.eqb s ""); [discriminate|].
    destruct (parseISO host s) as [t|]; [|discriminate].
    cbn [isFuture differenceInDays].
    intros H. apply Z.ltb_lt in H. eexists. split; [reflexivity|].
    apply Z.quot_pos; unfold msPerDay; lia.
  - intros days Hdays. rewrite isDatePast_spec, (isWithinDays_spec host now s days Hdays).
    split.
    + intros [[Hs (t & Ht & Hlt)] [_ (t' & Ht' & Hb)]].
      split; [exact Hs|]. exists t. split; [exact Ht|].
      rewrite Ht in Ht'. injection Ht' as <-. lia.
    + intros [Hs (t & Ht & Hb)]. split; (split; [exact Hs|]); exists t;
        (split; [exact Ht|]); unfold msPerDay in *; lia.
Qed.

(** compareDates is antisymmetric; it is 0 exactly for two readable dates at
    the same instant and negative exactly when the first is the earlier; when
    either date is unreadable it is NaN, not the 0 of the catch clause. *)
Theorem compareDates_order (a b : string) :
  compareDates host a b = neg (compareDates host b a)
  ∧ (strictEq (compareDates host a b) (ofZ 0) = true
     ↔ ∃ t, parseISO host a = Some t ∧ parseISO host b = Some t)
  ∧ (lt (compareDates host a b) (ofZ 0) = true
     ↔ ∃ t1 t2, parseISO host a = Some t1 ∧ parseISO host b = Some t2 ∧ t1 < t2)
  ∧ (isNaN (compareDates host a b) = true
     ↔ parseISO host a = None ∨ parseISO host b = None).
Proof.
  unfold compareDates.
  destruct (parseISO host a) as [t1|], (parseISO host b) as [t2|]; cbn [getTime].
  - rewrite !ofZ_sub. split; [|split; [|split]].
    + unfold ofZ. cbn [neg]. f_equal. rewrite <- Z2Qc_inj_opp. f_equal. lia.
    + rewrite strictEq_ofZ, Z.eqb_eq. split.
      * intros H. exists t1. split; [reflexivity|]. f_equal. lia.
      * intros (t & [= ->] & [= ->]). lia.
    + rewrite lt_ofZ, Z.ltb_lt. split.
      * intros H. exists t1, t2. repeat split. lia.
      * intros (t1' & t2' & [= ->] & [= ->] & H). lia.
    + split; [discriminate|]. intros [H|H]; discriminate.
  - split; [reflexivity|]. split; [|split].
    + split; [discriminate|]. intros (t & _ & H). discriminate.
    + split; [discriminate|]. intros (t & t' & _ & H & _). discriminate.
    + split; [intros _; right; reflexivity|reflexivity].
  - split; [reflexivity|]. split; [|split].
    + split; [discriminate|]. intros (t & H & _). discriminate.
    + split; [discriminate|]. intros (t & t' & H & _). discriminate.
    + split; [intros _; left; reflexivity|reflexivity].
  - split; [reflexivity|]. split; [|split].
    + split; [discriminate|]. intros (t & H & _). discriminate.
    + split; [discriminate|]. intros (t & t' & H & _). discriminate.
    + split; [intros _; left; reflexivity|reflexivity].
Qed.

End DateTheorems.
(** ** The store: loans, ownership and selection *)

Section StoreTheorems.

Variable host : Host.

Lemma determineLoanStatus_ext now l l' :
  Loan.paymentSchedule l' = Loan.paymentSchedule l →
  Loan.obligations l' = Loan.obligations l →
  determineLoanStatus host now l' = determineLoanStatus host now l.
Proof. intros H1 H2. unfold determineLoanStatus. rewrite H1, H2. reflexivity. Qed.

Lemma calculateRiskScore_ext now l l' :
  Loan.paymentSchedule l' = Loan.paymentSchedule l →
  Loan.obligations l' = Loan.obligations l →
  Loan.endDate l' = Loan.endDate l →
  Loan.status l' = Loan.status l →
  calculateRiskScore host now l' = calculateRiskScore host now l.
Proof.
  intros H1 H2 H3 H4. unfold calculateRiskScore. rewrite H1, H2, H3, H4. reflexivity.
Qed.

Lemma enrichLoan_fixed (now : Z) (loan : Loan.t) :
  enrichLoan host now (enrichLoan host now loan) = enrichLoan host now loan
  ∧ Loan.status (enrichLoan host now loan)
    = determineLoanStatus host now (enrichLoan host now loan)
  ∧ Loan.riskScore (enrichLoan host now loan)
    = calculateRiskScore host now (enrichLoan host now loan).
Proof.
  assert (determineLoanStatus host now (enrichLoan host now loan)
          = determineLoanStatus host now loan) as Hs
    by (apply determineLoanStatus_ext; reflexivity).
  assert (calculateRiskScore host now (enrichLoan host now loan)
          = calculateRiskScore host now
              (Loan.withStatus loan (determineLoanStatus host now loan))) as Hr
    by (apply calculateRiskScore_ext; reflexivity).
  split; [|split].
  - unfold enrichLoan at 1. rewrite Hs.
    rewrite (calculateRiskScore_ext now
               (Loan.withStatus loan (determineLoanStatus host now loan))
               (Loan.withStatus (enrichLoan host now loan)
                  (determineLoanStatus host now loan))) by reflexivity.
    destruct loan; reflexivity.
  - rewrite Hs. reflexivity.
  - rewrite Hr. reflexivity.
Qed.

(** enrichLoan is idempotent: the status and the risk score it stores are
    those it computes again from the enriched loan, at the same instant. *)
Theorem enrichLoan_idempotent (now : Z) (loan : Loan.t) :
  enrichLoan host now (enrichLoan host now loan) = enrichLoan host now loan
  ∧ Loan.status (enrichLoan host now loan)
    = determineLoanStatus host now (enrichLoan host now loan)
  ∧ Loan.riskScore (enrichLoan host now loan)
    = calculateRiskScore host now (enrichLoan host now loan).
Proof. apply enrichLoan_fixed. Qed.


Lemma sameOwner_Some (m : option string) (u : string) :
  sameOwner m (Some u) = true ↔ m = Some u.
Proof. unfold sameOwner. apply bool_decide_eq_true. Qed.

Lemma isSet_Some (u : string) : isSet (Some u) = true ↔ u ≠ "".
Proof.
  unfold isSet. destruct (String.eqb_spec u ""); cbn; split; congruence.
Qed.

Lemma find_app_l {A} (p : A → bool) (l k : list A) (x : A) :
  List.find p l = Some x → List.find p (l ++ k) = Some x.
Proof. induction l as [|a l IH]; cbn; [discriminate|]. destruct (p a); auto. Qed.

Lemma find_app_r {A} (p : A → bool) (l k : list A) :
  List.find p l = None → List.find p (l ++ k) = List.find p k.
Proof. induction l as [|a l IH]; cbn; [reflexivity|]. destruct (p a); [discriminate|auto]. Qed.

Lemma find_id_None (loanId : string) (loans : list Loan.t) :
  List.find (λ l, String.eqb (Loan.id l) loanId) loans = None
  ↔ loanId ∉ map Loan.id loans.
Proof.
  induction loans as [|l loans IH]; cbn.
  - split; [intros _; apply not_elem_of_nil|reflexivity].
  - destruct (String.eqb_spec (Loan.id l) loanId) as [E|E].
    + split; [discriminate|]. intros H. exfalso. apply H. rewrite E. left.
    + rewrite IH. rewrite not_elem_of_cons. split; [intros H; split; [congruence|exact H]|].
      intros [_ H]. exact H.
Qed.

Lemma find_filter_kept {A} (p f : A → bool) (l : list A) :
  (∀ x, p x = true → f x = true) →
  List.find p (List.filter f l) = List.find p l.
Proof.
  intros H. induction l as [|a l IH]; [reflexivity|]. cbn.
  destruct (f a) eqn:Ef; cbn.
  - destruct (p a); [reflexivity|exact IH].
  - destruct (p a) eqn:Ep; [|exact IH]. rewrite (H a Ep) in Ef. discriminate.
Qed.

(** addLoan and getLoan: with a user signed in and an identifier no loan of
    the store has, the loan added is the one getLoan returns for it; it is
    managed by the current user and ends the list getLoans returns.  What
    getLoan returns for any other identifier, or for an identifier the store
    already had, is unchanged: addLoan refuses no duplicate, the loan with a
    duplicate identifier is added but stays hidden behind the first. *)
Theorem addLoan_getLoan (now : Z) (loan : Loan.t) (s : Store.t) (u : string) :
  Store.currentUserId s = Some u → u ≠ "" →
  let s' := (addLoan host now loan s).1 in
  let added := (addLoan host now loan s).2 in
  Store.loans s' = Store.loans s ++ [added]
  ∧ Loan.id added = Loan.id loan
  ∧ Loan.managedBy added = Some u
  ∧ added = enrichLoan host now added
  ∧ getLoans s' = getLoans s ++ [added]
  ∧ (Loan.id loan ∉ map Loan.id (Store.loans s) →
       getLoan (Loan.id loan) s' = Some added)
  ∧ (∀ loanId, loanId ≠ Loan.id loan ∨ loanId ∈ map Loan.id (Store.loans s) →
       getLoan loanId s' = getLoan loanId s).
Proof.
  intros Hu Hne s' added.
  assert (Loan.managedBy added = Some u) as Hm by (cbn; exact Hu).
  assert (Loan.id added = Loan.id loan) as Hid by reflexivity.
  assert (Store.loans s' = Store.loans s ++ [added]) as Hl by reflexivity.
  assert (Store.currentUserId s' = Store.currentUserId s) as Hc by reflexivity.
  assert (added = enrichLoan host now added) as He
    by (symmetry; apply enrichLoan_fixed).
  assert (isSet (Store.currentUserId s) = true) as Hset
    by (rewrite Hu; apply isSet_Some, Hne).
  assert (sameOwner (Loan.managedBy added) (Store.currentUserId s) = true) as Hown
    by (rewrite Hm, Hu; apply sameOwner_Some; reflexivity).
  clearbody s' added.
  split; [exact Hl|]. split; [exact Hid|]. split; [exact Hm|]. split; [exact He|].
  split; [|split].
  - unfold getLoans. rewrite Hc, Hl, Hset, List.filter_app. f_equal.
    cbn [List.filter]. rewrite Hown. reflexivity.
  - intros Hfresh. apply find_id_None in Hfresh. unfold getLoan.
    rewrite Hc, Hl, (find_app_r _ _ _ Hfresh). cbn [List.find].
    rewrite Hid, String.eqb_refl, Hset, Hown. reflexivity.
  - intros loanId Hloan. unfold getLoan. rewrite Hc, Hl.
    destruct (List.find (λ l, String.eqb (Loan.id l) loanId) (Store.loans s))
      as [found|] eqn:Hf.
    + rewrite (find_app_l _ _ _ _ Hf). reflexivity.
    + rewrite (find_app_r _ _ _ Hf). cbn [List.find]. rewrite Hid.
      destruct Hloan as [Hloan|Hloan].
      * destruct (String.eqb_spec (Loan.id loan) loanId); [congruence|reflexivity].
      * apply find_id_None in Hf. contradiction.
Qed.

(** getLoan and ownership: a loan it returns is the first loan of the store
    with that identifier; with a user signed in it is a loan that user
    manages, never one of another manager; with no user signed in it is
    returned whoever manages it. *)
Theorem getLoan_isolation (loanId : string) (s : Store.t) :
  (∀ l, getLoan loanId s = Some l →
        List.find (λ l, String.eqb (Loan.id l) loanId) (Store.loans s) = Some l
        ∧ l ∈ Store.loans s ∧ Loan.id l = loanId)
  ∧ (∀ u l, Store.currentUserId s = Some u → u ≠ "" →
            getLoan loanId s = Some l → Loan.managedBy l = Some u)
  ∧ (isSet (Store.currentUserId s) = false →
       getLoan loanId s
       = List.find (λ l, String.eqb (Loan.id l) loanId) (Store.loans s)).
Proof.
  assert (∀ l, getLoan loanId s = Some l →
            List.find (λ l, String.eqb (Loan.id l) loanId) (Store.loans s) = Some l)
    as Hfind.
  { intros l. unfold getLoan.
    destruct (List.find _ (Store.loans s)) as [found|]; [|discriminate].
    destruct (isSet _); [|auto].
    destruct (sameOwner _ _); [auto|discriminate]. }
  split; [|split].
  - intros l Hl. pose proof (Hfind l Hl) as Hf. split; [exact Hf|].
    apply find_some_inv in Hf. destruct Hf as [Hin Hid].
    split; [exact Hin|]. apply String.eqb_eq, Hid.
  - intros u l Hu Hne. unfold getLoan.
    destruct (List.find _ (Store.loans s)) as [found|]; [|discriminate].
    rewrite Hu. rewrite (proj2 (isSet_Some u) Hne).
    destruct (sameOwner _ _) eqn:E; [|discriminate].
    intros [= <-]. apply sameOwner_Some, E.
  - intros Hset. unfold getLoan. rewrite Hset.
    destruct (List.find _ (Store.loans s)); reflexivity.
Qed.


(** deleteLoan, with a user signed in: it removes the loans with that
    identifier that the user manages and no other loan; afterwards getLoan
    finds nothing under that identifier, what it returns for every other
    identifier is unchanged, and the user's loans are the former ones without
    that identifier.  The selection is cleared when it was that identifier,
    whether or not a loan was removed. *)
Theorem deleteLoan_getLoan (loanId : string) (s : Store.t) (u : string) :
  Store.currentUserId s = Some u → u ≠ "" →
  let s' := deleteLoan loanId s in
  getLoan loanId s' = None
  ∧ (∀ other, other ≠ loanId → getLoan other s' = getLoan other s)
  ∧ (∀ l, l ∈ Store.loans s'
          ↔ l ∈ Store.loans s ∧ ¬ (Loan.id l = loanId ∧ Loan.managedBy l = Some u))
  ∧ getLoans s' = List.filter (λ l, negb (String.eqb (Loan.id l) loanId)) (getLoans s)
  ∧ Store.selectedLoanId s'
    = (if decide (Store.selectedLoanId s = Some loanId) then None
       else Store.selectedLoanId s).
Proof.
  intros Hu Hne s'.
  assert (isSet (Store.currentUserId s) = true) as Hset
    by (rewrite Hu; apply isSet_Some, Hne).
  assert (∀ l, l ∈ Store.loans s'
               ↔ l ∈ Store.loans s
                 ∧ ¬ (Loan.id l = loanId ∧ Loan.managedBy l = Some u)) as Hmem.
  { intros l. unfold s', deleteLoan. cbn [Store.loans]. rewrite !list_elem_of_In.
    rewrite List.filter_In, Hu.
    destruct (String.eqb_spec (Loan.id l) loanId) as [E|E].
    - rewrite negb_true_iff, <- not_true_iff_false, sameOwner_Some. tauto.
    - tauto. }
  split; [|split; [|split; [exact Hmem|split]]].
  - unfold getLoan.
    destruct (List.find _ (Store.loans s')) as [found|] eqn:Hf; [|reflexivity].
    apply find_some_inv in Hf. destruct Hf as [Hin Hid]. apply String.eqb_eq in Hid.
    apply Hmem in Hin. destruct Hin as [_ Hnot].
    cbn [s' deleteLoan Store.currentUserId]. rewrite Hset, Hu.
    destruct (sameOwner (Loan.managedBy found) (Some u)) eqn:E; [|reflexivity].
    apply sameOwner_Some in E. exfalso. apply Hnot. split; assumption.
  - intros other Hother. unfold getLoan.
    cbn [s' deleteLoan Store.currentUserId Store.loans].
    rewrite find_filter_kept; [reflexivity|].
    intros l Hl. apply String.eqb_eq in Hl.
    destruct (String.eqb_spec (Loan.id l) loanId); [congruence|reflexivity].
  - unfold getLoans. cbn [s' deleteLoan Store.currentUserId Store.loans].
    rewrite Hset. clear Hmem. induction (Store.loans s) as [|l loans IH]; [reflexivity|].
    cbn [List.filter].
    destruct (String.eqb (Loan.id l) loanId) eqn:E;
      destruct (sameOwner (Loan.managedBy l) (Store.currentUserId s)) eqn:Eo;
      cbn [negb List.filter]; rewrite ?E, ?Eo; cbn [negb]; rewrite IH; reflexivity.
  - cbn [s' deleteLoan Store.selectedLoanId].
    destruct (Store.selectedLoanId s) as [selected|]; [|case_decide; reflexivity].
    destruct (String.eqb_spec selected loanId) as [->|E].
    + rewrite decide_True by reflexivity. reflexivity.
    + rewrite decide_False by congruence. reflexivity.
Qed.


Lemma determineLoanStatus_all_paid now loan :
  Forall (λ p, Payment.status p = "paid") (Loan.paymentSchedule loan) →
  determineLoanStatus host now loan = "paid_off".
Proof.
  intros Hpaid. unfold determineLoanStatus.
  assert (count (λ p, String.eqb (Payment.status p) "overdue") (Loan.paymentSchedule loan)
          = 0%nat) as ->.
  { unfold count. induction Hpaid as [|p ps Hp _ IH]; [reflexivity|].
    cbn [List.filter]. rewrite Hp. exact IH. }
  cbn [Nat.leb].
  assert (forallb (λ p, String.eqb (Payment.status p) "paid") (Loan.paymentSchedule loan)
          = true) as ->; [|reflexivity].
  induction Hpaid as [|p ps Hp _ IH]; [reflexivity|].
  cbn [forallb]. rewrite Hp, IH. reflexivity.
Qed.

(** updatePaymentStatus, with a user signed in: a loan with another
    identifier or another manager is left as it is; a loan of that identifier
    that the user manages keeps its identifier, its manager and the
    identifiers of its payments, its payments of the given identifier get the
    status and the paid date, and status and risk score are computed again;
    when that makes every payment paid the loan is paid off.  Nothing else of
    the store changes. *)
Theorem updatePaymentStatus_effect (now : Z) (loanId paymentId status : string)
    (paidDate : option string) (s : Store.t) (u : string) :
  Store.currentUserId s = Some u →
  let s' := updatePaymentStatus host now loanId paymentId status paidDate s in
  Forall2 (λ l l',
      (¬ (Loan.id l = loanId ∧ Loan.managedBy l = Some u) → l' = l)
      ∧ (Loan.id l = loanId ∧ Loan.managedBy l = Some u →
           Loan.id l' = Loan.id l
           ∧ Loan.managedBy l' = Loan.managedBy l
           ∧ map Payment.id (Loan.paymentSchedule l')
             = map Payment.id (Loan.paymentSchedule l)
           ∧ Forall (λ p', Payment.id p' = paymentId →
                           Payment.status p' = status ∧ Payment.paidDate p' = paidDate)
               (Loan.paymentSchedule l')
           ∧ l' = enrichLoan host now l'
           ∧ (status = "paid" →
              Forall (λ p, Payment.id p ≠ paymentId → Payment.status p = "paid")
                (Loan.paymentSchedule l) →
              Loan.status l' = "paid_off")))
    (Store.loans s) (Store.loans s')
  ∧ Store.filters s' = Store.filters s
  ∧ Store.alerts s' = Store.alerts s
  ∧ Store.selectedLoanId s' = Store.selectedLoanId s
  ∧ Store.currentUserId s' = Store.currentUserId s.
Proof.
  intros Hu s'. split; [|repeat split].
  unfold s', updatePaymentStatus. cbn [Store.withLoans Store.loans]. rewrite Hu.
  induction (Store.loans s) as [|l loans IH]; [constructor|].
  cbn [map]. constructor; [|exact IH]. clear IH.
  destruct (String.eqb_spec (Loan.id l) loanId) as [Hid|Hid]; cbn [negb orb].
  2:{ split; [reflexivity|]. intros [H _]. contradiction. }
  destruct (sameOwner (Loan.managedBy l) (Some u)) eqn:Ho; cbn [negb].
  2:{ split; [reflexivity|]. intros [_ H]. apply sameOwner_Some in H. congruence. }
  split; [intros H; exfalso; apply H; split; [exact Hid|apply sameOwner_Some, Ho]|].
  intros _.
  set (schedule' := map _ (Loan.paymentSchedule l)).
  assert (Loan.paymentSchedule
            (enrichLoan host now (Loan.withPaymentSchedule l schedule')) = schedule')
    as Hs by reflexivity.
  split; [reflexivity|]. split; [reflexivity|].
  split; [|split; [|split]].
  - rewrite Hs. unfold schedule'. rewrite map_map. apply map_ext. intros p.
    destruct (String.eqb (Payment.id p) paymentId); reflexivity.
  - rewrite Hs. unfold schedule'. apply Forall_forall. intros p' Hin.
    apply list_elem_of_In, in_map_iff in Hin. destruct Hin as (p & <- & _).
    destruct (String.eqb_spec (Payment.id p) paymentId) as [E|E]; cbn.
    + intros _. split; reflexivity.
    + intros E'. contradiction.
  - symmetry. apply enrichLoan_fixed.
  - intros -> Hpaid.
    change (Loan.status (enrichLoan host now (Loan.withPaymentSchedule l schedule')))
      with (determineLoanStatus host now (Loan.withPaymentSchedule l schedule')).
    apply determineLoanStatus_all_paid.
    cbn [Loan.withPaymentSchedule Loan.paymentSchedule]. unfold schedule'.
    apply Forall_forall. intros p' Hin.
    apply list_elem_of_In, in_map_iff in Hin. destruct Hin as (p & <- & Hin).
    destruct (String.eqb_spec (Payment.id p) paymentId) as [E|E]; [reflexivity|].
    rewrite Forall_forall in Hpaid. apply (Hpaid p); [|exact E].
    apply list_elem_of_In, Hin.
Qed.


(** updateObligationStatus checks no owner: in every loan of that identifier,
    whoever manages it and whoever is signed in, the obligations of the given
    identifier get the completion flag and date, the other obligations and the
    payments stay, and status and risk score are computed again; the loans of
    other identifiers are left as they are. *)
Theorem updateObligationStatus_effect (now : Z) (loanId obligationId : string)
    (completed : bool) (completedDate : option string) (s : Store.t) :
  let s' := updateObligationStatus host now loanId obligationId completed
              completedDate s in
  Forall2 (λ l l',
      Loan.id l' = Loan.id l
      ∧ Loan.managedBy l' = Loan.managedBy l
      ∧ Loan.paymentSchedule l' = Loan.paymentSchedule l
      ∧ (if decide (Loan.id l = loanId) then
           map Obligation.id (Loan.obligations l') = map Obligation.id (Loan.obligations l)
           ∧ Forall2 (λ o o',
                 if decide (Obligation.id o = obligationId)
                 then Obligation.completed o' = completed
                      ∧ Obligation.completedDate o' = completedDate
                      ∧ Obligation.dueDate o' = Obligation.dueDate o
                      ∧ Obligation.title o' = Obligation.title o
                 else o' = o)
               (Loan.obligations l) (Loan.obligations l')
           ∧ l' = enrichLoan host now l'
         else l' = l))
    (Store.loans s) (Store.loans s')
  ∧ Store.filters s' = Store.filters s
  ∧ Store.alerts s' = Store.alerts s
  ∧ Store.selectedLoanId s' = Store.selectedLoanId s
  ∧ Store.currentUserId s' = Store.currentUserId s.
Proof.
  intros s'. split; [|repeat split].
  unfold s', updateObligationStatus. cbn [Store.withLoans Store.loans].
  induction (Store.loans s) as [|l loans IH]; [constructor|].
  cbn [map]. constructor; [|exact IH]. clear IH.
  destruct (String.eqb_spec (Loan.id l) loanId) as [Hid|Hid]; cbn [negb].
  2:{ rewrite decide_False by exact Hid. repeat split. }
  rewrite decide_True by exact Hid.
  split; [reflexivity|]. split; [reflexivity|]. split; [reflexivity|].
  set (obligations' := map _ (Loan.obligations l)).
  assert (Loan.obligations
            (enrichLoan host now (LoanWith.withObligations l obligations'))
          = obligations') as Ho by reflexivity.
  rewrite Ho. split; [|split].
  - unfold obligations'. rewrite map_map. apply map_ext. intros o.
    destruct (String.eqb (Obligation.id o) obligationId); reflexivity.
  - unfold obligations'. clear Ho obligations'.
    generalize (Loan.obligations l). intros os.
    induction os as [|o os IH]; [constructor|].
    cbn [map]. constructor; [|exact IH].
    destruct (String.eqb_spec (Obligation.id o) obligationId) as [E|E].
    + rewrite decide_True by exact E. repeat split.
    + rewrite decide_False by exact E. reflexivity.
  - symmetry. apply enrichLoan_fixed.
Qed.

Lemma map_id_ext {A} (f : A → A) (l : list A) :
  (∀ x, x ∈ l → f x = x) → map f l = l.
Proof.
  induction l as [|a l IH]; intros H; [reflexivity|].
  cbn [map]. rewrite H by left. rewrite IH; [reflexivity|].
  intros x Hx. apply H. right. exact Hx.
Qed.

Lemma find_map_other (f : Loan.t → Loan.t) (loanId : string) (loans : list Loan.t) :
  (∀ l, Loan.id (f l) = Loan.id l) →
  List.find (λ l, String.eqb (Loan.id l) loanId) (map f loans)
  = f <$> List.find (λ l, String.eqb (Loan.id l) loanId) loans.
Proof.
  intros Hf. induction loans as [|l loans IH]; [reflexivity|].
  cbn [map List.find]. rewrite Hf.
  destruct (String.eqb (Loan.id l) loanId); [reflexivity|exact IH].
Qed.

Lemma addCommunication_read (now : Z) (loanId : string)
    (c : Communication.t) (s : Store.t) :
  let s' := addCommunication now loanId c s in
  let stored :=
    {| Communication.id :=
         orStr (Communication.id c) ("comm-" +:+ loanId +:+ "-" +:+ pretty now);
       Communication.date := orStr (Communication.date c) (toISOString now);
       Communication.type := Communication.type c;
       Communication.direction := Communication.direction c;
       Communication.subject := Communication.subject c;
       Communication.content := Communication.content c;
       Communication.author := Communication.author c;
       Communication.recipient := Communication.recipient c;
       Communication.status := Communication.status c;
       Communication.automated := Communication.automated c;
       Communication.relatedPaymentId := Communication.relatedPaymentId c;
       Communication.relatedObligationId := Communication.relatedObligationId c |} in
  getLoanCommunications loanId s'
  = (if decide (loanId ∈ map Loan.id (Store.loans s))
     then getLoanCommunications loanId s ++ [stored] else [])
  ∧ (∀ other, other ≠ loanId →
       getLoanCommunications other s' = getLoanCommunications other s)
  ∧ map Loan.id (Store.loans s') = map Loan.id (Store.loans s)
  ∧ (loanId ∉ map Loan.id (Store.loans s) → s' = s).
Proof.
  intros s' stored.
  set (f := λ loan : Loan.t,
         if String.eqb (Loan.id loan) loanId
         then Loan.withCommunications loan (Loan.communications loan ++ [stored])
         else loan).
  assert (Store.loans s' = map f (Store.loans s)) as Hl by reflexivity.
  assert (∀ l, Loan.id (f l) = Loan.id l) as Hf.
  { intros l. unfold f. destruct (String.eqb (Loan.id l) loanId); reflexivity. }
  split; [|split; [|split]].
  - unfold getLoanCommunications. rewrite Hl, (find_map_other f loanId _ Hf).
    destruct (List.find _ (Store.loans s)) as [found|] eqn:Hfind.
    + rewrite decide_True.
      * apply find_some_inv in Hfind. destruct Hfind as [_ Hid].
        cbn [fmap option_fmap option_map]. unfold f. rewrite Hid. reflexivity.
      * destruct (decide (loanId ∈ map Loan.id (Store.loans s))) as [H|H]; [exact H|].
        apply find_id_None in H. congruence.
    + apply find_id_None in Hfind. rewrite decide_False by exact Hfind. reflexivity.
  - intros other Hother. unfold getLoanCommunications.
    rewrite Hl, (find_map_other f other _ Hf).
    destruct (List.find _ (Store.loans s)) as [found|] eqn:Hfind; [|reflexivity].
    apply find_some_inv in Hfind. destruct Hfind as [_ Hid]. apply String.eqb_eq in Hid.
    cbn [fmap option_fmap option_map]. unfold f.
    destruct (String.eqb_spec (Loan.id found) loanId); [congruence|reflexivity].
  - rewrite Hl, map_map. apply map_ext, Hf.
  - intros Hin.
    assert (map f (Store.loans s) = Store.loans s) as Hsame.
    { apply map_id_ext. intros l Hlin. unfold f.
      destruct (String.eqb_spec (Loan.id l) loanId) as [E|E]; [|reflexivity].
      exfalso. apply Hin. rewrite <- E. apply list_elem_of_fmap_2, Hlin. }
    unfold s', addCommunication. fold stored. fold f. rewrite Hsame.
    destruct s; reflexivity.
Qed.



(** addCommunication and getLoanCommunications: for a loan of the store the
    communications read back are the former ones followed by the one added,
    with the identifier [comm-<loan id>-<now>] and the current time where it
    brought none; the communications of loans with another identifier are
    unchanged; and for an identifier no loan has the store is left as it
    is. *)
Theorem addCommunication_getLoanCommunications (now : Z) (loanId : string)
    (c : Communication.t) (s : Store.t) :
  let s' := addCommunication now loanId c s in
  let stored :=
    {| Communication.id :=
         orStr (Communication.id c) ("comm-" +:+ loanId +:+ "-" +:+ pretty now);
       Communication.date := orStr (Communication.date c) (toISOString now);
       Communication.type := Communication.type c;
       Communication.direction := Communication.direction c;
       Communication.subject := Communication.subject c;
       Communication.content := Communication.content c;
       Communication.author := Communication.author c;
       Communication.recipient := Communication.recipient c;
       Communication.status := Communication.status c;
       Communication.automated := Communication.automated c;
       Communication.relatedPaymentId := Communication.relatedPaymentId c;
       Communication.relatedObligationId := Communication.relatedObligationId c |} in
  getLoanCommunications loanId s'
  = (if decide (loanId ∈ map Loan.id (Store.loans s))
     then getLoanCommunications loanId s ++ [stored] else [])
  ∧ (∀ other, other ≠ loanId →
       getLoanCommunications other s' = getLoanCommunications other s)
  ∧ map Loan.id (Store.loans s') = map Loan.id (Store.loans s)
  ∧ (loanId ∉ map Loan.id (Store.loans s) → s' = s).
Proof. apply addCommunication_read. Qed.

(** sendEmailNotification: when no loan has the identifier, or the first loan
    that has it has no borrower e-mail, the store is left as it is; otherwise
    the communications of the loan grow by exactly one, an automated outbound
    e-mail to the borrower's address, marked sent, written by System, related
    to the payment or obligation of the notification and dated now. *)
Theorem sendEmailNotification_effect (now : Z) (loanId type : string)
    (data : EmailData) (s : Store.t) :
  let s' := sendEmailNotification host now loanId type data s in
  let found := List.find (λ l, String.eqb (Loan.id l) loanId) (Store.loans s) in
  (found = None ∨ Loan.borrowerEmail <$> found = Some "" → s' = s)
  ∧ (∀ loan, found = Some loan → Loan.borrowerEmail loan ≠ "" →
       ∃ sent : Communication.t,
         getLoanCommunications loanId s' = getLoanCommunications loanId s ++ [sent]
         ∧ Communication.type sent = "email"
         ∧ Communication.direction sent = "outbound"
         ∧ Communication.automated sent = true
         ∧ Communication.status sent = "sent"
         ∧ Communication.author sent = "System"
         ∧ Communication.recipient sent = Loan.borrowerEmail loan
         ∧ Communication.relatedPaymentId sent = e_paymentId data
         ∧ Communication.relatedObligationId sent = e_obligationId data
         ∧ Communication.id sent = "comm-" +:+ loanId +:+ "-" +:+ pretty now
         ∧ Communication.date sent = toISOString now)
  ∧ (∀ other, other ≠ loanId →
       getLoanCommunications other s' = getLoanCommunications other s).
Proof.
  intros s' found. split; [|split].
  - intros H. unfold s', sendEmailNotification. fold found.
    destruct found as [loan|]; [|reflexivity].
    destruct H as [H|H]; [discriminate|]. injection H as H. rewrite H. reflexivity.
  - intros loan Hfound Hmail. unfold s', sendEmailNotification. fold found.
    rewrite Hfound.
    destruct (String.eqb_spec (Loan.borrowerEmail loan) ""); [contradiction|].
    assert (loanId ∈ map Loan.id (Store.loans s)) as Hin.
    { destruct (decide (loanId ∈ map Loan.id (Store.loans s))) as [H|H]; [exact H|].
      apply find_id_None in H. unfold found in Hfound. congruence. }
    destruct (String.eqb type "payment_reminder");
      [|destruct (String.eqb type "payment_overdue");
        [|destruct (String.eqb type "obligation_reminder")]];
      (match goal with
       | |- context [addCommunication now loanId ?c s] =>
           destruct (addCommunication_read now loanId c s) as (Hc & _)
       end;
       cbv zeta in Hc; rewrite decide_True in Hc by exact Hin;
       eexists; split; [exact Hc|]; repeat split).
  - intros other Hother. unfold s', sendEmailNotification. fold found.
    destruct found as [loan|]; [|reflexivity].
    destruct (String.eqb (Loan.borrowerEmail loan) ""); [reflexivity|].
    destruct (String.eqb type "payment_reminder");
      [|destruct (String.eqb type "payment_overdue");
        [|destruct (String.eqb type "obligation_reminder")]];
      apply addCommunication_read; exact Hother.
Qed.

End StoreTheorems.

Lemma addLoan_getLoan_witness :
  getLoan "loan-9"
    (addLoan exampleHost exampleNow (exampleLoan "loan-9" "2030-01-01" [] [])
       exampleStore).1
  = Some (addLoan exampleHost exampleNow (exampleLoan "loan-9" "2030-01-01" [] [])
            exampleStore).2.
Proof.
  pose proof (addLoan_getLoan exampleHost exampleNow
                (exampleLoan "loan-9" "2030-01-01" [] []) exampleStore
                "owner@bank.com" eq_refl ltac:(discriminate)) as H.
  cbv zeta in H. destruct H as (_ & _ & _ & _ & _ & H & _). apply H.
  intros Hin. apply list_elem_of_In in Hin. destruct Hin as [Hin|[]]. discriminate Hin.
Defined.

Lemma deleteLoan_getLoan_witness :
  getLoan "loan-5" (deleteLoan "loan-5" exampleStore) = None.
Proof.
  exact (proj1 (deleteLoan_getLoan "loan-5" exampleStore "owner@bank.com" eq_refl
                  ltac:(discriminate))).
Defined.

Lemma updatePaymentStatus_effect_witness :
  ∃ l', Store.loans (updatePaymentStatus exampleHost exampleNow "loan-5"
                       "payment-loan-5-1" "paid" (Some "2024-03-31") exampleStore)
        = [l']
        ∧ Loan.status l' = "paid_off".
Proof.
  pose proof (updatePaymentStatus_effect exampleHost exampleNow "loan-5"
                "payment-loan-5-1" "paid" (Some "2024-03-31") exampleStore
                "owner@bank.com" eq_refl) as H.
  cbv zeta in H. destruct H as (HF & _).
  apply Forall2_cons_inv_l in HF. destruct HF as (l' & k & [_ Hl'] & Hk & Heq).
  apply Forall2_nil_inv_l in Hk. subst k.
  exists l'. split; [exact Heq|].
  apply Hl'; [split; reflexivity|reflexivity|].
  constructor; [|constructor]. intros Hne. exfalso. apply Hne. reflexivity.
Defined.
(** ** Alerts: what generateAlerts raises and what it leaves *)

Section AlertTheorems.

Variable host : Host.

Ltac push_none :=
  exists []; cbn [fst snd]; rewrite app_nil_r;
  split; [reflexivity|split; [constructor|apply grownStore_refl]].

Ltac push_one :=
  eexists [_]; cbn [fst snd];
  split; [reflexivity|split;
    [constructor; [|constructor];
     split; [reflexivity|split; [reflexivity|split; [reflexivity|split; [reflexivity|]]]];
     cbn [Alert.type Alert.severity];
     repeat match goal with |- context [if ?b then _ else _] => destruct b end;
     repeat (first [left | right])
    |first [apply grownStore_refl | apply sendEmailNotification_grown]]].

Lemma paymentAlerts_pushes now loan :
  pushes (λ _ : Payment.t, raisedFor now loan) (paymentAlerts host now loan).
Proof.
  intros alerts s p. unfold paymentAlerts.
  destruct (String.eqb (Payment.status p) "pending"); [|push_none].
  destruct (lt _ _).
  { destruct (negb _); push_one. }
  destruct (le _ _); [|push_none].
  destruct (negb _ && _); push_one.
Qed.


Lemma obligationAlerts_pushes now loan :
  pushes (λ _ : Obligation.t, raisedFor now loan) (obligationAlerts host now loan).
Proof.
  intros alerts s o. unfold obligationAlerts.
  destruct (negb (Obligation.completed o)); [|push_none].
  destruct (lt _ _).
  { destruct (negb _); push_one. }
  destruct (le _ _); [|push_none].
  destruct (negb _ && _); push_one.
Qed.

Lemma loanAlerts_pushes now : pushes (raisedFor now) (loanAlerts host now).
Proof.
  intros alerts s loan. unfold loanAlerts.
  destruct (fold_pushes _ _ (Loan.paymentSchedule loan) (paymentAlerts_pushes now loan)
              alerts s) as (new1 & H1 & Q1 & G1).
  destruct (fold_left (paymentAlerts host now loan) _ (alerts, s)) as [a1 s1].
  cbn [fst snd] in *. subst a1.
  destruct (fold_pushes _ _ (Loan.obligations loan) (obligationAlerts_pushes now loan)
              (alerts ++ new1) s1) as (new2 & H2 & Q2 & G2).
  destruct (fold_left (obligationAlerts host now loan) _ (alerts ++ new1, s1))
    as [a2 s2].
  cbn [fst snd] in *. subst a2.
  assert (Forall (raisedFor now loan) (new1 ++ new2)) as Q12.
  { apply Forall_app. split; (eapply Forall_impl; [eassumption|]);
      intros a (_ & _ & Ha); exact Ha. }
  assert (grownStore s s2) as G by (eapply grownStore_trans; eassumption).
  unfold riskAlerts. destruct (gt _ _); cbn [fst snd].
  - eexists (new1 ++ new2 ++ [_]). rewrite <- !app_assoc.
    split; [reflexivity|]. split; [|exact G].
    rewrite app_assoc. apply Forall_app. split; [exact Q12|].
    constructor; [|constructor].
    split; [reflexivity|split; [reflexivity|split; [reflexivity|split; [reflexivity|]]]].
    cbn [Alert.type Alert.severity]. destruct (gt _ _); repeat (first [left | right]).
  - exists (new1 ++ new2). rewrite app_assoc. split; [reflexivity|].
    split; [exact Q12|exact G].
Qed.

Lemma elem_of_getFilteredLoans (s : Store.t) (l : Loan.t) :
  l ∈ getFilteredLoans s
  ↔ l ∈ Store.loans s
    ∧ (∃ u, Store.currentUserId s = Some u ∧ u ≠ "" ∧ Loan.managedBy l = Some u)
    ∧ matchesFilters (Store.filters s) l = true.
Proof.
  unfold getFilteredLoans, filterLoans. rewrite list_elem_of_In, List.filter_In.
  destruct (Store.currentUserId s) as [u|].
  - destruct (String.eqb_spec u "") as [->|Hu].
    + split; [intros [[] _]|]. intros (_ & (u & Hu & Hne & _) & _).
      injection Hu as <-. contradiction.
    + rewrite List.filter_In, <- list_elem_of_In. unfold isManagedBy. split.
      * intros [[Hin Hm] Hf]. split; [exact Hin|]. split; [|exact Hf].
        exists u. split; [reflexivity|]. split; [exact Hu|].
        destruct (Loan.managedBy l) as [m|]; [|discriminate].
        apply String.eqb_eq in Hm. congruence.
      * intros (Hin & (u' & Hu' & _ & Hm) & Hf). injection Hu' as <-.
        split; [|exact Hf]. split; [exact Hin|]. rewrite Hm. apply String.eqb_refl.
  - split; [intros [[] _]|]. intros (_ & (u & Hu & _) & _). discriminate.
Qed.

(** The alerts generateAlerts raises: each points to a loan that the current
    user manages and that passes the active filters, is dated now and unread
    in the returned array, and has one of the type and severity pairs of the
    store; the stored alerts are the same alerts, flags apart.  With no user
    signed in nothing is raised and the stored alerts are emptied. *)
Theorem generateAlerts_raised (now : Z) (s : Store.t) :
  Forall (λ a, ∃ loan,
            loan ∈ Store.loans s
            ∧ (∃ u, Store.currentUserId s = Some u ∧ u ≠ ""
                    ∧ Loan.managedBy loan = Some u)
            ∧ matchesFilters (Store.filters s) loan = true
            ∧ raisedFor now loan a)
    (generateAlerts host now s).2
  ∧ Forall2 (λ stored returned, stored = Alert.withRead returned (Alert.read stored))
      (Store.alerts (generateAlerts host now s).1) (generateAlerts host now s).2
  ∧ (isSet (Store.currentUserId s) = false →
       (generateAlerts host now s).2 = []
       ∧ Store.alerts (generateAlerts host now s).1 = []).
Proof.
  unfold generateAlerts.
  destruct (fold_pushes _ _ (getFilteredLoans s) (loanAlerts_pushes now) [] s)
    as (new & H1 & Q1 & G1).
  destruct (fold_left (loanAlerts host now) (getFilteredLoans s) ([], s)) as [alerts s1]
    eqn:E.
  cbn [fst snd app] in *. subst new. split; [|split].
  - eapply Forall_impl; [exact Q1|]. intros a (loan & Hin & Ha).
    apply elem_of_getFilteredLoans in Hin. destruct Hin as (Hin & Hu & Hf).
    exists loan. split; [exact Hin|]. split; [exact Hu|]. split; [exact Hf|exact Ha].
  - cbn [Store.withAlerts Store.alerts]. unfold mergeAlerts.
    clear E Q1 G1. induction alerts as [|a alerts IH]; [constructor|].
    cbn [map]. constructor; [|exact IH].
    destruct (alertsById (Store.alerts s1) !! Alert.id a); [reflexivity|].
    destruct a; reflexivity.
  - intros Hset.
    assert (getFilteredLoans s = []) as Hnone.
    { unfold getFilteredLoans. destruct (Store.currentUserId s) as [u|]; [|reflexivity].
      destruct (String.eqb_spec u ""); [reflexivity|].
      cbn in Hset. destruct (String.eqb_spec u ""); [contradiction|discriminate]. }
    rewrite Hnone in E. cbn in E. injection E as <- <-. split; reflexivity.
Qed.

(** What generateAlerts leaves of the store: the loans are the same loans,
    each with the communications it had followed by the notifications the run
    added; the filters, the selection and the current user are unchanged. *)
Theorem generateAlerts_frame (now : Z) (s : Store.t) :
  Forall2 (λ l l', ∃ added : list Communication.t,
             l' = Loan.withCommunications l (Loan.communications l ++ added))
    (Store.loans s) (Store.loans (generateAlerts host now s).1)
  ∧ Store.filters (generateAlerts host now s).1 = Store.filters s
  ∧ Store.selectedLoanId (generateAlerts host now s).1 = Store.selectedLoanId s
  ∧ Store.currentUserId (generateAlerts host now s).1 = Store.currentUserId s.
Proof.
  unfold generateAlerts.
  destruct (fold_pushes _ _ (getFilteredLoans s) (loanAlerts_pushes now) [] s)
    as (new & _ & _ & (G1 & G2 & G3 & _ & G5)).
  destruct (fold_left (loanAlerts host now) (getFilteredLoans s) ([], s)) as [alerts s1].
  cbn [fst snd Store.withAlerts Store.loans Store.filters Store.selectedLoanId
       Store.currentUserId] in *.
  split; [exact G1|]. split; [exact G2|]. split; [exact G3|exact G5].
Qed.

End AlertTheorems.
(** ** Filters, users and storage keys *)

Section FilterTheorems.

Lemma filter_all {A} (f : A → bool) (l : list A) :
  (∀ x, f x = true) → List.filter f l = l.
Proof.
  intros H. induction l as [|a l IH]; [reflexivity|].
  cbn [List.filter]. rewrite H, IH. reflexivity.
Qed.

Lemma filter_all_in {A} (f : A → bool) (l : list A) :
  (∀ x, In x l → f x = true) → List.filter f l = l.
Proof.
  induction l as [|a l IH]; intros H; [reflexivity|].
  cbn [List.filter]. rewrite (H a) by (left; reflexivity).
  rewrite IH; [reflexivity|]. intros x Hx. apply H. right. exact Hx.
Qed.

Lemma isManagedBy_sameOwner (u : string) (l : Loan.t) :
  isManagedBy u l = sameOwner (Loan.managedBy l) (Some u).
Proof.
  unfold isManagedBy, sameOwner. destruct (Loan.managedBy l) as [m|].
  - destruct (String.eqb_spec m u) as [->|E].
    + rewrite bool_decide_eq_true_2; reflexivity.
    + rewrite bool_decide_eq_false_2; [reflexivity|congruence].
  - rewrite bool_decide_eq_false_2; [reflexivity|discriminate].
Qed.

Lemma getFilteredLoans_getLoans (s : Store.t) :
  getFilteredLoans s = filterLoans (getLoans s) (Store.filters s).
Proof.
  unfold getFilteredLoans, getLoans, isSet.
  destruct (Store.currentUserId s) as [u|]; [|reflexivity].
  destruct (String.eqb u ""); [reflexivity|]. cbn [negb]. f_equal.
  apply filter_ext. intros l. apply isManagedBy_sameOwner.
Qed.

(** getFilteredLoans returns the loans of the store that the current user
    manages and that pass the filters, in the order of the store, and nothing
    when no user is signed in; filterLoans with the filters of resetFilters
    keeps every loan, so after resetFilters it returns what getLoans
    returns. *)
Theorem getFilteredLoans_managed (s : Store.t) :
  (∀ l, l ∈ getFilteredLoans s
        ↔ l ∈ Store.loans s
          ∧ (∃ u, Store.currentUserId s = Some u ∧ u ≠ ""
                  ∧ Loan.managedBy l = Some u)
          ∧ matchesFilters (Store.filters s) l = true)
  ∧ getFilteredLoans s = filterLoans (getLoans s) (Store.filters s)
  ∧ (∀ loans, filterLoans loans (Store.filters (resetFilters s)) = loans)
  ∧ getFilteredLoans (resetFilters s) = getLoans s
  ∧ (isSet (Store.currentUserId s) = false → getFilteredLoans s = []).
Proof.
  assert (∀ loans, filterLoans loans (Store.filters (resetFilters s)) = loans) as Hall.
  { intros loans. unfold filterLoans. apply filter_all. intros l. reflexivity. }
  split; [apply elem_of_getFilteredLoans|].
  split; [apply getFilteredLoans_getLoans|].
  split; [exact Hall|]. split.
  - rewrite getFilteredLoans_getLoans, Hall. reflexivity.
  - intros Hset. rewrite getFilteredLoans_getLoans. unfold getLoans. rewrite Hset.
    reflexivity.
Qed.

Lemma isUserLoan_managed (u : string) (l : Loan.t) :
  u ≠ "" → Loan.managedBy l = Some u → isUserLoan l u = true.
Proof.
  intros Hu Hm. unfold isUserLoan. rewrite Hm.
  destruct (String.eqb_spec u ""); [contradiction|].
  rewrite (proj2 (isSet_Some u) Hu). apply sameOwner_Some. reflexivity.
Qed.

(** filterLoansByUser against the store's own notion of ownership: every loan
    the store counts as managed by the user passes isUserLoan, so filtering
    what getFilteredLoans returned changes nothing; but isUserLoan also
    accepts a loan without manager whose older userId field names the user,
    which getLoans never returns. *)
Theorem filterLoansByUser_managed (s : Store.t) (u : string) :
  Store.currentUserId s = Some u →
  filterLoansByUser (getFilteredLoans s) u = getFilteredLoans s
  ∧ Forall (λ l, l ∈ filterLoansByUser (Store.loans s) u) (getLoans s)
  ∧ Forall (λ l, isSet (Loan.managedBy l) = false ∧ Loan.userId l = Some u ∧ u ≠ "" →
                 l ∈ filterLoansByUser (Store.loans s) u ∧ l ∉ getLoans s)
      (Store.loans s).
Proof.
  intros Hu. split; [|split].
  - unfold filterLoansByUser. destruct (String.eqb_spec u "") as [->|Hne].
    + unfold getFilteredLoans. rewrite Hu. reflexivity.
    + apply filter_all_in. intros l Hl.
      apply (proj2 (list_elem_of_In _ _)), elem_of_getFilteredLoans in Hl.
      destruct Hl as (_ & (u' & Hu' & _ & Hm) & _).
      rewrite Hu in Hu'. injection Hu' as <-. apply isUserLoan_managed; assumption.
  - apply Forall_forall. intros l Hl. unfold getLoans in Hl. rewrite Hu in Hl.
    destruct (isSet (Some u)) eqn:Hset; [|apply not_elem_of_nil in Hl; contradiction].
    apply isSet_Some in Hset.
    apply list_elem_of_In, List.filter_In in Hl. destruct Hl as [Hin Hm].
    apply sameOwner_Some in Hm. unfold filterLoansByUser.
    destruct (String.eqb_spec u ""); [contradiction|].
    apply list_elem_of_In, List.filter_In. split; [exact Hin|].
    apply isUserLoan_managed; assumption.
  - apply Forall_forall. intros l Hin (Hm & Hid & Hne). split.
    + unfold filterLoansByUser. destruct (String.eqb_spec u ""); [contradiction|].
      apply list_elem_of_In, List.filter_In. split; [apply list_elem_of_In, Hin|].
      unfold isUserLoan. destruct (String.eqb_spec u ""); [contradiction|].
      rewrite Hm, Hid, (proj2 (isSet_Some u) Hne). apply sameOwner_Some. reflexivity.
    + intros Hl. unfold getLoans in Hl. rewrite Hu in Hl.
      rewrite (proj2 (isSet_Some u) Hne) in Hl.
      apply list_elem_of_In, List.filter_In in Hl. destruct Hl as [_ Hown].
      apply sameOwner_Some in Hown. rewrite Hown in Hm.
      rewrite (proj2 (isSet_Some u) Hne) in Hm. discriminate.
Qed.

End FilterTheorems.

Section StorageTheorems.

Lemma chars_str (l : list ascii) : chars (str l) = l.
Proof. apply list_ascii_of_string_of_list_ascii. Qed.

Lemma str_chars (s : string) : str (chars s) = s.
Proof. apply string_of_list_ascii_of_string. Qed.

Lemma replaceAtAndDot_idempotent (u : string) :
  replaceAtAndDot (replaceAtAndDot u) = replaceAtAndDot u.
Proof.
  unfold replaceAtAndDot. rewrite chars_str, map_map. f_equal. apply map_ext.
  intros c. destruct (Ascii.eqb c "@" || Ascii.eqb c ".") eqn:E; [reflexivity|].
  rewrite E. reflexivity.
Qed.

Lemma replaceAtAndDot_nonempty (u : string) : u ≠ "" → replaceAtAndDot u ≠ "".
Proof.
  intros Hu. unfold replaceAtAndDot. destruct u as [|c u]; [contradiction|].
  cbn. discriminate.
Qed.

(** getUserStorageKey: two user identifiers get the same storage key exactly
    when they agree once every [@] and [.] is replaced by [_]; so an
    identifier and its replaced form share one key, while no identifier gets
    the key used when nobody is signed in. *)
Theorem getUserStorageKey_shared (u u' : string) :
  u ≠ "" → u' ≠ "" →
  (getUserStorageKey u = getUserStorageKey u' ↔ replaceAtAndDot u = replaceAtAndDot u')
  ∧ getUserStorageKey (replaceAtAndDot u) = getUserStorageKey u
  ∧ getUserStorageKey u ≠ getUserStorageKey "".
Proof.
  intros Hu Hu'.
  assert (∀ v, v ≠ "" → getUserStorageKey v = "loan-tracker-storage-" +:+ replaceAtAndDot v)
    as Hkey.
  { intros v Hv. unfold getUserStorageKey.
    destruct (String.eqb_spec v ""); [contradiction|reflexivity]. }
  split; [|split].
  - rewrite (Hkey u Hu), (Hkey u' Hu'). split.
    + intros H. apply (inj (String.append _)) in H. exact H.
    + intros ->. reflexivity.
  - rewrite (Hkey _ (replaceAtAndDot_nonempty u Hu)), (Hkey u Hu).
    rewrite replaceAtAndDot_idempotent. reflexivity.
  - rewrite (Hkey u Hu). cbn. discriminate.
Qed.

Lemma getUserStorageKey_shared_witness :
  getUserStorageKey "a.b@x.com" = getUserStorageKey "a_b@x.com"
  ∧ getUserStorageKey "a.b@x.com" = "loan-tracker-storage-a_b_x_com".
Proof.
  split; [|reflexivity].
  exact (proj2 (proj1 (getUserStorageKey_shared "a.b@x.com" "a_b@x.com"
                         ltac:(discriminate) ltac:(discriminate))) eq_refl).
Defined.

(** The storage adapter: what a user stores under the store's name is read
    back by that user and is gone after removeItem; another user reads it
    exactly when the two have the same storage key, and is otherwise
    unaffected; an entry under any other name is shared by all users. *)
Theorem userStorage_isolation (c c' : option string) (name value : string)
    (localStorage : LocalStorage) :
  getItem c name (setItem c name value localStorage) = Some value
  ∧ getItem c name (removeItem c name localStorage) = None
  ∧ getItem c' "loan-tracker-storage" (setItem c "loan-tracker-storage" value localStorage)
    = (if decide (storageKeyOf c = storageKeyOf c') then Some value
       else getItem c' "loan-tracker-storage" localStorage)
  ∧ (name ≠ "loan-tracker-storage" →
       getItem c' name (setItem c name value localStorage) = Some value).
Proof.
  unfold getItem, setItem, removeItem. split; [|split; [|split]].
  - apply lookup_insert_eq.
  - apply lookup_delete_eq.
  - unfold adapterKey. cbn [String.eqb Ascii.eqb Bool.eqb].
    case_decide as E.
    + rewrite E. apply lookup_insert_eq.
    + apply lookup_insert_ne. exact E.
  - intros E. unfold adapterKey.
    destruct (String.eqb_spec name "loan-tracker-storage"); [contradiction|].
    apply lookup_insert_eq.
Qed.

End StorageTheorems.

Section TableTheorems.

(** The badge of a status is the light background of the colour of the
    status followed by the dark text of that colour, gray for a status that
    is not one of the five; for a name every object inherits all three
    lookups give the inherited value, not a string. *)
Theorem getStatusBadgeClasses_color (status : string) :
  match getStatusColor status with
  | Str color =>
      ∃ bg, getColorBgClasses color = Str bg
            ∧ getStatusBadgeClasses status
              = Str (bg +:+ " text-" +:+ color +:+ "-800")
  | InheritedValue key =>
      key = status ∧ getStatusBadgeClasses status = InheritedValue status
      ∧ getStatusText status = InheritedValue status
  end.
Proof.
  unfold getStatusColor, getStatusBadgeClasses, getStatusText, lookupOr, getProperty.
  cbn [assoc].
  destruct (String.eqb_spec "on_track" status) as [<-|_];
    [eexists; split; reflexivity|].
  destruct (String.eqb_spec "at_risk" status) as [<-|_];
    [eexists; split; reflexivity|].
  destruct (String.eqb_spec "overdue" status) as [<-|_];
    [eexists; split; reflexivity|].
  destruct (String.eqb_spec "paid_off" status) as [<-|_];
    [eexists; split; reflexivity|].
  destruct (String.eqb_spec "defaulted" status) as [<-|_];
    [eexists; split; reflexivity|].
  destruct (existsb (String.eqb status) objectPrototypeKeys).
  - repeat split.
  - eexists. split; reflexivity.
Qed.

End TableTheorems.

Lemma filterLoansByUser_managed_witness :
  filterLoansByUser (getFilteredLoans exampleStore) "owner@bank.com"
  = getFilteredLoans exampleStore.
Proof.
  exact (proj1 (filterLoansByUser_managed exampleStore "owner@bank.com" eq_refl)).
Defined.
(** ** Import: what the parser returns and when the import throws *)

Section ImportTheorems.

Variable host : Host.

Lemma formatDateString_nonempty now s : formatDateString host now s ≠ "".
Proof.
  unfold formatDateString, today.
  destruct (String.eqb_spec s "") as [->|Hs]; [apply toISODate_nonempty|].
  destruct (isIsoDate s); [exact Hs|].
  destruct (newDate host s); [apply toISODate_nonempty|].
  destruct (splitDateParts s) as [|p0 [|p1 [|p2 [|p3 rest]]]];
    try apply toISODate_nonempty.
  destruct (String.length p2 =? 4)%nat.
  - apply append_nonempty. discriminate.
  - discriminate.
Qed.

Lemma generatePaymentSchedule_length id amount rate term startDate schedule :
  generatePaymentSchedule host id amount rate term startDate = Return schedule →
  length schedule = Z.to_nat term.
Proof. intros H. apply generatePaymentSchedule_structure in H. apply H. Qed.

Lemma orStr_fallback_nonempty (a b : string) : b ≠ "" → orStr a b ≠ "".
Proof. intros Hb. unfold orStr. destruct (String.eqb_spec a ""); assumption. Qed.

(** The candidate of a row that is not skipped. *)
Lemma parseRow_candidate now headers nh i line c :
  (parseRow host now headers nh i line).2 = Return (Some c) →
  candidateOfRow host headers nh line c.
Proof.
  unfold parseRow, candidateOfRow, rowScheduleCell. cbv zeta.
  set (values := fitValues (length headers) (parseCSVLine line)).
  set (loanData := rowData host headers nh values).
  set (x := extractRow now headers values loanData).
  destruct (missingRequired x) eqn:Hm; [discriminate|]. cbn [snd].
  unfold missingRequired in Hm. rewrite !orb_false_iff in Hm.
  destruct Hm as [[[[[[Hb Ha] _] Hr] _] Ht] _].
  apply negb_false_iff in Ha, Hr.
  destruct (String.eqb_spec (x_borrower x) "") as [|Hb']; [discriminate|].
  destruct (x_term x) as [t|]; [|discriminate]. apply Z.eqb_neq in Ht.
  cbn [default].
  set (loanId := default _ (loanData !! "id" ≫= nonEmpty)).
  assert (loanId ≠ "") as Hid.
  { unfold loanId. destruct (loanData !! "id") as [v|]; cbn; [|discriminate].
    unfold nonEmpty. destruct (String.eqb_spec v ""); cbn; [discriminate|assumption]. }
  assert (x_status x ≠ "") as Hst by (apply orStr_fallback_nonempty; discriminate).
  destruct (if String.eqb (x_endDate x) "" then _ else _) as [endDate|e];
    cbn [mbind completion_bind]; [|discriminate].
  destruct (loanData !! "paymentschedule" ≫= nonEmpty) as [v|];
    cbn [mbind completion_bind mret completion_ret].
  - intros [= <-]. cbn.
    repeat split; try assumption; apply formatDateString_nonempty.
  - destruct (generatePaymentSchedule _ _ _ _ _ _) as [schedule|e] eqn:Hg;
      cbn [mbind completion_bind mret completion_ret]; [|discriminate].
    intros [= <-]. cbn.
    repeat split; try assumption; try apply formatDateString_nonempty.
    exists schedule. split; [reflexivity|]. split; [exact Hg|].
    apply (generatePaymentSchedule_length _ _ _ _ _ _ Hg).
Qed.

Lemma outcomes_rows (P : Z * string → Candidate.t → Prop) (rows : list (Z * string))
    (outcomes : list (option Candidate.t)) :
  Forall2 (λ row o, ∀ c, o = Some c → P row c) rows outcomes →
  ∃ kept, sublist kept rows ∧ Forall2 P kept (omap id outcomes).
Proof.
  induction 1 as [|row o rows outcomes Ho _ (kept & Hsub & HF)].
  - exists []. split; [constructor|constructor].
  - destruct o as [c|]; cbn [omap id].
    + exists (row :: kept). split; [constructor; exact Hsub|].
      constructor; [apply Ho; reflexivity|exact HF].
    + exists kept. split; [constructor; exact Hsub|exact HF].
Qed.

(** What parseCSV returns: the candidates are those of some of the data rows,
    in the order of the rows, one for each row that gave one.  Every
    candidate has an identifier, a borrower, an amount and an interest rate
    that are neither zero nor NaN, a term other than 0, a start date and a
    status; it has no obligations, notes, tags or communications.  When the
    payment schedule cell of its row is not empty, the candidate has no
    payment schedule; otherwise it carries the schedule generatePaymentSchedule
    returns for its own identifier, amount, rate, term and start date, with as
    many payments as the term has months (none for a negative term). *)
Theorem parseCSV_candidates (now : Z) (csv headerLine : string)
    (dataLines w : list string) (result : list Candidate.t) :
  List.filter (λ line, negb (String.eqb (trim line) "")) (split newline csv)
    = headerLine :: dataLines →
  parseCSV host now csv = (w, Return result) →
  let headers := map (λ h, toLowerCase (trim h)) (split "," headerLine) in
  let nh := map normalizeHeader headers in
  ∃ rows : list (Z * string),
    sublist rows (numbered 1 dataLines)
    ∧ Forall2 (λ '(k, line) c,
                 (parseRow host now headers nh k line).2 = Return (Some c)
                 ∧ Candidate.id c ≠ ""
                 ∧ Candidate.borrower c ≠ ""
                 ∧ truthy (Candidate.amount c) = true
                 ∧ truthy (Candidate.interestRate c) = true
                 ∧ Candidate.term c ≠ 0
                 ∧ Candidate.startDate c ≠ ""
                 ∧ Candidate.status c ≠ ""
                 ∧ Candidate.obligations c = [] ∧ Candidate.notes c = []
                 ∧ Candidate.communications c = [] ∧ Candidate.tags c = []
                 ∧ match rowScheduleCell host headers nh line with
                   | Some _ => Candidate.paymentSchedule c = None
                   | None =>
                       ∃ schedule,
                         Candidate.paymentSchedule c = Some schedule
                         ∧ generatePaymentSchedule host (Candidate.id c)
                             (Candidate.amount c) (Candidate.interestRate c)
                             (Candidate.term c) (Candidate.startDate c)
                           = Return schedule
                         ∧ length schedule = Z.to_nat (Candidate.term c)
                   end) rows result.
Proof.
  intros Hlines Hparse headers nh. unfold parseCSV in Hparse. rewrite Hlines in Hparse.
  destruct dataLines as [|line dataLines]; [discriminate|].
  fold headers in Hparse. fold nh in Hparse.
  match type of Hparse with
  | match ?check with _ => _ end = _ => destruct check as [[]|e]; [|discriminate]
  end.
  destruct (parseRows_spec host now headers nh _ _ _ _ _ Hparse)
    as (outcomes & HF & Hres & _).
  cbn [app] in Hres. subst result. apply outcomes_rows.
  eapply Forall2_impl; [exact HF|].
  intros [k row] o Ho c ->. split; [exact Ho|].
  exact (parseRow_candidate now headers nh k row c Ho).
Qed.

Lemma mapC_Throw_TypeError now user batch e :
  mapC (enrichImported host now user) batch = Throw e → e = TypeError.
Proof.
  induction batch as [|c batch IH]; cbn [mapC]; [discriminate|].
  unfold enrichImported at 1. destruct (Candidate.paymentSchedule c).
  - destruct (mapC _ batch); [discriminate|]. intros [= <-]. apply IH. reflexivity.
  - intros [= <-]. reflexivity.
Qed.

Lemma mapC_enrichImported now user batch :
  match mapC (enrichImported host now user) batch with
  | Return _ => Forall (λ c, Candidate.paymentSchedule c ≠ None) batch
  | Throw _ => Exists (λ c, Candidate.paymentSchedule c = None) batch
  end.
Proof.
  induction batch as [|c batch IH]; cbn [mapC]; [constructor|].
  unfold enrichImported at 1. destruct (Candidate.paymentSchedule c) eqn:E.
  - destruct (mapC _ batch).
    + constructor; [congruence|exact IH].
    + right. exact IH.
  - left. exact E.
Qed.

(** When the append-only import throws, before anything is read from or
    written to the storage: without a user identifier, with the error that
    says so; with a user identifier and no candidate, with an error; and with
    a user identifier and a candidate that has no payment schedule, with a
    TypeError (enrichLoan reads the schedule). *)
Theorem importLoansFromFile_outcome (now : Z) (user : string)
    (batch : list Candidate.t) (ledger : list Loan.t) (s : Store.t) :
  (user = "" →
     importLoansFromFile host now user batch ledger s
     = Throw (Error "User identifier required to import loans"))
  ∧ (user ≠ "" → batch = [] →
       ∃ message,
         importLoansFromFile host now user batch ledger s = Throw (Error message))
  ∧ (user ≠ "" → Exists (λ c, Candidate.paymentSchedule c = None) batch →
       importLoansFromFile host now user batch ledger s = Throw TypeError).
Proof.
  pose proof (mapC_enrichImported now user batch) as Hm.
  unfold importLoansFromFile.
  destruct (String.eqb_spec user "") as [->|Hu].
  { split; [|split].
    - reflexivity.
    - intros H; contradiction.
    - intros H; contradiction. }
  destruct batch as [|c batch].
  { split; [|split].
    - intros H; contradiction.
    - intros _ _. eexists. reflexivity.
    - intros _ H. inversion H. }
  destruct (mapC (enrichImported host now user) (c :: batch)) as [enriched|e] eqn:E;
    cbn [mbind completion_bind mret completion_ret].
  - split; [|split].
    + intros H; contradiction.
    + intros _ H. discriminate.
    + intros _ H. exfalso. rewrite Forall_forall in Hm. apply Exists_exists in H.
      destruct H as (c' & Hin & Hnone). exact (Hm c' Hin Hnone).
  - split; [|split].
    + intros H; contradiction.
    + intros _ H. discriminate.
    + intros _ _. rewrite (mapC_Throw_TypeError _ _ _ _ E). reflexivity.
Qed.


Lemma someC_onText (f : string → bool) (nh : list headerName) :
  Forall (λ h, ∃ t, h = Text t) nh → ∃ b, someC (onText f) nh = Return b.
Proof.
  induction 1 as [|h nh [t ->] _ [b IH]]; cbn [someC onText]; [eauto|].
  destruct (f t); [eauto|]. rewrite IH. eauto.
Qed.

Lemma hasTerm_false (nh : list headerName) :
  Forall (λ h, h ∉ [Text "term"; Text "months"; Text "duration"; Text "tenure"]) nh →
  existsb (λ h, match h with
                | Text h => String.eqb h "term" || String.eqb h "months"
                            || String.eqb h "duration" || String.eqb h "tenure"
                | NotText _ => false
                end) nh = false.
Proof.
  induction 1 as [|h nh Hh _ IH]; [reflexivity|]. cbn [existsb]. rewrite IH.
  destruct h as [t|k]; [|reflexivity].
  rewrite orb_false_r.
  destruct (String.eqb_spec t "term") as [->|_];
    [exfalso; apply Hh; repeat (first [left | right])|].
  destruct (String.eqb_spec t "months") as [->|_];
    [exfalso; apply Hh; repeat (first [left | right])|].
  destruct (String.eqb_spec t "duration") as [->|_];
    [exfalso; apply Hh; repeat (first [left | right])|].
  destruct (String.eqb_spec t "tenure") as [->|_];
    [exfalso; apply Hh; repeat (first [left | right])|].
  reflexivity.
Qed.

(** The errors of parseCSV before any row is read: with fewer than two lines
    that are not blank it throws its first error; when no header is named
    term, months, duration or tenure after normalization it throws as well,
    with the message that lists the missing columns when every header
    normalizes to a string.  Nothing is logged in either case. *)
Theorem parseCSV_header_errors (now : Z) (csv : string) :
  let lines :=
    List.filter (λ line, negb (String.eqb (trim line) "")) (split newline csv) in
  ((length lines < 2)%nat →
     parseCSV host now csv
     = ([], Throw (Error "CSV file must have at least a header row and one data row")))
  ∧ (∀ headerLine dataLines,
       lines = headerLine :: dataLines → dataLines ≠ [] →
       let nh := map normalizeHeader
                   (map (λ h, toLowerCase (trim h)) (split "," headerLine)) in
       Forall (λ h, h ∉ [Text "term"; Text "months"; Text "duration"; Text "tenure"])
         nh →
       ∃ e, parseCSV host now csv = ([], Throw e)
            ∧ (Forall (λ h, ∃ t, h = Text t) nh →
               ∃ rest, e = Error ("Missing required columns: " +:+ rest))).
Proof.
  intros lines. split.
  - intros Hlen. unfold parseCSV. fold lines.
    destruct lines as [|l1 [|l2 rest]]; [reflexivity|reflexivity|cbn in Hlen; lia].
  - intros headerLine dataLines Hlines Hdata nh Hterm. unfold parseCSV. fold lines.
    rewrite Hlines. destruct dataLines as [|line dataLines]; [contradiction|].
    cbv zeta. fold nh. rewrite (hasTerm_false nh Hterm).
    repeat match goal with
           | |- context [someC ?f nh] =>
               let E := fresh "E" in
               destruct (someC f nh) as [?|?] eqn:E;
               cbn [mbind completion_bind mret completion_ret]
           end;
      rewrite ?andb_false_r; cbn [andb];
      (eexists; split; [reflexivity|]); intros Htext;
      try (unfold missingColumnsMessage; eexists; reflexivity);
      repeat match goal with
             | E : someC (onText ?f) nh = Throw _ |- _ =>
                 destruct (someC_onText f nh Htext) as [b Hb]; rewrite Hb in E;
                 discriminate
             end.
Qed.

End ImportTheorems.

Lemma parseCSV_candidates_witness :
  ∃ rows : list (Z * string),
    sublist rows
      (numbered 1 ["Alice,5000,5,12,2024-01-15"; ",1500,5,12,2024-01-15";
                   "Dave,1500,5,12,"])
    ∧ length rows = 2%nat.
Proof.
  destruct (parseCSV_candidates exampleHost exampleNow exampleCsv
              "borrower,amount,interestRate,term,startDate"
              ["Alice,5000,5,12,2024-01-15"; ",1500,5,12,2024-01-15"; "Dave,1500,5,12,"]
              (parseCSV exampleHost exampleNow exampleCsv).1
              (returned (parseCSV exampleHost exampleNow exampleCsv).2)
              ltac:(vm_compute; reflexivity) ltac:(vm_compute; reflexivity))
    as (rows & Hsub & HF).
  exists rows. split; [exact Hsub|]. apply Forall2_length in HF. rewrite HF.
  vm_compute. reflexivity.
Defined.
(** ** The bulk update import *)

Section BulkTheorems.

Variable host : Host.
Variable random : nat → string.

Lemma findIndex_Some {A} (p : A → bool) (l : list A) (x : A) :
  x ∈ l → p x = true →
  ∃ i y, findIndex p l = Some i ∧ l !! i = Some y ∧ p y = true.
Proof.
  intros Hin Hp. induction Hin as [x l|x y l _ IH].
  - cbn [findIndex]. rewrite Hp. exists 0%nat, x. repeat split. exact Hp.
  - cbn [findIndex]. destruct (p y) eqn:Ey.
    + exists 0%nat, y. repeat split. exact Ey.
    + destruct (IH Hp) as (i & z & Hfi & Hl & Hz). rewrite Hfi. exists (S i), z.
      repeat split; assumption.
Qed.

Lemma updateLoanWithImportData_id now existing c u :
  updateLoanWithImportData host now existing c = Return u →
  Loan.id u = Loan.id existing.
Proof.
  unfold updateLoanWithImportData.
  destruct (Loan.paymentSchedule existing).
  - destruct (generatePaymentSchedule _ _ _ _ _ _); cbn; [|discriminate].
    intros [= <-]. reflexivity.
  - cbn. intros [= <-]. reflexivity.
Qed.

Lemma map_id_insert (l : list Loan.t) (i : nat) (x u : Loan.t) :
  l !! i = Some x → Loan.id u = Loan.id x →
  map Loan.id (<[i := u]> l) = map Loan.id l.
Proof.
  intros Hl Hid.
  change (Loan.id <$> <[i := u]> l = Loan.id <$> l).
  rewrite list_fmap_insert, Hid. apply list_insert_id.
  rewrite list_lookup_fmap, Hl. reflexivity.
Qed.

(** One candidate: it is counted once, as updated, created or failed; the
    identifiers of the loans stay in place, and a created loan is appended. *)
Lemma processImport_step now user loans results position c :
  let out := processImport host random now user (loans, results) (position, c) in
  (length (Bulk.updated out.2) + length (Bulk.created out.2)
   + length (Bulk.errors out.2)
   = S (length (Bulk.updated results) + length (Bulk.created results)
        + length (Bulk.errors results)))%nat
  ∧ ∃ new : list Bulk.Detail,
      Bulk.created out.2 = Bulk.created results ++ new
      ∧ map Loan.id out.1 = map Loan.id loans ++ map Bulk.loanId new.
Proof.
  cbv zeta. unfold processImport.
  destruct (matchExistingLoan c loans) as [existing|] eqn:Hm.
  - destruct (updateLoanWithImportData host now existing c) as [u|e] eqn:Hu.
    + apply matchExistingLoan_found in Hm. destruct Hm as [Hin _].
      destruct (findIndex_Some (λ l, String.eqb (Loan.id l) (Loan.id existing))
                  loans existing Hin (String.eqb_refl _)) as (i & y & Hfi & Hy & Hid).
      rewrite Hfi.
      cbn [fst snd Bulk.updated Bulk.created Bulk.errors].
      split; [rewrite length_app; cbn; lia|].
      exists []. rewrite !app_nil_r. split; [reflexivity|].
      apply (map_id_insert loans i y u Hy). apply String.eqb_eq in Hid.
      rewrite (updateLoanWithImportData_id _ _ _ _ Hu). symmetry. exact Hid.
    + cbn [fst snd Bulk.updated Bulk.created Bulk.errors].
      split; [rewrite length_app; cbn; lia|].
      exists []. rewrite !app_nil_r. split; reflexivity.
  - destruct (createLoan host random now user position c) as [l|e].
    + cbn [fst snd Bulk.updated Bulk.created Bulk.errors].
      split; [rewrite length_app; cbn; lia|].
      exists [detailOf l]. split; [reflexivity|]. rewrite map_app. reflexivity.
    + cbn [fst snd Bulk.updated Bulk.created Bulk.errors].
      split; [rewrite length_app; cbn; lia|].
      exists []. rewrite !app_nil_r. split; reflexivity.
Qed.

Lemma processImport_fold now user items :
  ∀ loans results,
    let out := fold_left (processImport host random now user) items (loans, results) in
    (length (Bulk.updated out.2) + length (Bulk.created out.2)
     + length (Bulk.errors out.2)
     = length items + (length (Bulk.updated results) + length (Bulk.created results)
                       + length (Bulk.errors results)))%nat
    ∧ ∃ new : list Bulk.Detail,
        Bulk.created out.2 = Bulk.created results ++ new
        ∧ map Loan.id out.1 = map Loan.id loans ++ map Bulk.loanId new.
Proof.
  induction items as [|[position c] items IH]; intros loans results; cbv zeta.
  - cbn. split; [reflexivity|]. exists []. rewrite !app_nil_r. split; reflexivity.
  - cbn [fold_left length].
    destruct (processImport_step now user loans results position c)
      as (Hcount & new1 & Hc1 & Hid1).
    destruct (processImport host random now user (loans, results) (position, c))
      as [loans1 results1].
    cbn [fst snd] in *.
    destruct (IH loans1 results1) as (Hcount2 & new2 & Hc2 & Hid2).
    split; [lia|].
    exists (new1 ++ new2). rewrite Hc2, Hc1, Hid2, Hid1, map_app, !app_assoc.
    split; reflexivity.
Qed.

(** The bulk update import.  Its loop over the candidates catches what a
    candidate throws and records it, so for every batch and every list of
    existing loans the loop ends with every candidate counted exactly once,
    as updated, created or failed; the loans it leaves are as many as before
    plus the created ones, with the identifiers of the existing loans in
    place and those of the created loans after them.  Whenever the import
    returns, there was a user identifier and at least one candidate, the
    loans it writes and the details it reports are those the loop left, and
    its counts are the lengths of the details and of the written loans. *)
Theorem importAndUpdateLoansFromFile_counts (now : Z) (user : string)
    (batch : list Candidate.t) (ledger : list Loan.t) :
  let out :=
    fold_left (processImport host random now user)
      (zip (seq 0 (length batch)) batch)
      (ledger, {| Bulk.updated := []; Bulk.created := []; Bulk.errors := [] |}) in
  (length (Bulk.updated out.2) + length (Bulk.created out.2)
   + length (Bulk.errors out.2) = length batch)%nat
  ∧ length out.1 = (length ledger + length (Bulk.created out.2))%nat
  ∧ map Loan.id out.1 = map Loan.id ledger ++ map Bulk.loanId (Bulk.created out.2)
  ∧ ∀ (s : Store.t) (summary : Bulk.Summary) (loans' : list Loan.t) (s' : Store.t),
      importAndUpdateLoansFromFile host random now user batch ledger s
      = Return (summary, loans', s') →
      user ≠ "" ∧ batch ≠ []
      ∧ loans' = out.1
      ∧ Bulk.details summary = out.2
      ∧ Bulk.updatedCount summary = length (Bulk.updated (Bulk.details summary))
      ∧ Bulk.createdCount summary = length (Bulk.created (Bulk.details summary))
      ∧ Bulk.errorCount summary = length (Bulk.errors (Bulk.details summary))
      ∧ Bulk.total summary = length loans'.
Proof.
  cbv zeta.
  set (items := zip (seq 0 (length batch)) batch).
  assert (length items = length batch) as Hlen.
  { unfold items. rewrite length_zip_with, length_seq. lia. }
  destruct (processImport_fold now user items ledger
              {| Bulk.updated := []; Bulk.created := []; Bulk.errors := [] |})
    as (Hcount & new & Hc & Hid).
  unfold importAndUpdateLoansFromFile. fold items.
  destruct (fold_left (processImport host random now user) items _) as [loans1 results].
  cbn [fst snd Bulk.updated Bulk.created Bulk.errors length app] in *.
  subst new.
  split; [rewrite Hcount, Hlen; lia|].
  split.
  { rewrite <- (length_map Loan.id loans1), Hid, length_app, !length_map. reflexivity. }
  split; [exact Hid|].
  intros s summary loans' s'.
  destruct (String.eqb_spec user "") as [|Hu]; [discriminate|].
  destruct batch as [|c batch]; [discriminate|].
  intros [= <- <- _].
  cbn [Bulk.updatedCount Bulk.createdCount Bulk.errorCount Bulk.total Bulk.details].
  split; [exact Hu|]. split; [discriminate|]. destruct results. repeat split.
Qed.

End BulkTheorems.

Lemma importAndUpdateLoansFromFile_counts_witness :
  let out :=
    importAndUpdateLoansFromFile exampleHost (λ _, "k3x9q2m1a") exampleNow
      "owner@bank.com" [rowCandidate "L1"; rowCandidate ""] [ledgerLoan]
      exampleStore in
  ∃ (summary : Bulk.Summary) (loans' : list Loan.t) (s' : Store.t),
    out = Return (summary, loans', s')
    ∧ (Bulk.updatedCount summary + Bulk.createdCount summary
       + Bulk.errorCount summary = 2)%nat
    ∧ map Loan.id loans'
      = map Loan.id [ledgerLoan]
        ++ map Bulk.loanId (Bulk.created (Bulk.details summary)).
Proof.
  cbv zeta.
  destruct (importAndUpdateLoansFromFile_counts exampleHost (λ _, "k3x9q2m1a")
              exampleNow "owner@bank.com" [rowCandidate "L1"; rowCandidate ""]
              [ledgerLoan]) as (Hsum & _ & Hids & Hret).
  destruct (importAndUpdateLoansFromFile exampleHost (λ _, "k3x9q2m1a") exampleNow
              "owner@bank.com" [rowCandidate "L1"; rowCandidate ""] [ledgerLoan]
              exampleStore) as [[[summary loans'] s']|e] eqn:E;
    [|vm_compute in E; discriminate E].
  destruct (Hret exampleStore summary loans' s' E)
    as (_ & _ & Hl & Hd & Hu & Hc & He & _).
  exists summary, loans', s'. split; [reflexivity|].
  rewrite Hu, Hc, He, Hd, Hl. split; [exact Hsum|exact Hids].
Defined.
(** ** Reading a line and a date *)

Section LineTheorems.

Lemma chars_app (a b : string) : chars (a +:+ b) = chars a ++ chars b.
Proof.
  unfold chars. induction a as [|c a IH]; [reflexivity|].
  change (String c a +:+ b) with (String c (a +:+ b)).
  cbn [list_ascii_of_string app]. f_equal. exact IH.
Qed.

Lemma parseCSVLineFrom_unquoted (s : list ascii) :
  quote ∉ s →
  ∀ values cur,
    parseCSVLineFrom s values cur false
    = rev values ++ map trim (splitChars (Ascii.eqb ",") cur s).
Proof.
  induction s as [|c s IH]; intros Hq values cur.
  - reflexivity.
  - apply not_elem_of_cons in Hq. destruct Hq as [Hc Hq].
    cbn [parseCSVLineFrom splitChars].
    destruct (Ascii.eqb_spec c quote) as [E|_]; [congruence|].
    rewrite (Ascii.eqb_sym "," c).
    destruct (Ascii.eqb c ","); cbn [andb negb].
    + rewrite (IH Hq). cbn [rev map]. rewrite <- app_assoc. reflexivity.
    + apply (IH Hq).
Qed.

Lemma parseCSVLineFrom_inside (v : list ascii) :
  ∀ values cur rest,
    rest = [] ∨ (∃ r, rest = ","%char :: r) →
    parseCSVLineFrom
      (flat_map (λ c, if Ascii.eqb c quote then [quote; quote] else [c]) v
       ++ quote :: rest) values cur true
    = parseCSVLineFrom rest values (rev v ++ cur) false.
Proof.
  induction v as [|c v IH]; intros values cur rest Hrest.
  - cbn [flat_map app rev parseCSVLineFrom]. rewrite Ascii.eqb_refl.
    destruct Hrest as [->|[r ->]]; reflexivity.
  - cbn [flat_map rev]. destruct (Ascii.eqb_spec c quote) as [->|Hc].
    + cbn [app parseCSVLineFrom]. rewrite Ascii.eqb_refl. cbn [andb].
      rewrite (IH _ _ _ Hrest), <- app_assoc. reflexivity.
    + cbn [app parseCSVLineFrom].
      destruct (Ascii.eqb_spec c quote) as [E|_]; [contradiction|].
      rewrite andb_false_r. rewrite (IH _ _ _ Hrest), <- app_assoc. reflexivity.
Qed.

Lemma chars_csvQuoted (v : string) :
  chars (csvQuoted v)
  = quote :: flat_map (λ c, if Ascii.eqb c quote then [quote; quote] else [c]) (chars v)
    ++ [quote].
Proof. unfold csvQuoted. rewrite !chars_app, chars_str. reflexivity. Qed.

Lemma parseCSVLineFrom_quoted (v : string) (values : list string) (rest : list ascii) :
  rest = [] ∨ (∃ r, rest = ","%char :: r) →
  parseCSVLineFrom (chars (csvQuoted v) ++ rest) values [] false
  = parseCSVLineFrom rest values (rev (chars v)) false.
Proof.
  intros Hrest. rewrite chars_csvQuoted. cbn [app parseCSVLineFrom].
  rewrite Ascii.eqb_refl, <- app_assoc. cbn [app].
  destruct (flat_map _ (chars v) ++ quote :: rest) as [|a l] eqn:E.
  { destruct (flat_map _ (chars v)); discriminate. }
  rewrite <- E. cbn [andb negb].
  rewrite (parseCSVLineFrom_inside _ _ _ _ Hrest), app_nil_r. reflexivity.
Qed.

Lemma parseCSVLineFrom_quoted_fields (vs : list string) :
  vs ≠ [] →
  ∀ values,
    parseCSVLineFrom (chars (join "," (map csvQuoted vs))) values [] false
    = rev values ++ map trim vs.
Proof.
  induction vs as [|v vs IH]; [contradiction|]. intros _ values.
  destruct vs as [|v' vs].
  - cbn [map join]. rewrite <- (app_nil_r (chars (csvQuoted v))).
    rewrite parseCSVLineFrom_quoted by (left; reflexivity).
    cbn [parseCSVLineFrom rev]. rewrite rev_involutive, str_chars. reflexivity.
  - change (join "," (map csvQuoted (v :: v' :: vs)))
      with (csvQuoted v +:+ "," +:+ join "," (map csvQuoted (v' :: vs))).
    rewrite !chars_app. change (chars ",") with [","%char]. cbn [app].
    rewrite parseCSVLineFrom_quoted by (right; eexists; reflexivity).
    cbn [parseCSVLineFrom]. change (Ascii.eqb "," quote) with false. cbn [andb negb].
    rewrite IH by discriminate. cbn [rev map].
    rewrite rev_involutive, str_chars, <- app_assoc. reflexivity.
Qed.

(** parseCSVLine: a line without double quotes gives its comma-separated
    parts, trimmed; and a line of fields written between double quotes, with
    the double quotes inside a field doubled, gives the fields back, trimmed,
    whatever commas and double quotes they hold. *)
Theorem parseCSVLine_fields :
  (∀ line, quote ∉ chars line → parseCSVLine line = map trim (split "," line))
  ∧ (∀ values, values ≠ [] →
       parseCSVLine (join "," (map csvQuoted values)) = map trim values).
Proof.
  split.
  - intros line Hq. unfold parseCSVLine, split.
    rewrite (parseCSVLineFrom_unquoted _ Hq). reflexivity.
  - intros values Hv. unfold parseCSVLine.
    rewrite (parseCSVLineFrom_quoted_fields values Hv). reflexivity.
Qed.

End LineTheorems.

Section DateStringTheorems.

Variable host : Host.

(** formatDateString: a string of the shape YYYY-MM-DD is returned as it is,
    whatever the host reads in it (so a date such as 2024-13-45 that no
    calendar has is kept); the empty string gives today's date; and the
    result is never empty. *)
Theorem formatDateString_result (now : Z) (dateString : string) :
  (isIsoDate dateString = true → formatDateString host now dateString = dateString)
  ∧ formatDateString host now "" = toISODate now
  ∧ formatDateString host now dateString ≠ "".
Proof.
  split; [|split].
  - intros Hiso. unfold formatDateString. rewrite Hiso.
    destruct (String.eqb_spec dateString "") as [->|_]; [discriminate Hiso|reflexivity].
  - reflexivity.
  - apply formatDateString_nonempty.
Qed.

End DateStringTheorems.
(** ** The merge of the bulk update *)

Section MergeTheorems.

Variable host : Host.

(** updateLoanWithImportData: it returns when the existing schedule is not
    empty; the record it returns keeps the identifier and the owner of the
    existing loan, its obligations, notes and communications, and its payment
    schedule when that is not empty (a fresh one is generated from the merged
    terms only when it is empty); each candidate field among borrower, amount,
    interest rate, term, start date, end date, email, phone, contact and loan
    officer that is not empty, zero or NaN replaces the existing one; the tags
    are the candidate's; and status and risk score are those determineLoanStatus
    and calculateRiskScore give for the merged record. *)
Theorem updateLoanWithImportData_merge
    (now : Z) (existing : Loan.t) (candidate : Candidate.t) :
  (Loan.paymentSchedule existing ≠ [] →
       ∃ merged, updateLoanWithImportData host now existing candidate = Return merged)
  ∧ ∀ merged : Loan.t,
      updateLoanWithImportData host now existing candidate = Return merged →
      Loan.id merged = Loan.id existing
      ∧ Loan.managedBy merged = Loan.managedBy existing
      ∧ Loan.obligations merged = Loan.obligations existing
      ∧ Loan.notes merged = Loan.notes existing
      ∧ Loan.communications merged = Loan.communications existing
      ∧ (Loan.paymentSchedule existing ≠ [] →
           Loan.paymentSchedule merged = Loan.paymentSchedule existing)
      ∧ (Loan.paymentSchedule existing = [] →
           generatePaymentSchedule host (Loan.id existing) (Loan.amount merged)
             (Loan.interestRate merged) (Loan.term merged) (Loan.startDate merged)
           = Return (Loan.paymentSchedule merged))
      ∧ (Candidate.borrower candidate ≠ "" →
           Loan.borrower merged = Candidate.borrower candidate)
      ∧ (truthy (Candidate.amount candidate) = true →
           Loan.amount merged = Candidate.amount candidate)
      ∧ (truthy (Candidate.interestRate candidate) = true →
           Loan.interestRate merged = Candidate.interestRate candidate)
      ∧ (Candidate.term candidate ≠ 0 → Loan.term merged = Candidate.term candidate)
      ∧ (Candidate.startDate candidate ≠ "" →
           Loan.startDate merged = Candidate.startDate candidate)
      ∧ (Candidate.endDate candidate ≠ "" →
           Loan.endDate merged = Candidate.endDate candidate)
      ∧ (Candidate.borrowerEmail candidate ≠ "" →
           Loan.borrowerEmail merged = Candidate.borrowerEmail candidate)
      ∧ (Candidate.borrowerPhone candidate ≠ "" →
           Loan.borrowerPhone merged = Candidate.borrowerPhone candidate)
      ∧ (Candidate.borrowerContact candidate ≠ "" →
           Loan.borrowerContact merged = Candidate.borrowerContact candidate)
      ∧ (Candidate.loanOfficer candidate ≠ "" →
           Loan.loanOfficer merged = Candidate.loanOfficer candidate)
      ∧ Loan.tags merged = Candidate.tags candidate
      ∧ Loan.status merged = determineLoanStatus host now merged
      ∧ Loan.riskScore merged = calculateRiskScore host now merged.
Proof.
  split.
  { intros Hne. unfold updateLoanWithImportData.
    destruct (Loan.paymentSchedule existing) as [|p ps]; [contradiction|].
    eexists. reflexivity. }
  intros merged Hu. unfold updateLoanWithImportData in Hu.
  destruct (Loan.paymentSchedule existing) as [|p ps] eqn:Hps.
  - destruct (generatePaymentSchedule _ _ _ _ _ _) as [sched|err] eqn:Hg;
      [|discriminate].
    cbn in Hu. injection Hu as <-.
    repeat split; try reflexivity; try contradiction.
    + intros _. exact Hg.
    + intros H. cbn. apply orStr_nonempty, H.
    + intros H. cbn. apply orNum_truthy, H.
    + intros H. cbn. apply orNum_truthy, H.
    + intros H. cbn. apply orZ_nonzero, H.
    + intros H. cbn. apply orStr_nonempty, H.
    + intros H. cbn. apply orStr_nonempty, H.
    + intros H. cbn. apply orStr_nonempty, H.
    + intros H. cbn. apply orStr_nonempty, H.
    + intros H. cbn. apply orStr_nonempty, H.
    + intros H. cbn. apply orStr_nonempty, H.
  - cbn in Hu. injection Hu as <-.
    repeat split; try reflexivity; try discriminate.
    + intros H. cbn. apply orStr_nonempty, H.
    + intros H. cbn. apply orNum_truthy, H.
    + intros H. cbn. apply orNum_truthy, H.
    + intros H. cbn. apply orZ_nonzero, H.
    + intros H. cbn. apply orStr_nonempty, H.
    + intros H. cbn. apply orStr_nonempty, H.
    + intros H. cbn. apply orStr_nonempty, H.
    + intros H. cbn. apply orStr_nonempty, H.
    + intros H. cbn. apply orStr_nonempty, H.
    + intros H. cbn. apply orStr_nonempty, H.
Qed.

End MergeTheorems.
